(** * A shallow embedding of the grep command (mdgo/grep)

    The repository holds two revisions of the program:

    - [src/unnamed/part_000]: [Grep] returns a [bool]; the flags include
      [-s] (NoErrorMessages) and [-q] (Quiet).  Embedded in [Module GrepBool].
    - [src/grep.go]: [Grep] returns an [error], with the sentinel
      [ErrNoMatch]; no [-s], no [-q].  Embedded in [Module GrepErr].

    The Go program keeps its configuration and its sinks in package-level
    variables ([Flags], [printName], [stderr], [stdin], [stdout]).  Here
    they are the fields of a [World] record threaded through a small state
    monad, so that rebinding [stdout] to [ioutil.Discard] is visible to
    every later write, as in the source.  The regexp library and the file
    system are parameters ([Env]).  The counters are Go [int]s and wrap
    around.  A ghost trace records the calls to the file system, the
    assignments to [printName] and the scans. *)

From Stdlib Require Import String List ZArith Lia Bool DecimalString.
Import ListNotations.
Local Open Scope list_scope.
Local Open Scope string_scope.
Local Open Scope Z_scope.

(** ** Data shared by both revisions *)

(** Go's [int] (64 bits on the usual targets): [x++] wraps around. *)
Definition wrap64 (z : Z) : Z := (z + 2 ^ 63) mod 2 ^ 64 - 2 ^ 63.
Definition incr (z : Z) : Z := wrap64 (z + 1).

(** The newline that [Fprintln] appends. *)
Definition nl : string := String (Ascii.ascii_of_nat 10) "".

(** [fmt.Fprint] of an [int]: its decimal representation. *)
Definition itoa (z : Z) : string := NilZero.string_of_int (Z.to_int z).

(** What a sink variable ([stdout], [stderr]) may be bound to. *)
Inductive Writer : Type :=
| OsStdout
| OsStderr
| Discard.

(** An [io.Reader] as [bufio.Scanner] sees it: the lines that [Scan]
    yields (newline stripped), then the value of [scanner.Err()]. *)
Record Stream : Type := mkStream {
  lines : list string;
  readErr : option string
}.

(** A Go pair [(value, err)]; the error is kept as its message. *)
Inductive result (A : Type) : Type :=
| Ok (a : A)
| Err (msg : string).
Arguments Ok {A} a.
Arguments Err {A} msg.

(** The library and operating-system calls the program makes. *)
Record Env : Type := mkEnv {
  Regexp : Type;
  Compile : string -> result Regexp;        (* regexp.Compile *)
  MatchString : Regexp -> string -> bool;   (* Regexp.MatchString *)
  Glob : string -> result (list string);    (* filepath.Glob *)
  Open : string -> result Stream;           (* os.Open *)
  Create : string -> option string;         (* os.Create: its error *)
  Defaults : string                         (* text of flag.PrintDefaults *)
}.

(** Ghost trace: the calls to the file system, the assignments to
    [printName], and the start of every scan together with the value
    [printName] has at that moment. *)
Inductive Event : Type :=
| EvGlob (glob : string)
| EvSetPrintName (b : bool)
| EvOpen (name : string)
| EvScan (name : string) (pn : bool).

Definition isScan (e : Event) : bool :=
  match e with EvScan _ _ => true | _ => false end.
Definition isOpen (e : Event) : bool :=
  match e with EvOpen _ => true | _ => false end.
Definition isGlob (e : Event) : bool :=
  match e with EvGlob _ => true | _ => false end.
Definition isSetPrintName (e : Event) : bool :=
  match e with EvSetPrintName _ => true | _ => false end.

(** How the loop over the scanner is left. *)
Inductive LoopExit (R : Type) : Type :=
| Return (r : R)            (* a [return] inside the loop *)
| EndOfStream (count : Z).  (* [scanner.Scan()] answered false *)
Arguments Return {R} r.
Arguments EndOfStream {R} count.

(** ** The package-level variables and the state monad

    [F] is the type of the [Flags] struct, which differs between the two
    revisions. *)
Section Machine.
Context {F : Type}.

Record World : Type := mkWorld {
  Flags : F;
  printName : bool;
  stderr : Writer;
  stdout : Writer;
  stdin : Stream;
  osStdout : string;     (* bytes received by os.Stdout *)
  osStderr : string;     (* bytes received by os.Stderr *)
  trace : list Event
}.

(** The package-level variables when [main] starts, once [flag.Parse]
    has filled [Flags]. *)
Definition initWorld (fl : F) (sin : Stream) : World :=
  mkWorld fl false OsStderr OsStdout sin "" "" [].

Definition M (A : Type) : Type := World -> A * World.
Definition ret {A} (a : A) : M A := fun w => (a, w).
Definition bind {A B} (m : M A) (k : A -> M B) : M B :=
  fun w => let (a, w') := m w in k a w'.

Definition getFlags : M F := fun w => (Flags w, w).
Definition getPrintName : M bool := fun w => (printName w, w).
Definition getStdin : M Stream := fun w => (stdin w, w).

Definition setPrintName (b : bool) : M unit := fun w =>
  (tt, mkWorld (Flags w) b (stderr w) (stdout w) (stdin w)
               (osStdout w) (osStderr w) (trace w ++ [EvSetPrintName b])%list).
Definition setStderr (x : Writer) : M unit := fun w =>
  (tt, mkWorld (Flags w) (printName w) x (stdout w) (stdin w)
               (osStdout w) (osStderr w) (trace w)).
Definition setStdout (x : Writer) : M unit := fun w =>
  (tt, mkWorld (Flags w) (printName w) (stderr w) x (stdin w)
               (osStdout w) (osStderr w) (trace w)).
Definition log (e : Event) : M unit := fun w =>
  (tt, mkWorld (Flags w) (printName w) (stderr w) (stdout w) (stdin w)
               (osStdout w) (osStderr w) (trace w ++ [e])%list).

(** Writing [s] to the writer [x]. *)
Definition write (x : Writer) (s : string) (w : World) : World :=
  match x with
  | OsStdout => mkWorld (Flags w) (printName w) (stderr w) (stdout w) (stdin w)
                        (osStdout w ++ s) (osStderr w) (trace w)
  | OsStderr => mkWorld (Flags w) (printName w) (stderr w) (stdout w) (stdin w)
                        (osStdout w) (osStderr w ++ s) (trace w)
  | Discard => w
  end.

(** [fmt.Fprint(v, s)] where [v] is one of the sink variables. *)
Definition Fprint (v : World -> Writer) (s : string) : M unit :=
  fun w => (tt, write (v w) s w).
Definition Fprintln (v : World -> Writer) (s : string) : M unit :=
  Fprint v (s ++ nl).

Definition when (b : bool) (m : M unit) : M unit := if b then m else ret tt.

End Machine.
Arguments World F : clear implicits.
Arguments M F A : clear implicits.

Notation "x <- m ;; k" := (bind m (fun x => k))
  (at level 61, m at next level, right associativity).
Notation "m ;; k" := (bind m (fun _ => k))
  (at level 61, right associativity).

(** [fmt.Fprintf(stderr, "grep: %s: %s\n", name, err)] *)
Definition diagnostic (name err : string) : string :=
  "grep: " ++ name ++ ": " ++ err ++ nl.

Definition usage : string := "usage: grep [flags] pattern [path ...]".

(** * The revision of [src/unnamed/part_000] *)
Module GrepBool.

Record FlagsT : Type := mkFlags {
  CountOnly : bool;
  FilesWithMatch : bool;
  FilesWithoutMatch : bool;
  Invert : bool;
  LineNumbers : bool;
  NoErrorMessages : bool;
  NoFilename : bool;
  Quiet : bool
}.

Section Program.
Variable E : Env.

(** The guard [pattern.MatchString(line) == Flags.Invert] skips a line;
    a line is selected when the guard is false. *)
Definition selected (pattern : Regexp E) (invert : bool) (line : string) : bool :=
  negb (Bool.eqb (MatchString E pattern line) invert).

(** The tail of the loop body: the decorated line. *)
Definition emitLine (name : string) (lineNumber : Z) (line : string)
  : M FlagsT unit :=
  fl <- getFlags ;;
  pn <- getPrintName ;;
  when pn (Fprint stdout name ;; Fprint stdout ":") ;;
  when (LineNumbers fl)
       (Fprint stdout (itoa lineNumber) ;; Fprint stdout ":") ;;
  Fprintln stdout line.

(** The [for scanner.Scan()] loop of [grepFile].  [rest] is what the
    scanner has not yielded yet; it is returned with the exit. *)
Fixpoint scanLoop (name : string) (pattern : Regexp E) (rest : list string)
         (lineNumber count : Z) : M FlagsT (LoopExit bool * list string) :=
  match rest with
  | [] => ret (EndOfStream count, [])
  | line :: rest' =>
    let lineNumber := incr lineNumber in
    fl <- getFlags ;;
    if Bool.eqb (MatchString E pattern line) (Invert fl) then
      scanLoop name pattern rest' lineNumber count
    else if FilesWithoutMatch fl then ret (Return false, rest')
    else if Quiet fl then ret (Return true, rest')
    else if FilesWithMatch fl then
      pn <- getPrintName ;;
      when pn (Fprintln stdout name) ;;
      ret (Return true, rest')
    else
      let count := incr count in
      if CountOnly fl then scanLoop name pattern rest' lineNumber count
      else
        emitLine name lineNumber line ;;
        scanLoop name pattern rest' lineNumber count
  end.

(** What follows the loop when it ends at the end of the stream. *)
Definition epilogue (name : string) (inp : Stream) (count : Z) : M FlagsT bool :=
  match readErr inp with
  | Some e => Fprintln stderr e
  | None => ret tt
  end ;;
  fl <- getFlags ;;
  pn <- getPrintName ;;
  (if FilesWithoutMatch fl then when pn (Fprintln stdout name)
   else if CountOnly fl then
     when (0 <? count)
          (when pn (Fprint stdout name ;; Fprint stdout ":") ;;
           Fprintln stdout (itoa count))
   else ret tt) ;;
  ret (0 <? count).

Definition grepFile (name : string) (inp : Stream) (pattern : Regexp E) : M FlagsT bool :=
  pn <- getPrintName ;;
  log (EvScan name pn) ;;
  x <- scanLoop name pattern (lines inp) 0 0 ;;
  match fst x with
  | Return b => ret b
  | EndOfStream count => epilogue name inp count
  end.

(** The inner loop [for _, name := range paths]. *)
Fixpoint grepPaths (pattern : Regexp E) (paths : list string) (matchFiles : Z)
  : M FlagsT Z :=
  match paths with
  | [] => ret matchFiles
  | name :: paths' =>
    log (EvOpen name) ;;
    match Open E name with
    | Err e =>
      Fprint stderr (diagnostic name e) ;;
      grepPaths pattern paths' matchFiles
    | Ok f =>
      b <- grepFile name f pattern ;;
      grepPaths pattern paths' (if b then incr matchFiles else matchFiles)
    end
  end.

(** The outer loop [for _, glob := range globs]; [n] is [len(globs)]. *)
Fixpoint grepGlobs (pattern : Regexp E) (n : nat) (globs : list string)
         (matchFiles : Z) : M FlagsT Z :=
  match globs with
  | [] => ret matchFiles
  | glob :: globs' =>
    log (EvGlob glob) ;;
    match Glob E glob with
    | Err e =>
      Fprint stderr (diagnostic glob e) ;;
      grepGlobs pattern n globs' matchFiles
    | Ok paths =>
      fl <- getFlags ;;
      setPrintName (negb (NoFilename fl)
                    && ((1 <? n)%nat || (1 <? length paths)%nat)) ;;
      let paths := if (length paths =? 0)%nat then (paths ++ [glob])%list else paths in
      m <- grepPaths pattern paths matchFiles ;;
      grepGlobs pattern n globs' m
    end
  end.

(** The rebinding of the sinks that follows the compilation of the
    pattern. *)
Definition suppress : M FlagsT unit :=
  fl <- getFlags ;;
  if Quiet fl then setStderr Discard ;; setStdout Discard
  else if NoErrorMessages fl then setStderr Discard
  else ret tt.

Definition Grep (pattern : string) (globs : list string) : M FlagsT bool :=
  match Compile E pattern with
  | Err e => Fprintln stderr e ;; ret false
  | Ok re =>
    suppress ;;
    if (length globs =? 0)%nat then
      sin <- getStdin ;;
      grepFile "" sin re
    else
      m <- grepGlobs re (length globs) globs 0 ;;
      ret (0 <? m)
  end.

(** [cmdMain] after [flag.Parse]: [cpuprofile] is the value of that flag,
    [args] is [flag.Args()].  [os.Exit(2)] is the exit code 2. *)
Definition cmdMain (cpuprofile : string) (args : list string) : M FlagsT Z :=
  match (if String.eqb cpuprofile "" then None else Create E cpuprofile) with
  | Some e =>
    (fun w => (2, write OsStderr
                        ("creating cpu profile: " ++ e ++ nl) w))
  | None =>
    match args with
    | [] =>
      Fprintln stderr usage ;;
      (fun w => (2, write OsStderr (Defaults E) w))
    | pattern :: globs =>
      b <- Grep pattern globs ;;
      ret (if b then 0 else 2)
    end
  end.

End Program.
End GrepBool.

(** * The revision of [src/grep.go] *)
Module GrepErr.

(** Go's [error] values as this program tells them apart: the sentinel
    [ErrNoMatch] (compared by identity) and every other error. *)
Inductive error : Type :=
| ErrNoMatch
| ErrOther (msg : string).

Definition Error (e : error) : string :=
  match e with
  | ErrNoMatch => "grep: no match"
  | ErrOther msg => msg
  end.

Definition isErrNoMatch (e : error) : bool :=
  match e with ErrNoMatch => true | ErrOther _ => false end.

Record FlagsT : Type := mkFlags {
  CountOnly : bool;
  FilesWithMatch : bool;
  FilesWithoutMatch : bool;
  Invert : bool;
  LineNumbers : bool;
  NoFilename : bool
}.

Section Program.
Variable E : Env.

(** The tail of the loop body: the decorated line. *)
Definition emitLine (name : string) (lineNumber : Z) (line : string)
  : M FlagsT unit :=
  fl <- getFlags ;;
  pn <- getPrintName ;;
  when pn (Fprint stdout name ;; Fprint stdout ":") ;;
  when (LineNumbers fl)
       (Fprint stdout (itoa lineNumber) ;; Fprint stdout ":") ;;
  Fprintln stdout line.

(** The [for scanner.Scan()] loop; a [return] carries [None] for [nil]. *)
Fixpoint scanLoop (name : string) (pattern : Regexp E) (rest : list string)
         (lineNumber count : Z)
  : M FlagsT (LoopExit (option error) * list string) :=
  match rest with
  | [] => ret (EndOfStream count, [])
  | line :: rest' =>
    let lineNumber := incr lineNumber in
    fl <- getFlags ;;
    if Bool.eqb (MatchString E pattern line) (Invert fl) then
      scanLoop name pattern rest' lineNumber count
    else if FilesWithoutMatch fl then ret (Return (Some ErrNoMatch), rest')
    else if FilesWithMatch fl then
      pn <- getPrintName ;;
      when pn (Fprintln stdout name) ;;
      ret (Return None, rest')
    else
      let count := incr count in
      if CountOnly fl then scanLoop name pattern rest' lineNumber count
      else
        emitLine name lineNumber line ;;
        scanLoop name pattern rest' lineNumber count
  end.

Definition grepFile (name : string) (inp : Stream) (pattern : Regexp E)
  : M FlagsT (option error) :=
  pn <- getPrintName ;;
  log (EvScan name pn) ;;
  x <- scanLoop name pattern (lines inp) 0 0 ;;
  match fst x with
  | Return r => ret r
  | EndOfStream count =>
    match readErr inp with
    | Some e => ret (Some (ErrOther e))
    | None =>
      fl <- getFlags ;;
      pn <- getPrintName ;;
      (if FilesWithoutMatch fl then when pn (Fprintln stdout name)
       else if CountOnly fl then
         when (0 <? count)
              (when pn (Fprint stdout name ;; Fprint stdout ":") ;;
               Fprintln stdout (itoa count))
       else ret tt) ;;
      ret None
    end
  end.

(** The inner loop; [inl err] is a [return err] out of [Grep], [inr m]
    is the loop running to its end with [matchFiles = m]. *)
Fixpoint grepPaths (pattern : Regexp E) (paths : list string) (matchFiles : Z)
  : M FlagsT (error + Z) :=
  match paths with
  | [] => ret (inr matchFiles)
  | name :: paths' =>
    log (EvOpen name) ;;
    match Open E name with
    | Err e => ret (inl (ErrOther e))
    | Ok f =>
      r <- grepFile name f pattern ;;
      match r with
      | Some err =>
        if isErrNoMatch err then grepPaths pattern paths' matchFiles
        else ret (inl err)
      | None => grepPaths pattern paths' (incr matchFiles)
      end
    end
  end.

Fixpoint grepGlobs (pattern : Regexp E) (globs : list string) (matchFiles : Z)
  : M FlagsT (error + Z) :=
  match globs with
  | [] => ret (inr matchFiles)
  | glob :: globs' =>
    log (EvGlob glob) ;;
    match Glob E glob with
    | Err e => ret (inl (ErrOther e))
    | Ok paths =>
      r <- grepPaths pattern paths matchFiles ;;
      match r with
      | inl err => ret (inl err)
      | inr m => grepGlobs pattern globs' m
      end
    end
  end.

Definition Grep (pattern : string) (globs : list string)
  : M FlagsT (option error) :=
  fl <- getFlags ;;
  setPrintName (negb (NoFilename fl) && (1 <? length globs)%nat) ;;
  match Compile E pattern with
  | Err e => ret (Some (ErrOther e))
  | Ok re =>
    if (length globs =? 0)%nat then
      sin <- getStdin ;;
      grepFile "" sin re
    else
      r <- grepGlobs re globs 0 ;;
      match r with
      | inl err => ret (Some err)
      | inr m => if m =? 0 then ret (Some ErrNoMatch) else ret None
      end
  end.

Definition cmdMain (cpuprofile : string) (args : list string) : M FlagsT Z :=
  match (if String.eqb cpuprofile "" then None else Create E cpuprofile) with
  | Some e =>
    (fun w => (2, write OsStderr ("creating cpu profile: " ++ e ++ nl) w))
  | None =>
    match args with
    | [] =>
      Fprintln stderr usage ;;
      (fun w => (2, write OsStderr (Defaults E) w))
    | pattern :: globs =>
      r <- Grep pattern globs ;;
      match r with
      | Some err =>
        when (negb (isErrNoMatch err)) (Fprintln stderr (Error err)) ;;
        ret 2
      | None => ret 0
      end
    end
  end.

End Program.
End GrepErr.

(** * A small concrete environment

    Used to run the program on explicit inputs: a literal-substring
    matcher (which is what Go's regexp does on patterns without
    metacharacters) that rejects the pattern ["("], and a directory with
    two files. *)
Module Demo.

Definition contains (needle hay : string) : bool :=
  match String.index 0 needle hay with
  | Some _ => true
  | None => false
  end.

Definition badPattern : string :=
  "error parsing regexp: missing closing ): `(`".

Definition compile (p : string) : result string :=
  if String.eqb p "(" then Err badPattern else Ok p.

Definition fileA : Stream := mkStream ["hello world"; "goodbye"] None.
Definition fileB : Stream :=
  mkStream ["open sesame"; "hello again"; "the end"] None.

Definition glob (g : string) : result (list string) :=
  if String.eqb g "[" then Err "syntax error in pattern"
  else if String.eqb g "*.txt" then Ok ["a.txt"; "b.txt"]
  else if String.eqb g "a.txt" then Ok ["a.txt"]
  else if String.eqb g "b.txt" then Ok ["b.txt"]
  else Ok [].

Definition open (name : string) : result Stream :=
  if String.eqb name "a.txt" then Ok fileA
  else if String.eqb name "b.txt" then Ok fileB
  else Err ("open " ++ name ++ ": no such file or directory").

Definition env : Env :=
  mkEnv string compile contains glob open (fun _ => None) "".

Definition noFlags : GrepBool.FlagsT :=
  GrepBool.mkFlags false false false false false false false false.

(** [-c], [-c -v], [-c -q], [-c -q -L], [-L], [-s] *)
Definition flagsC : GrepBool.FlagsT :=
  GrepBool.mkFlags true false false false false false false false.
Definition flagsCV : GrepBool.FlagsT :=
  GrepBool.mkFlags true false false true false false false false.
Definition flagsCQ : GrepBool.FlagsT :=
  GrepBool.mkFlags true false false false false false false true.
Definition flagsCQL : GrepBool.FlagsT :=
  GrepBool.mkFlags true false true false false false false true.
Definition flagsL : GrepBool.FlagsT :=
  GrepBool.mkFlags false false true false false false false false.
Definition flagsS : GrepBool.FlagsT :=
  GrepBool.mkFlags false false false false false true false false.

(** [-n], [-l] *)
Definition flagsN : GrepBool.FlagsT :=
  GrepBool.mkFlags false false false false true false false false.
Definition flagsLower : GrepBool.FlagsT :=
  GrepBool.mkFlags false true false false false false false false.

(** A stream that ends with a read error. *)
Definition broken : Stream :=
  mkStream ["hello world"] (Some "read error").

(** [-L] in the revision of [src/grep.go]. *)
Definition flagsLErr : GrepErr.FlagsT :=
  GrepErr.mkFlags false false true false false false.

(** The process at its start, standard input being empty. *)
Definition start (fl : GrepBool.FlagsT) : World GrepBool.FlagsT :=
  initWorld fl (mkStream [] None).

Definition noFlagsErr : GrepErr.FlagsT :=
  GrepErr.mkFlags false false false false false false.
Definition startErr : World GrepErr.FlagsT :=
  initWorld noFlagsErr (mkStream [] None).

(** The same directory with one more entry, [locked]: [filepath.Glob]
    lists it and [os.Open] refuses it. *)
Definition globLocked (g : string) : result (list string) :=
  if String.eqb g "locked" then Ok ["locked"] else glob g.

Definition openLocked (name : string) : result Stream :=
  if String.eqb name "locked" then Err "open locked: permission denied"
  else open name.

Definition envLocked : Env :=
  mkEnv string compile contains globLocked openLocked (fun _ => None) "".

End Demo.

(** * Observations on a run of [GrepBool.Grep]

    Pure functions, read off the source, in which the theorems below are
    stated. *)
Module Obs.
Import GrepBool.
Section Obs.
Variable E : Env.

Definition opens (name : string) : bool :=
  match Open E name with Ok _ => true | Err _ => false end.

(** The value given to [printName] for a glob that expanded to [paths],
    [n] being [len(globs)]. *)
Definition namePolicy (noFilename : bool) (n : nat) (paths : list string)
  : bool :=
  negb noFilename && ((1 <? n)%nat || (1 <? length paths)%nat).

(** The slice the inner loop ranges over for one glob (nothing when
    [filepath.Glob] fails, the glob itself when nothing matched). *)
Definition expand (glob : string) : list string :=
  match Glob E glob with
  | Err _ => []
  | Ok paths =>
    if (length paths =? 0)%nat then (paths ++ [glob])%list else paths
  end.

(** Every path the run tries to open, in order. *)
Definition sources (globs : list string) : list string :=
  flat_map expand globs.

Definition pathEvents (pn : bool) (paths : list string) : list Event :=
  flat_map (fun name =>
              EvOpen name :: (if opens name then [EvScan name pn] else []))
           paths.

Definition globEvents (noFilename : bool) (n : nat) (glob : string)
  : list Event :=
  EvGlob glob ::
  match Glob E glob with
  | Err _ => []
  | Ok paths =>
    let pn := namePolicy noFilename n paths in
    EvSetPrintName pn :: pathEvents pn (expand glob)
  end.

Definition runEvents (noFilename : bool) (globs : list string) : list Event :=
  flat_map (globEvents noFilename (length globs)) globs.

(** The decision part of the scan loop, without the printing: how the
    loop is left and what the scanner has not yielded. *)
Fixpoint outcome (fl : FlagsT) (pattern : Regexp E) (rest : list string)
         (count : Z) : LoopExit bool * list string :=
  match rest with
  | [] => (EndOfStream count, [])
  | line :: rest' =>
    if selected E pattern (Invert fl) line then
      if FilesWithoutMatch fl then (Return false, rest')
      else if Quiet fl then (Return true, rest')
      else if FilesWithMatch fl then (Return true, rest')
      else outcome fl pattern rest' (incr count)
    else outcome fl pattern rest' count
  end.

(** The value [grepFile] returns. *)
Definition matched (fl : FlagsT) (pattern : Regexp E) (inp : Stream) : bool :=
  match fst (outcome fl pattern (lines inp) 0) with
  | Return b => b
  | EndOfStream count => 0 <? count
  end.

Definition sourceMatched (fl : FlagsT) (pattern : Regexp E) (name : string)
  : bool :=
  match Open E name with
  | Ok f => matched fl pattern f
  | Err _ => false
  end.

(** The selected lines of a stream. *)
Definition selectedLines (fl : FlagsT) (pattern : Regexp E) (inp : Stream)
  : list string :=
  filter (selected E pattern (Invert fl)) (lines inp).

(** The value of [printName] after the assignments recorded in [evs]. *)
Definition lastPrintName (evs : list Event) (pn : bool) : bool :=
  fold_left (fun pn e => match e with EvSetPrintName b => b | _ => pn end)
            evs pn.

(** [w'] is reached from [w] by a piece of the program that records the
    events [evs]: the flags, the bindings of the sinks and [stdin] are
    those of [w], a stream that no sink is bound to receives nothing,
    and what a stream has received stays. *)
Definition steps (w w' : World FlagsT) (evs : list Event) : Prop :=
  Flags w' = Flags w
  /\ stderr w' = stderr w
  /\ stdout w' = stdout w
  /\ stdin w' = stdin w
  /\ trace w' = (trace w ++ evs)%list
  /\ printName w' = lastPrintName evs (printName w)
  /\ (stdout w <> OsStdout -> stderr w <> OsStdout ->
      osStdout w' = osStdout w)
  /\ (stdout w <> OsStderr -> stderr w <> OsStderr ->
      osStderr w' = osStderr w)
  /\ (exists o, osStdout w' = osStdout w ++ o)
  /\ (exists e, osStderr w' = osStderr w ++ e).

(** The value of [printName] during a run over [globs]: more than one
    glob argument, or more than one path to open, and no [-h]. *)
Definition runPrintName (noFilename : bool) (globs : list string) : bool :=
  negb noFilename
  && ((1 <? length globs)%nat || (1 <? length (sources globs))%nat).

(** The globs that [filepath.Glob] accepts. *)
Definition globOk (glob : string) : bool :=
  match Glob E glob with Ok _ => true | Err _ => false end.

(** Successive writes to one writer. *)
Definition writes (x : Writer) (ss : list string) (w : World FlagsT)
  : World FlagsT :=
  fold_left (fun w s => write x s w) ss w.

(** Every glob of [l] that expands makes [namePolicy] give [v]. *)
Definition agrees (nf : bool) (n : nat) (v : bool) (l : list string) : Prop :=
  forall glob paths, In glob l -> Glob E glob = Ok paths ->
                     namePolicy nf n paths = v.

(** A computation that records no event. *)
Definition silent {A : Type} (m : M FlagsT A) : Prop :=
  forall w, steps w (snd (m w)) [].

End Obs.
End Obs.

(** * What a run writes

    The text a piece of the program sends to its two sinks, as pure
    functions read off the source.  They are used where both sinks are
    bound as the program binds them: [stdout] to os.Stdout or to
    [ioutil.Discard], [stderr] to os.Stderr or to [ioutil.Discard]. *)
Section Effect.
Context {F : Type}.

(** What os.Stdout (os.Stderr) receives of a text written to [x]. *)
Definition toStdout (x : Writer) (s : string) : string :=
  match x with OsStdout => s | _ => "" end.
Definition toStderr (x : Writer) (s : string) : string :=
  match x with OsStderr => s | _ => "" end.

(** No sink variable is bound to the other stream. *)
Definition straight (w : World F) : Prop :=
  stdout w <> OsStderr /\ stderr w <> OsStdout.

(** The world after the events [evs], [out] written to [stdout] and
    [err] written to [stderr]. *)
Definition after (w : World F) (evs : list Event) (out err : string)
  : World F :=
  mkWorld (Flags w) (Obs.lastPrintName evs (printName w))
          (stderr w) (stdout w) (stdin w)
          (osStdout w ++ toStdout (stdout w) out)
          (osStderr w ++ toStderr (stderr w) err)
          (trace w ++ evs)%list.

(** A computation that leaves [Flags] as it is. *)
Definition keepsFlags {A : Type} (m : M F A) : Prop :=
  forall w, Flags (snd (m w)) = Flags w.

(** A computation that writes to [stdout] only, never to [stderr]. *)
Definition stdoutOnly {A : Type} (m : M F A) : Prop :=
  forall w, straight w -> exists evs out, snd (m w) = after w evs out "".

(** An event of a piece of the run that works with the value [pn] of
    [printName]: it is no assignment, and a scan starts with [pn]. *)
Definition scansWith (pn : bool) (e : Event) : Prop :=
  match e with
  | EvSetPrintName _ => False
  | EvScan _ b => b = pn
  | EvGlob _ | EvOpen _ => True
  end.

(** A computation that, run in [w], leaves [printName] as it finds it
    and starts every scan with that value. *)
Definition usesPrintName {A : Type} (m : M F A) (w : World F) : Prop :=
  exists evs,
    trace (snd (m w)) = (trace w ++ evs)%list
    /\ printName (snd (m w)) = printName w
    /\ Forall (scansWith (printName w)) evs.

End Effect.

(** Concatenation of a list of texts. *)
Definition cat (l : list string) : string := fold_right append "" l.

(** The lines of a stream with their 1-based numbers. *)
Definition numbered (ls : list string) : list (Z * string) :=
  combine (map Z.of_nat (seq 1 (length ls))) ls.

Module Out.
Import GrepBool Obs.
Section Out.
Variable E : Env.

(** What [emitLine] prints. *)
Definition decorate (fl : FlagsT) (pn : bool) (name : string)
           (lineNumber : Z) (line : string) : string :=
  (if pn then name ++ ":" else "")
  ++ (if LineNumbers fl then itoa lineNumber ++ ":" else "")
  ++ line ++ nl.

(** What the scan loop prints. *)
Fixpoint loopOut (fl : FlagsT) (pn : bool) (name : string)
         (pattern : Regexp E) (rest : list string) (lineNumber : Z) : string :=
  match rest with
  | [] => ""
  | line :: rest' =>
    let lineNumber := incr lineNumber in
    if selected E pattern (Invert fl) line then
      if FilesWithoutMatch fl then ""
      else if Quiet fl then ""
      else if FilesWithMatch fl then (if pn then name ++ nl else "")
      else if CountOnly fl then loopOut fl pn name pattern rest' lineNumber
      else decorate fl pn name lineNumber line
           ++ loopOut fl pn name pattern rest' lineNumber
    else loopOut fl pn name pattern rest' lineNumber
  end.

(** What follows the loop prints on [stdout]. *)
Definition epilogueOut (fl : FlagsT) (pn : bool) (name : string) (count : Z)
  : string :=
  if FilesWithoutMatch fl then (if pn then name ++ nl else "")
  else if CountOnly fl then
    if 0 <? count
    then (if pn then name ++ ":" else "") ++ itoa count ++ nl
    else ""
  else "".

Definition readErrText (inp : Stream) : string :=
  match readErr inp with Some e => e ++ nl | None => "" end.

(** What one call of [grepFile] sends to [stdout] and to [stderr]. *)
Definition fileOut (fl : FlagsT) (pn : bool) (name : string)
           (pattern : Regexp E) (inp : Stream) : string :=
  loopOut fl pn name pattern (lines inp) 0
  ++ match fst (outcome E fl pattern (lines inp) 0) with
     | Return _ => ""
     | EndOfStream count => epilogueOut fl pn name count
     end.

Definition fileErr (fl : FlagsT) (pattern : Regexp E) (inp : Stream)
  : string :=
  match fst (outcome E fl pattern (lines inp) 0) with
  | Return _ => ""
  | EndOfStream _ => readErrText inp
  end.

(** What the visit of one path sends to the two sinks. *)
Definition sourceOut (fl : FlagsT) (pn : bool) (pattern : Regexp E)
           (name : string) : string :=
  match Open E name with
  | Ok f => fileOut fl pn name pattern f
  | Err _ => ""
  end.

Definition sourceErr (fl : FlagsT) (pattern : Regexp E) (name : string)
  : string :=
  match Open E name with
  | Ok f => fileErr fl pattern f
  | Err e => diagnostic name e
  end.

Definition globErr (fl : FlagsT) (pattern : Regexp E) (glob : string)
  : string :=
  match Glob E glob with
  | Err e => diagnostic glob e
  | Ok _ => cat (map (sourceErr fl pattern) (expand E glob))
  end.

(** What a run over [globs] sends to the two sinks. *)
Definition runOut (fl : FlagsT) (pattern : Regexp E) (globs : list string)
  : string :=
  cat (map (sourceOut fl (runPrintName E (NoFilename fl) globs) pattern)
           (sources E globs)).

Definition runErr (fl : FlagsT) (pattern : Regexp E) (globs : list string)
  : string :=
  cat (map (globErr fl pattern) globs).

(** Some line of the stream is selected. *)
Definition anySelected (fl : FlagsT) (pattern : Regexp E) (inp : Stream)
  : bool :=
  existsb (selected E pattern (Invert fl)) (lines inp).

(** The path opens and some line of it is selected. *)
Definition sourceSelected (fl : FlagsT) (pattern : Regexp E) (name : string)
  : bool :=
  match Open E name with
  | Ok f => anySelected fl pattern f
  | Err _ => false
  end.

End Out.
End Out.

(** * Observations on a run of [GrepErr.Grep] *)
Module ErrObs.
Import GrepErr.
Section ErrObs.
Variable E : Env.

(** The paths of one glob and of a run: there is no fallback here. *)
Definition expand (glob : string) : list string :=
  match Glob E glob with
  | Ok paths => paths
  | Err _ => []
  end.

Definition sources (globs : list string) : list string :=
  flat_map expand globs.

Definition anySelected (fl : FlagsT) (pattern : Regexp E) (inp : Stream)
  : bool :=
  existsb (GrepBool.selected E pattern (Invert fl)) (lines inp).

(** A path whose scan returns [nil]: it counts in [matchFiles]. *)
Definition counted (fl : FlagsT) (pattern : Regexp E) (name : string) : bool :=
  match Open E name with
  | Ok f => negb (FilesWithoutMatch fl && anySelected fl pattern f)
  | Err _ => false
  end.

(** Every path of the list opens, and its stream has no read error. *)
Definition allReadable (paths : list string) : Prop :=
  forall name, In name paths ->
               exists f, Open E name = Ok f /\ readErr f = None.

End ErrObs.
End ErrObs.

(** * The flags of a test case

    [TestGrep] (the test of the revision with [-q] and [-s]) clears
    [Flags] and sets it from a string of flags separated by spaces. *)
Module Harness.
Import GrepBool.

Definition space : Ascii.ascii := Ascii.ascii_of_nat 32.

(** [strings.Split(s, " ")] *)
Fixpoint splitSpace (s : string) : list string :=
  match s with
  | EmptyString => [""]
  | String c s' =>
    if Ascii.eqb c space then "" :: splitSpace s'
    else match splitSpace s' with
         | [] => [String c ""]
         | x :: xs => String c x :: xs
         end
  end.

(** One turn of the [switch f]. *)
Definition setFlag (fl : FlagsT) (f : string) : FlagsT :=
  if String.eqb f "-c" then
    mkFlags true (FilesWithMatch fl) (FilesWithoutMatch fl) (Invert fl)
            (LineNumbers fl) (NoErrorMessages fl) (NoFilename fl) (Quiet fl)
  else if String.eqb f "-l" then
    mkFlags (CountOnly fl) true (FilesWithoutMatch fl) (Invert fl)
            (LineNumbers fl) (NoErrorMessages fl) (NoFilename fl) (Quiet fl)
  else if String.eqb f "-L" then
    mkFlags (CountOnly fl) (FilesWithMatch fl) true (Invert fl)
            (LineNumbers fl) (NoErrorMessages fl) (NoFilename fl) (Quiet fl)
  else if String.eqb f "-v" then
    mkFlags (CountOnly fl) (FilesWithMatch fl) (FilesWithoutMatch fl) true
            (LineNumbers fl) (NoErrorMessages fl) (NoFilename fl) (Quiet fl)
  else if String.eqb f "-n" then
    mkFlags (CountOnly fl) (FilesWithMatch fl) (FilesWithoutMatch fl)
            (Invert fl) true (NoErrorMessages fl) (NoFilename fl) (Quiet fl)
  else if String.eqb f "-s" then
    mkFlags (CountOnly fl) (FilesWithMatch fl) (FilesWithoutMatch fl)
            (Invert fl) (LineNumbers fl) true (NoFilename fl) (Quiet fl)
  else if String.eqb f "-h" then
    mkFlags (CountOnly fl) (FilesWithMatch fl) (FilesWithoutMatch fl)
            (Invert fl) (LineNumbers fl) (NoErrorMessages fl) true (Quiet fl)
  else if String.eqb f "-q" then
    mkFlags (CountOnly fl) (FilesWithMatch fl) (FilesWithoutMatch fl)
            (Invert fl) (LineNumbers fl) (NoErrorMessages fl) (NoFilename fl)
            true
  else fl.

(** The eight assignments of [false], then the loop over the tokens. *)
Definition testFlags (flags : string) : FlagsT :=
  fold_left setFlag (splitSpace flags)
            (mkFlags false false false false false false false false).

(** The token occurs in the string of flags. *)
Definition has (token flags : string) : bool :=
  existsb (fun f => String.eqb f token) (splitSpace flags).

End Harness.

(** * Properties of the revision of [src/unnamed/part_000] *)

Import GrepBool.

Ltac run :=
  unfold bind, ret, getFlags, getPrintName, getStdin, when, Fprintln, Fprint,
    log, setPrintName, setStderr, setStdout; simpl.

Lemma wrap64_small (z : Z) : - 2 ^ 63 <= z < 2 ^ 63 -> wrap64 z = z.
Proof.
  intros H. unfold wrap64.
  rewrite Z.mod_small by lia. lia.
Qed.

Lemma iter_incr_small (k : nat) :
  Z.of_nat k < 2 ^ 63 -> Nat.iter k incr 0 = Z.of_nat k.
Proof.
  induction k as [|k IH]; intros H.
  - reflexivity.
  - simpl Nat.iter. rewrite IH by lia. unfold incr.
    rewrite wrap64_small by lia. lia.
Qed.

Lemma iter_incr_shift (k : nat) (z : Z) :
  Nat.iter k incr (incr z) = incr (Nat.iter k incr z).
Proof.
  induction k as [|k IH]; simpl; [reflexivity | now rewrite IH].
Qed.

Section ScanLoop.
Variable E : Env.
Variables (name : string) (pattern : Regexp E).

Lemma selected_guard (invert : bool) (line : string) :
  Bool.eqb (MatchString E pattern line) invert
  = negb (selected E pattern invert line).
Proof. unfold selected. now rewrite negb_involutive. Qed.

(** A line that is not selected only advances the line number. *)
Lemma scanLoop_unselected line rest lineNumber count (w : World FlagsT) :
  selected E pattern (Invert (Flags w)) line = false ->
  scanLoop E name pattern (line :: rest) lineNumber count w
  = scanLoop E name pattern rest (incr lineNumber) count w.
Proof.
  intros H. simpl. run. rewrite selected_guard, H. reflexivity.
Qed.

Lemma scanLoop_skip pre : forall rest lineNumber count (w : World FlagsT),
  Forall (fun l => selected E pattern (Invert (Flags w)) l = false) pre ->
  scanLoop E name pattern (pre ++ rest) lineNumber count w
  = scanLoop E name pattern rest (Nat.iter (length pre) incr lineNumber)
             count w.
Proof.
  induction pre as [|l pre IH]; intros rest lineNumber count w H.
  - reflexivity.
  - inversion H as [|? ? Hl Hpre]; subst.
    rewrite <- app_comm_cons, scanLoop_unselected by exact Hl.
    rewrite IH by exact Hpre. simpl length. simpl Nat.iter.
    now rewrite iter_incr_shift.
Qed.

(** What the loop body does with a selected line. *)
Lemma scanLoop_selected line rest lineNumber count (w : World FlagsT) :
  selected E pattern (Invert (Flags w)) line = true ->
  scanLoop E name pattern (line :: rest) lineNumber count w =
    if FilesWithoutMatch (Flags w) then (Return false, rest, w)
    else if Quiet (Flags w) then (Return true, rest, w)
    else if FilesWithMatch (Flags w) then
      (Return true, rest,
       if printName w then write (stdout w) (name ++ nl) w else w)
    else if CountOnly (Flags w) then
      scanLoop E name pattern rest (incr lineNumber) (incr count) w
    else
      scanLoop E name pattern rest (incr lineNumber) (incr count)
               (snd (emitLine name (incr lineNumber) line w)).
Proof.
  intros H. simpl. run. rewrite selected_guard, H. simpl.
  destruct (FilesWithoutMatch (Flags w)); [reflexivity|].
  destruct (Quiet (Flags w)); [reflexivity|].
  destruct (FilesWithMatch (Flags w)).
  - destruct (printName w); reflexivity.
  - destruct (CountOnly (Flags w)); [reflexivity|].
    destruct (emitLine name (incr lineNumber) line w) as [[] w']. reflexivity.
Qed.

End ScanLoop.

(** C7: for a fixed pattern and line, exactly one of [selected] without
    inversion and [selected] with inversion holds; [selected] is the
    exclusive or of the match and the inversion flag. *)
Theorem selected_inversion_law (E : Env) (pattern : Regexp E) (line : string) :
  (forall invert,
      selected E pattern invert line
      = xorb (MatchString E pattern line) invert)
  /\ selected E pattern true line = negb (selected E pattern false line)
  /\ ((selected E pattern false line = true
       /\ selected E pattern true line = false)
      \/ (selected E pattern false line = false
          /\ selected E pattern true line = true)).
Proof.
  unfold selected.
  destruct (MatchString E pattern line); repeat split;
    try (intros []; reflexivity); auto.
Qed.

(** ** What a piece of the program may change *)
Import Obs.

Lemma string_app_nil_r (s : string) : s ++ "" = s.
Proof. induction s as [|c s IH]; simpl; [reflexivity | now rewrite IH]. Qed.

Lemma string_app_assoc (s t u : string) : (s ++ t) ++ u = s ++ t ++ u.
Proof. induction s as [|c s IH]; simpl; [reflexivity | now rewrite IH]. Qed.

Ltac same_bytes :=
  first [ exists ""; now rewrite string_app_nil_r | eexists; reflexivity ].

Lemma steps_refl (w : World FlagsT) : steps w w [].
Proof.
  unfold steps. rewrite app_nil_r.
  repeat split; try reflexivity; same_bytes.
Qed.

Lemma steps_trans (w1 w2 w3 : World FlagsT) (e1 e2 : list Event) :
  steps w1 w2 e1 -> steps w2 w3 e2 -> steps w1 w3 (e1 ++ e2)%list.
Proof.
  unfold steps, lastPrintName.
  intros (F1 & A1 & B1 & C1 & T1 & P1 & O1 & R1 & [o1 Mo1] & [r1 Mr1])
         (F2 & A2 & B2 & C2 & T2 & P2 & O2 & R2 & [o2 Mo2] & [r2 Mr2]).
  rewrite A1, B1 in O2, R2.
  repeat split; try congruence.
  - rewrite T2, T1. now rewrite app_assoc.
  - rewrite fold_left_app, P2, P1. reflexivity.
  - intros Ho He. rewrite O2, O1; auto.
  - intros Ho He. rewrite R2, R1; auto.
  - exists (o1 ++ o2). now rewrite Mo2, Mo1, string_app_assoc.
  - exists (r1 ++ r2). now rewrite Mr2, Mr1, string_app_assoc.
Qed.

Lemma steps_nil_trans (w1 w2 w3 : World FlagsT) :
  steps w1 w2 [] -> steps w2 w3 [] -> steps w1 w3 [].
Proof. intros H1 H2. exact (steps_trans _ _ _ _ _ H1 H2). Qed.

Lemma steps_then_nil (w1 w2 w3 : World FlagsT) (e : list Event) :
  steps w1 w2 e -> steps w2 w3 [] -> steps w1 w3 e.
Proof.
  intros H1 H2. rewrite <- (app_nil_r e). exact (steps_trans _ _ _ _ _ H1 H2).
Qed.

Lemma steps_cons (w1 w2 w3 : World FlagsT) (e : Event) (l : list Event) :
  steps w1 w2 [e] -> steps w2 w3 l -> steps w1 w3 (e :: l).
Proof. intros H1 H2. exact (steps_trans _ _ _ [e] l H1 H2). Qed.

Lemma steps_write_stdout (w : World FlagsT) (s : string) :
  steps w (write (stdout w) s w) [].
Proof.
  unfold steps, write.
  destruct (stdout w) eqn:Ho; simpl; rewrite ?app_nil_r;
    repeat split; auto; try congruence; try same_bytes; intros; congruence.
Qed.

Lemma steps_write_stderr (w : World FlagsT) (s : string) :
  steps w (write (stderr w) s w) [].
Proof.
  unfold steps, write.
  destruct (stderr w) eqn:Ho; simpl; rewrite ?app_nil_r;
    repeat split; auto; try congruence; try same_bytes; intros; congruence.
Qed.

Lemma steps_log (w : World FlagsT) (e : Event) :
  isSetPrintName e = false -> steps w (snd (log e w)) [e].
Proof.
  intros He. unfold steps, log; simpl.
  repeat split; auto; try same_bytes.
  destruct e; try reflexivity; discriminate.
Qed.

Lemma steps_setPrintName (w : World FlagsT) (b : bool) :
  steps w (snd (setPrintName b w)) [EvSetPrintName b].
Proof.
  unfold steps, setPrintName; simpl. repeat split; auto; same_bytes.
Qed.

Lemma steps_stderr (w w' : World FlagsT) evs :
  steps w w' evs -> stderr w' = stderr w.
Proof. now intros (_ & A & _). Qed.

Lemma steps_keeps_stderr (w w' : World FlagsT) evs :
  steps w w' evs -> exists e, osStderr w' = osStderr w ++ e.
Proof. now intros (_ & _ & _ & _ & _ & _ & _ & _ & _ & M). Qed.

Create HintDb steps.
#[local] Hint Resolve steps_refl steps_write_stdout steps_write_stderr
  steps_nil_trans : steps.

Lemma steps_flags (w w' : World FlagsT) evs :
  steps w w' evs -> Flags w' = Flags w.
Proof. now intros (F & _). Qed.

Lemma steps_nil_printName (w w' : World FlagsT) :
  steps w w' [] -> printName w' = printName w.
Proof. now intros (_ & _ & _ & _ & _ & P & _). Qed.

Lemma silent_ret {A} (a : A) : silent (ret a).
Proof. intros w. apply steps_refl. Qed.

Lemma silent_bind {A B} (m : M FlagsT A) (k : A -> M FlagsT B) :
  silent m -> (forall a, silent (k a)) -> silent (bind m k).
Proof.
  intros Hm Hk w. unfold bind.
  specialize (Hm w). destruct (m w) as [a w1]. simpl in Hm.
  eapply steps_nil_trans; [exact Hm | apply Hk].
Qed.

Lemma silent_getFlags : silent (getFlags (F := FlagsT)).
Proof. intros w. apply steps_refl. Qed.

Lemma silent_getPrintName : silent (getPrintName (F := FlagsT)).
Proof. intros w. apply steps_refl. Qed.

Lemma silent_Fprint_stdout s : silent (Fprint (F := FlagsT) stdout s).
Proof. intros w. apply steps_write_stdout. Qed.

Lemma silent_Fprint_stderr s : silent (Fprint (F := FlagsT) stderr s).
Proof. intros w. apply steps_write_stderr. Qed.

Lemma silent_Fprintln_stdout s : silent (Fprintln (F := FlagsT) stdout s).
Proof. apply silent_Fprint_stdout. Qed.

Lemma silent_Fprintln_stderr s : silent (Fprintln (F := FlagsT) stderr s).
Proof. apply silent_Fprint_stderr. Qed.

Lemma silent_when b (m : M FlagsT unit) : silent m -> silent (when b m).
Proof. intros H. destruct b; [exact H | apply silent_ret]. Qed.

Lemma silent_if {A} (b : bool) (m1 m2 : M FlagsT A) :
  silent m1 -> silent m2 -> silent (if b then m1 else m2).
Proof. now destruct b. Qed.

#[local] Hint Resolve silent_ret silent_getFlags silent_getPrintName
  silent_Fprint_stdout silent_Fprint_stderr silent_Fprintln_stdout
  silent_Fprintln_stderr silent_when silent_if : steps.

Ltac silence :=
  repeat first
    [ apply silent_bind; [|intros ?]
    | apply silent_when
    | apply silent_if
    | solve [auto with steps] ].

Section Effects.
Variable E : Env.

Lemma emitLine_silent name n line : silent (emitLine name n line).
Proof. unfold emitLine. silence. Qed.

Lemma emitLine_steps name n line (w : World FlagsT) :
  steps w (snd (emitLine name n line w)) [].
Proof. apply emitLine_silent. Qed.

(** The loop changes nothing but the two streams, and leaves as
    [outcome] says. *)
Lemma scanLoop_spec name pattern rest :
  forall lineNumber count (w : World FlagsT),
    steps w (snd (scanLoop E name pattern rest lineNumber count w)) []
    /\ fst (scanLoop E name pattern rest lineNumber count w)
       = outcome E (Flags w) pattern rest count.
Proof.
  induction rest as [|line rest IH]; intros lineNumber count w.
  - simpl. split; auto with steps.
  - simpl outcome.
    destruct (selected E pattern (Invert (Flags w)) line) eqn:Hsel.
    + rewrite scanLoop_selected by exact Hsel.
      destruct (FilesWithoutMatch (Flags w)); [split; auto with steps|].
      destruct (Quiet (Flags w)); [split; auto with steps|].
      destruct (FilesWithMatch (Flags w)).
      { split; [|reflexivity]. simpl.
        destruct (printName w); auto with steps. }
      destruct (CountOnly (Flags w)); [apply IH|].
      pose proof (emitLine_steps name (incr lineNumber) line w) as He.
      destruct (IH (incr lineNumber) (incr count)
                   (snd (emitLine name (incr lineNumber) line w)))
        as [Hs Ho].
      split; [eauto with steps|].
      rewrite Ho. now rewrite (steps_flags _ _ _ He).
    + rewrite scanLoop_unselected by exact Hsel. apply IH.
Qed.

End Effects.

Section Files.
Variable E : Env.

Lemma epilogue_silent name inp count : silent (epilogue name inp count).
Proof.
  unfold epilogue. silence.
  destruct (readErr inp); auto with steps.
Qed.

Lemma epilogue_result name inp count (w : World FlagsT) :
  fst (epilogue name inp count w) = (0 <? count).
Proof.
  unfold epilogue. run.
  repeat match goal with
         | |- context [match ?x with _ => _ end] => destruct x; simpl
         end; reflexivity.
Qed.

Lemma grepFile_unfold name inp pattern (w : World FlagsT) :
  grepFile E name inp pattern w =
    let w0 := snd (log (EvScan name (printName w)) w) in
    let (x, w1) := scanLoop E name pattern (lines inp) 0 0 w0 in
    match fst x with
    | Return b => (b, w1)
    | EndOfStream count => epilogue name inp count w1
    end.
Proof.
  unfold grepFile. run.
  destruct (scanLoop E name pattern (lines inp) 0 0 _) as [x w1].
  destruct (fst x); reflexivity.
Qed.

(** One scan: one event, and the value [matched] gives. *)
Lemma grepFile_spec name inp pattern (w : World FlagsT) :
  steps w (snd (grepFile E name inp pattern w)) [EvScan name (printName w)]
  /\ fst (grepFile E name inp pattern w) = matched E (Flags w) pattern inp.
Proof.
  rewrite grepFile_unfold. unfold matched.
  set (w0 := snd (log (EvScan name (printName w)) w)). cbv zeta.
  assert (H0 : steps w w0 [EvScan name (printName w)])
    by (apply steps_log; reflexivity).
  destruct (scanLoop_spec E name pattern (lines inp) 0 0 w0) as [Hs Ho].
  rewrite (steps_flags _ _ _ H0) in Ho.
  destruct (scanLoop E name pattern (lines inp) 0 0 w0) as [x w1].
  simpl in Hs, Ho. rewrite <- Ho.
  destruct (fst x) as [b|count].
  - simpl. split; [|reflexivity]. eapply steps_then_nil; eauto.
  - split; [|apply epilogue_result].
    eapply steps_then_nil; [exact H0|].
    eapply steps_nil_trans; [exact Hs | apply epilogue_silent].
Qed.

End Files.

(** ** The two loops of [Grep] *)
Section Loops.
Variable E : Env.
Variable pattern : Regexp E.

Lemma grepPaths_open_fails name e rest m (w : World FlagsT) :
  Open E name = Err e ->
  grepPaths E pattern (name :: rest) m w
  = grepPaths E pattern rest m
      (write (stderr w) (diagnostic name e) (snd (log (EvOpen name) w))).
Proof. intros H. simpl. run. rewrite H. reflexivity. Qed.

Lemma grepPaths_open_ok name f rest m (w : World FlagsT) :
  Open E name = Ok f ->
  grepPaths E pattern (name :: rest) m w
  = let (b, w1) := grepFile E name f pattern (snd (log (EvOpen name) w)) in
    grepPaths E pattern rest (if b then incr m else m) w1.
Proof. intros H. simpl. run. rewrite H. reflexivity. Qed.

Lemma grepPaths_spec paths : forall m (w : World FlagsT),
  steps w (snd (grepPaths E pattern paths m w))
        (pathEvents E (printName w) paths)
  /\ fst (grepPaths E pattern paths m w)
     = Nat.iter (length (filter (sourceMatched E (Flags w) pattern) paths))
                incr m.
Proof.
  induction paths as [|name rest IH]; intros m w.
  - simpl. split; [apply steps_refl | reflexivity].
  - set (w0 := snd (log (EvOpen name) w)).
    assert (H0 : steps w w0 [EvOpen name]) by (apply steps_log; reflexivity).
    assert (P0 : printName w0 = printName w) by reflexivity.
    assert (F0 : Flags w0 = Flags w) by reflexivity.
    unfold pathEvents, opens, sourceMatched. simpl flat_map. simpl filter.
    destruct (Open E name) as [f|e] eqn:Hopen.
    + rewrite (grepPaths_open_ok name f) by exact Hopen. fold w0.
      destruct (grepFile_spec E name f pattern w0) as [Hs Hr].
      destruct (grepFile E name f pattern w0) as [b w1]. simpl in Hs, Hr.
      destruct (IH (if b then incr m else m) w1) as [Hs' Hr'].
      assert (P1 : printName w1 = printName w).
      { destruct Hs as (_ & _ & _ & _ & _ & P & _). now rewrite P. }
      rewrite P1 in Hs'. rewrite (steps_flags _ _ _ Hs), ?F0 in Hr'.
      rewrite ?P0 in Hs. rewrite ?F0 in Hr.
      split.
      * eapply steps_cons; [exact H0|].
        eapply steps_cons; [exact Hs | exact Hs'].
      * rewrite Hr'. rewrite <- Hr.
        destruct b; simpl; [now rewrite iter_incr_shift | reflexivity].
    + rewrite (grepPaths_open_fails name e) by exact Hopen. fold w0.
      set (w1 := write (stderr w0) (diagnostic name e) w0).
      assert (H1 : steps w0 w1 []) by apply steps_write_stderr.
      destruct (IH m w1) as [Hs' Hr'].
      rewrite (steps_nil_printName _ _ H1), P0 in Hs'.
      rewrite (steps_flags _ _ _ H1), F0 in Hr'.
      split; [|exact Hr'].
      eapply steps_cons; [eapply steps_then_nil; eauto | exact Hs'].
Qed.

Lemma grepGlobs_glob_fails n glob e rest m (w : World FlagsT) :
  Glob E glob = Err e ->
  grepGlobs E pattern n (glob :: rest) m w
  = grepGlobs E pattern n rest m
      (write (stderr w) (diagnostic glob e) (snd (log (EvGlob glob) w))).
Proof. intros H. simpl. run. rewrite H. reflexivity. Qed.

Lemma grepGlobs_glob_ok n glob paths rest m (w : World FlagsT) :
  Glob E glob = Ok paths ->
  grepGlobs E pattern n (glob :: rest) m w
  = let w1 := snd (setPrintName
                     (namePolicy (NoFilename (Flags w)) n paths)
                     (snd (log (EvGlob glob) w))) in
    let (m1, w2) := grepPaths E pattern (expand E glob) m w1 in
    grepGlobs E pattern n rest m1 w2.
Proof.
  intros H. simpl. run. rewrite H. unfold expand. rewrite H. reflexivity.
Qed.

Lemma iter_incr_add (a b : nat) (z : Z) :
  Nat.iter b incr (Nat.iter a incr z) = Nat.iter (a + b) incr z.
Proof. rewrite Nat.add_comm. symmetry. apply Nat.iter_add. Qed.

Lemma grepGlobs_spec n globs : forall m (w : World FlagsT),
  steps w (snd (grepGlobs E pattern n globs m w))
        (flat_map (globEvents E (NoFilename (Flags w)) n) globs)
  /\ fst (grepGlobs E pattern n globs m w)
     = Nat.iter (length (filter (sourceMatched E (Flags w) pattern)
                                (sources E globs)))
                incr m.
Proof.
  induction globs as [|glob rest IH]; intros m w.
  - simpl. split; [apply steps_refl | reflexivity].
  - set (w0 := snd (log (EvGlob glob) w)).
    assert (H0 : steps w w0 [EvGlob glob]) by (apply steps_log; reflexivity).
    assert (F0 : Flags w0 = Flags w) by reflexivity.
    unfold sources. simpl flat_map. unfold globEvents at 1.
    rewrite filter_app, length_app, <- iter_incr_add.
    destruct (Glob E glob) as [paths|e] eqn:Hglob.
    + rewrite (grepGlobs_glob_ok n glob paths) by exact Hglob. fold w0.
      set (pn := namePolicy (NoFilename (Flags w)) n paths).
      set (w1 := snd (setPrintName pn w0)). cbv zeta.
      assert (H1 : steps w0 w1 [EvSetPrintName pn])
        by apply steps_setPrintName.
      assert (P1 : printName w1 = pn) by reflexivity.
      assert (F1 : Flags w1 = Flags w) by reflexivity.
      destruct (grepPaths_spec (expand E glob) m w1) as [Hs Hr].
      destruct (grepPaths E pattern (expand E glob) m w1) as [m1 w2].
      simpl fst in Hr. simpl snd in Hs. rewrite ?P1 in Hs. rewrite ?F1 in Hr.
      destruct (IH m1 w2) as [Hs' Hr'].
      rewrite (steps_flags _ _ _ Hs), F1 in Hs', Hr'.
      split.
      * eapply steps_cons; [exact H0|].
        eapply steps_cons; [exact H1|].
        eapply steps_trans; [exact Hs | exact Hs'].
      * rewrite Hr', Hr. reflexivity.
    + rewrite (grepGlobs_glob_fails n glob e) by exact Hglob. fold w0.
      set (w1 := write (stderr w0) (diagnostic glob e) w0).
      assert (H1 : steps w0 w1 []) by apply steps_write_stderr.
      destruct (IH m w1) as [Hs' Hr'].
      rewrite (steps_flags _ _ _ H1), F0 in Hs', Hr'.
      assert (Hx : expand E glob = []) by (unfold expand; now rewrite Hglob).
      rewrite Hx. simpl filter. simpl length. simpl Nat.iter at 2.
      change (write (stderr w) (diagnostic glob e) w0) with w1.
      split; [|exact Hr'].
      eapply steps_cons; [eapply steps_then_nil; eauto | exact Hs'].
Qed.

End Loops.

(** ** [Grep] as a whole *)
Section Whole.
Variable E : Env.

Lemma suppress_world (w : World FlagsT) :
  snd (suppress w)
  = mkWorld (Flags w) (printName w)
            (if Quiet (Flags w) || NoErrorMessages (Flags w)
             then Discard else stderr w)
            (if Quiet (Flags w) then Discard else stdout w)
            (stdin w) (osStdout w) (osStderr w) (trace w).
Proof.
  unfold suppress. run.
  destruct (Quiet (Flags w)); [reflexivity|].
  destruct (NoErrorMessages (Flags w)); [reflexivity|].
  destruct w; reflexivity.
Qed.

Lemma Grep_invalid pattern e globs (w : World FlagsT) :
  Compile E pattern = Err e ->
  Grep E pattern globs w = (false, write (stderr w) (e ++ nl) w).
Proof. intros H. unfold Grep. rewrite H. reflexivity. Qed.

Lemma Grep_stdin pattern re (w : World FlagsT) :
  Compile E pattern = Ok re ->
  Grep E pattern [] w = grepFile E "" (stdin w) re (snd (suppress w)).
Proof.
  intros H. unfold Grep. rewrite H. unfold bind at 1.
  destruct (suppress w) as [[] w0] eqn:Hs.
  assert (Hw : w0 = snd (suppress w)) by now rewrite Hs.
  simpl. unfold bind at 1. unfold getStdin.
  rewrite Hw at 1. rewrite suppress_world. reflexivity.
Qed.

Lemma Grep_globs pattern re globs (w : World FlagsT) :
  Compile E pattern = Ok re ->
  globs <> [] ->
  Grep E pattern globs w
  = let (m, w') := grepGlobs E re (length globs) globs 0 (snd (suppress w)) in
    (0 <? m, w').
Proof.
  intros H Hg. unfold Grep. rewrite H. unfold bind at 1.
  destruct (suppress w) as [[] w0]. simpl snd.
  destruct globs as [|g globs]; [contradiction|].
  reflexivity.
Qed.

(** With at least one glob: the events of the run, and the result. *)
Lemma Grep_spec pattern re globs (w : World FlagsT) :
  Compile E pattern = Ok re ->
  globs <> [] ->
  steps (snd (suppress w)) (snd (Grep E pattern globs w))
        (runEvents E (NoFilename (Flags w)) globs)
  /\ fst (Grep E pattern globs w)
     = (0 <? Nat.iter (length (filter (sourceMatched E (Flags w) re)
                                      (sources E globs)))
                      incr 0).
Proof.
  intros H Hg. rewrite (Grep_globs pattern re) by assumption.
  destruct (grepGlobs_spec E re (length globs) globs 0 (snd (suppress w)))
    as [Hs Hr].
  assert (F : Flags (snd (suppress w)) = Flags w)
    by (rewrite suppress_world; reflexivity).
  rewrite F in Hs, Hr.
  destruct (grepGlobs E re (length globs) globs 0 (snd (suppress w)))
    as [m w'].
  simpl in Hs, Hr. subst m. split; [exact Hs | reflexivity].
Qed.

(** With no glob: one scan of standard input. *)
Lemma Grep_stdin_spec pattern re (w : World FlagsT) :
  Compile E pattern = Ok re ->
  steps (snd (suppress w)) (snd (Grep E pattern [] w))
        [EvScan "" (printName w)]
  /\ fst (Grep E pattern [] w) = matched E (Flags w) re (stdin w).
Proof.
  intros H. rewrite (Grep_stdin pattern re) by assumption.
  destruct (grepFile_spec E "" (stdin w) re (snd (suppress w))) as [Hs Hr].
  rewrite suppress_world in Hs at 3. rewrite suppress_world in Hr at 2.
  simpl in Hs, Hr. split; assumption.
Qed.

End Whole.

(** ** The decision of the loop in the separate modes *)
Section Modes.
Variable E : Env.
Variable pattern : Regexp E.

Lemma outcome_without_match fl rest count :
  FilesWithoutMatch fl = true ->
  fst (outcome E fl pattern rest count) = Return false
  \/ fst (outcome E fl pattern rest count) = EndOfStream count.
Proof.
  intros H. induction rest as [|line rest IH]; simpl.
  - now right.
  - destruct (selected E pattern (Invert fl) line); [|exact IH].
    rewrite H. now left.
Qed.

Lemma matched_without_match fl inp :
  FilesWithoutMatch fl = true -> matched E fl pattern inp = false.
Proof.
  intros H. unfold matched.
  destruct (outcome_without_match fl (lines inp) 0 H) as [-> | ->];
    reflexivity.
Qed.

Lemma matched_quiet fl inp :
  FilesWithoutMatch fl = false ->
  Quiet fl = true ->
  matched E fl pattern inp
  = existsb (selected E pattern (Invert fl)) (lines inp).
Proof.
  intros HL Hq. unfold matched.
  assert (G : forall rest count,
             match fst (outcome E fl pattern rest count) with
             | Return b => b
             | EndOfStream k => 0 <? k
             end
             = existsb (selected E pattern (Invert fl)) rest || (0 <? count)).
  { induction rest as [|line rest IH]; intros count; simpl.
    - reflexivity.
    - destruct (selected E pattern (Invert fl) line); simpl.
      + now rewrite HL, Hq.
      + apply IH. }
  rewrite G. apply orb_false_r.
Qed.

(** Under [-c] alone the loop reads every line, prints nothing and
    counts the selected lines. *)
Lemma scanLoop_count name rest :
  forall lineNumber count (w : World FlagsT),
    CountOnly (Flags w) = true ->
    FilesWithMatch (Flags w) = false ->
    FilesWithoutMatch (Flags w) = false ->
    Quiet (Flags w) = false ->
    scanLoop E name pattern rest lineNumber count w
    = (EndOfStream
         (Nat.iter (length (filter (selected E pattern (Invert (Flags w)))
                                   rest))
                   incr count),
       [], w).
Proof.
  induction rest as [|line rest IH]; intros lineNumber count w Hc Hl HL Hq.
  - reflexivity.
  - simpl filter.
    destruct (selected E pattern (Invert (Flags w)) line) eqn:Hsel.
    + rewrite scanLoop_selected by exact Hsel.
      rewrite HL, Hq, Hl, Hc. rewrite IH by assumption.
      simpl length. simpl Nat.iter. now rewrite iter_incr_shift.
    + rewrite scanLoop_unselected by exact Hsel. now apply IH.
Qed.

End Modes.

(** ** The events of a run *)
Section Events.
Variable E : Env.

Lemma pathEvents_opens pn paths :
  filter isOpen (pathEvents E pn paths) = map EvOpen paths.
Proof.
  induction paths as [|name rest IH]; [reflexivity|].
  unfold pathEvents in *. simpl flat_map.
  destruct (opens E name); simpl; now rewrite IH.
Qed.

Lemma pathEvents_scans pn paths :
  filter isScan (pathEvents E pn paths)
  = map (fun name => EvScan name pn) (filter (opens E) paths).
Proof.
  induction paths as [|name rest IH]; [reflexivity|].
  unfold pathEvents in *. simpl flat_map.
  destruct (opens E name) eqn:Ho; simpl; rewrite Ho, IH; reflexivity.
Qed.

Lemma pathEvents_globs pn paths : filter isGlob (pathEvents E pn paths) = [].
Proof.
  induction paths as [|name rest IH]; [reflexivity|].
  unfold pathEvents in *. simpl flat_map.
  destruct (opens E name); simpl; now rewrite IH.
Qed.

Lemma pathEvents_sets pn paths :
  filter isSetPrintName (pathEvents E pn paths) = [].
Proof.
  induction paths as [|name rest IH]; [reflexivity|].
  unfold pathEvents in *. simpl flat_map.
  destruct (opens E name); simpl; now rewrite IH.
Qed.

Lemma expand_glob_fails glob e : Glob E glob = Err e -> expand E glob = [].
Proof. intros H. unfold expand. now rewrite H. Qed.

Lemma expand_no_match glob : Glob E glob = Ok [] -> expand E glob = [glob].
Proof. intros H. unfold expand. now rewrite H. Qed.

(** The fallback does not change the test [len(paths) > 1]. *)
Lemma expand_length glob paths :
  Glob E glob = Ok paths ->
  (1 <? length (expand E glob))%nat = (1 <? length paths)%nat.
Proof.
  intros H. unfold expand. rewrite H. now destruct paths.
Qed.

(** Every assignment to [printName] in a run gives it one value. *)
Lemma namePolicy_uniform nf globs glob paths :
  In glob globs ->
  Glob E glob = Ok paths ->
  namePolicy nf (length globs) paths = runPrintName E nf globs.
Proof.
  intros Hin Hg. unfold namePolicy, runPrintName. f_equal.
  destruct globs as [|g1 [|g2 globs]].
  - contradiction.
  - destruct Hin as [->|[]]. unfold sources. simpl flat_map.
    rewrite app_nil_r, (expand_length glob paths) by exact Hg. reflexivity.
  - reflexivity.
Qed.

Section Run.
Variables (nf : bool) (n : nat) (v : bool).

Lemma agrees_tail g l : agrees E nf n v (g :: l) -> agrees E nf n v l.
Proof. intros H glob paths Hin. apply H. now right. Qed.

Lemma run_globs l :
  filter isGlob (flat_map (globEvents E nf n) l) = map EvGlob l.
Proof.
  induction l as [|g l IH]; [reflexivity|].
  cbn [flat_map]. rewrite filter_app, IH. unfold globEvents.
  destruct (Glob E g); simpl; [|reflexivity].
  now rewrite pathEvents_globs.
Qed.

Lemma run_opens l :
  filter isOpen (flat_map (globEvents E nf n) l)
  = map EvOpen (flat_map (expand E) l).
Proof.
  induction l as [|g l IH]; [reflexivity|].
  cbn [flat_map]. rewrite filter_app, map_app, IH. f_equal.
  unfold globEvents.
  destruct (Glob E g) as [paths|e] eqn:Hg; simpl.
  - apply pathEvents_opens.
  - now rewrite (expand_glob_fails g e).
Qed.

Lemma run_scans l :
  agrees E nf n v l ->
  filter isScan (flat_map (globEvents E nf n) l)
  = map (fun name => EvScan name v)
        (filter (opens E) (flat_map (expand E) l)).
Proof.
  induction l as [|g l IH]; intros Ha; [reflexivity|].
  cbn [flat_map].
  rewrite filter_app, filter_app, map_app, IH by exact (agrees_tail _ _ Ha).
  f_equal. unfold globEvents.
  destruct (Glob E g) as [paths|e] eqn:Hg; simpl.
  - rewrite (Ha g paths) by (auto; now left). apply pathEvents_scans.
  - now rewrite (expand_glob_fails g e).
Qed.

Lemma run_sets l :
  agrees E nf n v l ->
  filter isSetPrintName (flat_map (globEvents E nf n) l)
  = map (fun _ => EvSetPrintName v) (filter (globOk E) l).
Proof.
  induction l as [|g l IH]; intros Ha; [reflexivity|].
  cbn [flat_map]. rewrite filter_app, IH by exact (agrees_tail _ _ Ha).
  unfold globEvents, globOk at 2. simpl filter at 3.
  destruct (Glob E g) as [paths|e] eqn:Hg; simpl.
  - rewrite (Ha g paths) by (auto; now left).
    now rewrite pathEvents_sets.
  - reflexivity.
Qed.

End Run.

Lemma agrees_run nf globs :
  agrees E nf (length globs) (runPrintName E nf globs) globs.
Proof. intros glob paths Hin Hg. exact (namePolicy_uniform nf globs glob paths Hin Hg). Qed.

End Events.

(** ** A diagnostic, once written, is part of what os.Stderr received *)
Section Reports.
Variable E : Env.
Variable pattern : Regexp E.
Variables (name e : string).
Hypothesis Hopen : Open E name = Err e.

Lemma grepPaths_reports paths : forall m (w : World FlagsT),
  In name paths ->
  stderr w = OsStderr ->
  exists pre post,
    osStderr (snd (grepPaths E pattern paths m w))
    = pre ++ diagnostic name e ++ post.
Proof.
  induction paths as [|h rest IH]; intros m w Hin Herr; [contradiction|].
  set (w0 := snd (log (EvOpen h) w)).
  assert (E0 : stderr w0 = OsStderr) by exact Herr.
  destruct (Open E h) as [f|e'] eqn:Hh.
  - rewrite (grepPaths_open_ok E pattern h f) by exact Hh. fold w0.
    destruct (grepFile_spec E h f pattern w0) as [Hs _].
    destruct (grepFile E h f pattern w0) as [b w1]. simpl in Hs.
    destruct Hin as [-> | Hin]; [congruence|].
    apply IH; [exact Hin|].
    now rewrite (steps_stderr _ _ _ Hs).
  - rewrite (grepPaths_open_fails E pattern h e') by exact Hh. fold w0.
    set (w1 := write (stderr w) (diagnostic h e') w0).
    assert (E1 : stderr w1 = OsStderr)
      by (subst w1; rewrite Herr; exact Herr).
    destruct Hin as [-> | Hin]; [|now apply IH].
    assert (e' = e) by congruence. subst e'.
    destruct (grepPaths_spec E pattern rest m w1) as [Hs _].
    destruct (steps_keeps_stderr _ _ _ Hs) as [post Hpost].
    exists (osStderr w), post. rewrite Hpost. subst w1. rewrite Herr.
    simpl. apply string_app_assoc.
Qed.

Lemma grepGlobs_reports n globs : forall m (w : World FlagsT),
  In name (sources E globs) ->
  stderr w = OsStderr ->
  exists pre post,
    osStderr (snd (grepGlobs E pattern n globs m w))
    = pre ++ diagnostic name e ++ post.
Proof.
  induction globs as [|g rest IH]; intros m w Hin Herr; [contradiction|].
  unfold sources in Hin. cbn [flat_map] in Hin.
  set (w0 := snd (log (EvGlob g) w)).
  destruct (Glob E g) as [paths|e'] eqn:Hg.
  - rewrite (grepGlobs_glob_ok E pattern n g paths) by exact Hg. fold w0.
    set (w1 := snd (setPrintName _ w0)). cbv zeta.
    assert (E1 : stderr w1 = OsStderr) by exact Herr.
    destruct (grepPaths_spec E pattern (expand E g) m w1) as [Hs _].
    pose proof (fun H => grepPaths_reports (expand E g) m w1 H E1) as Hrep.
    destruct (grepPaths E pattern (expand E g) m w1) as [m1 w2].
    simpl snd in Hs, Hrep.
    apply in_app_or in Hin. destruct Hin as [Hin | Hin].
    + destruct (Hrep Hin) as (pre & post & Hpp).
      destruct (grepGlobs_spec E pattern n rest m1 w2) as [Hs' _].
      destruct (steps_keeps_stderr _ _ _ Hs') as [post' Hpost].
      exists pre, (post ++ post'). rewrite Hpost, Hpp.
      now rewrite !string_app_assoc.
    + apply IH; [exact Hin|]. now rewrite (steps_stderr _ _ _ Hs).
  - rewrite (grepGlobs_glob_fails E pattern n g e') by exact Hg. fold w0.
    rewrite (expand_glob_fails E g e') in Hin by exact Hg.
    apply IH; [exact Hin|]. rewrite Herr. exact Herr.
Qed.

(** Not suppressed, the diagnostic reaches os.Stderr. *)
Lemma Grep_reports pat globs (w : World FlagsT) :
  Compile E pat = Ok pattern ->
  In name (sources E globs) ->
  Quiet (Flags w) = false ->
  NoErrorMessages (Flags w) = false ->
  stderr w = OsStderr ->
  exists pre post,
    osStderr (snd (Grep E pat globs w)) = pre ++ diagnostic name e ++ post.
Proof.
  intros Hc Hin Hq Hs Herr.
  rewrite (Grep_globs E pat pattern)
    by (try assumption; intros ->; exact Hin).
  assert (E0 : stderr (snd (suppress w)) = OsStderr)
    by (rewrite suppress_world; simpl; now rewrite Hq, Hs).
  destruct (grepGlobs_reports (length globs) globs 0 (snd (suppress w))
                              Hin E0) as (pre & post & Hpp).
  destruct (grepGlobs E pattern (length globs) globs 0 (snd (suppress w)))
    as [m w'].
  exists pre, post. exact Hpp.
Qed.

End Reports.

(** Suppressed, os.Stderr receives nothing from the loops. *)
Lemma Grep_suppressed (E : Env) (pat : string) (re : Regexp E)
      (globs : list string) (w : World FlagsT) :
  Compile E pat = Ok re ->
  globs <> [] ->
  Quiet (Flags w) || NoErrorMessages (Flags w) = true ->
  stdout w <> OsStderr ->
  osStderr (snd (Grep E pat globs w)) = osStderr w.
Proof.
  intros Hc Hg Hs Ho.
  destruct (Grep_spec E pat re globs w Hc Hg)
    as [(_ & _ & _ & _ & _ & _ & _ & R & _) _].
  rewrite R; rewrite suppress_world; simpl.
  - reflexivity.
  - destruct (Quiet (Flags w)); [discriminate | exact Ho].
  - rewrite Hs. discriminate.
Qed.

(** * The claims *)

(** C1: a selected line, reached after lines that are not selected, is
    dispatched in the order FilesWithoutMatch, Quiet, FilesWithMatch,
    CountOnly: the first returns false, the second returns true, the
    third prints the name when [printName] holds and returns true, the
    fourth increments the counter and goes on with the next line, the
    world untouched.  The three returns are the value of [grepFile]. *)
Theorem scan_dispatch_precedence (E : Env) (name : string)
        (pattern : Regexp E) (pre : list string) (line : string)
        (rest : list string) (w : World FlagsT) :
  Forall (fun l => selected E pattern (Invert (Flags w)) l = false) pre ->
  selected E pattern (Invert (Flags w)) line = true ->
  (forall lineNumber count,
      scanLoop E name pattern (pre ++ line :: rest)%list lineNumber count w =
        let n := Nat.iter (S (length pre)) incr lineNumber in
        if FilesWithoutMatch (Flags w) then (Return false, rest, w)
        else if Quiet (Flags w) then (Return true, rest, w)
        else if FilesWithMatch (Flags w) then
          (Return true, rest,
           if printName w then write (stdout w) (name ++ nl) w else w)
        else if CountOnly (Flags w) then
          scanLoop E name pattern rest n (incr count) w
        else
          scanLoop E name pattern rest n (incr count)
                   (snd (emitLine name n line w)))
  /\ (forall err,
         FilesWithoutMatch (Flags w) || Quiet (Flags w)
         || FilesWithMatch (Flags w) = true ->
         grepFile E name (mkStream (pre ++ line :: rest) err) pattern w =
           let w0 := snd (log (EvScan name (printName w)) w) in
           (negb (FilesWithoutMatch (Flags w)),
            if FilesWithoutMatch (Flags w) || Quiet (Flags w) then w0
            else if printName w then write (stdout w) (name ++ nl) w0
                 else w0)).
Proof.
  intros Hpre Hline. split.
  - intros lineNumber count.
    rewrite scanLoop_skip by exact Hpre.
    rewrite scanLoop_selected by exact Hline.
    reflexivity.
  - intros err Hmode. rewrite grepFile_unfold. cbv zeta. simpl lines.
    rewrite scanLoop_skip by exact Hpre.
    rewrite scanLoop_selected by exact Hline.
    simpl Flags. simpl printName. simpl stdout.
    destruct (FilesWithoutMatch (Flags w)); [reflexivity|].
    destruct (Quiet (Flags w)); [reflexivity|].
    destruct (FilesWithMatch (Flags w)); [|discriminate].
    destruct (printName w); reflexivity.
Qed.

(** C10: with FilesWithoutMatch set, the scan loop either returns false
    at a selected line or ends with the counter it started with; so
    [grepFile] never returns true, and [Grep] returns false whatever the
    pattern and the globs are. *)
Theorem files_without_match_never_matched (E : Env) (w : World FlagsT) :
  FilesWithoutMatch (Flags w) = true ->
  (forall name pattern rest lineNumber count,
      fst (fst (scanLoop E name pattern rest lineNumber count w))
      = Return false
      \/ fst (fst (scanLoop E name pattern rest lineNumber count w))
         = EndOfStream count)
  /\ (forall name pattern pre line rest lineNumber count,
         Forall (fun l => selected E pattern (Invert (Flags w)) l = false)
                pre ->
         selected E pattern (Invert (Flags w)) line = true ->
         scanLoop E name pattern (pre ++ line :: rest)%list lineNumber count w
         = (Return false, rest, w))
  /\ (forall name inp pattern, fst (grepFile E name inp pattern w) = false)
  /\ (forall pattern globs, fst (Grep E pattern globs w) = false).
Proof.
  intros H. repeat split.
  - intros name pattern rest lineNumber count.
    destruct (scanLoop_spec E name pattern rest lineNumber count w)
      as [_ ->].
    now apply outcome_without_match.
  - intros name pattern pre line rest lineNumber count Hpre Hline.
    rewrite scanLoop_skip by exact Hpre.
    rewrite scanLoop_selected by exact Hline. now rewrite H.
  - intros name inp pattern.
    destruct (grepFile_spec E name inp pattern w) as [_ ->].
    now apply matched_without_match.
  - intros pattern globs.
    destruct (Compile E pattern) as [re|e] eqn:Hc.
    + destruct globs as [|g globs].
      * destruct (Grep_stdin_spec E pattern re w Hc) as [_ ->].
        now apply matched_without_match.
      * destruct (Grep_spec E pattern re (g :: globs) w Hc) as [_ ->];
          [discriminate|].
        assert (Hnone : filter (sourceMatched E (Flags w) re)
                               (sources E (g :: globs)) = []).
        { induction (sources E (g :: globs)) as [|n l IH]; [reflexivity|].
          simpl. unfold sourceMatched at 1.
          destruct (Open E n); [|exact IH].
          now rewrite matched_without_match. }
        rewrite Hnone. reflexivity.
    + rewrite (Grep_invalid E pattern e) by exact Hc. reflexivity.
Qed.

(** C5: when the pattern does not compile, the error is written to the
    writer [stderr] is bound to when [Grep] is entered, whatever the
    flags are; nothing else changes (no glob is expanded, no file opened,
    no stream scanned) and the result is false.  At the start of the
    process that writer is os.Stderr. *)
Theorem invalid_pattern_reported (E : Env) (pattern e : string)
        (globs : list string) :
  Compile E pattern = Err e ->
  (forall w, Grep E pattern globs w = (false, write (stderr w) (e ++ nl) w))
  /\ (forall w, trace (snd (Grep E pattern globs w)) = trace w)
  /\ (forall fl sin,
         Grep E pattern globs (initWorld fl sin)
         = (false, mkWorld fl false OsStderr OsStdout sin "" (e ++ nl) [])).
Proof.
  intros H. split; [|split].
  - intros w. now apply Grep_invalid.
  - intros w. rewrite (Grep_invalid E pattern e) by exact H.
    simpl. now destruct (stderr w).
  - intros fl sin. rewrite (Grep_invalid E pattern e) by exact H. reflexivity.
Qed.

(** C6: under CountOnly, without FilesWithMatch, FilesWithoutMatch and
    Quiet, the loop reads the whole stream and leaves the world as it
    was (no line is printed), the counter being the number of selected
    lines; after the loop the count is printed, behind the name and a
    colon when [printName] holds, only if it is not zero. *)
Theorem count_only_prints_count (E : Env) (name : string) (inp : Stream)
        (pattern : Regexp E) (w : World FlagsT) :
  CountOnly (Flags w) = true ->
  FilesWithMatch (Flags w) = false ->
  FilesWithoutMatch (Flags w) = false ->
  Quiet (Flags w) = false ->
  Z.of_nat (length (lines inp)) < 2 ^ 63 ->
  let n := Z.of_nat (length (selectedLines E (Flags w) pattern inp)) in
  (forall lineNumber,
      scanLoop E name pattern (lines inp) lineNumber 0 w
      = (EndOfStream n, [], w))
  /\ grepFile E name inp pattern w
     = (0 <? n,
        writes (stdout w)
               (if 0 <? n
                then (if printName w then [name; ":"] else [])
                       ++ [(itoa n ++ nl)%string]
                else [])%list
               (writes (stderr w)
                       (match readErr inp with
                        | Some e => [e ++ nl]
                        | None => []
                        end)
                       (snd (log (EvScan name (printName w)) w)))).
Proof.
  intros Hc Hl HL Hq Hlen n.
  assert (Hn : Nat.iter (length (selectedLines E (Flags w) pattern inp))
                        incr 0 = n).
  { apply iter_incr_small.
    pose proof (filter_length_le (selected E pattern (Invert (Flags w)))
                                 (lines inp)).
    unfold selectedLines. lia. }
  split.
  - intros lineNumber. rewrite scanLoop_count by assumption.
    unfold selectedLines in Hn. now rewrite Hn.
  - rewrite grepFile_unfold. cbv zeta.
    rewrite scanLoop_count by assumption.
    unfold selectedLines in Hn. simpl Flags. rewrite Hn. simpl fst.
    clear Hn Hlen. clearbody n.
    unfold epilogue, writes. run.
    destruct w as [fl pn se so si oo oe tr]. simpl in *.
    destruct (readErr inp), se, so, pn, (0 <? n); simpl;
      rewrite HL, Hc; reflexivity.
Qed.

Lemma Grep_trace (E : Env) (pattern : string) (re : Regexp E)
      (globs : list string) (w : World FlagsT) :
  Compile E pattern = Ok re ->
  globs <> [] ->
  trace (snd (Grep E pattern globs w))
  = (trace w ++ runEvents E (NoFilename (Flags w)) globs)%list.
Proof.
  intros Hc Hg.
  destruct (Grep_spec E pattern re globs w Hc Hg)
    as [(_ & _ & _ & _ & T & _) _].
  rewrite T, suppress_world. reflexivity.
Qed.

Lemma sources_nonempty (E : Env) (globs : list string) (name : string) :
  In name (sources E globs) -> globs <> [].
Proof. intros H ->. exact H. Qed.

(** C8: a glob that matches nothing is itself the one path of the inner
    loop: the program opens it, and when that fails it writes the
    diagnostic and goes on with the remaining globs.  In the run as a
    whole every glob is expanded and the unmatched glob is opened; when
    the open fails and errors are not suppressed, the diagnostic is part
    of what os.Stderr has received when [Grep] returns. *)
Theorem unmatched_glob_is_opened (E : Env) (pattern : string)
        (re : Regexp E) (globs : list string) (glob : string)
        (w : World FlagsT) :
  Compile E pattern = Ok re ->
  In glob globs ->
  Glob E glob = Ok [] ->
  expand E glob = [glob]
  /\ (forall n rest matchFiles w1,
         grepGlobs E re n (glob :: rest) matchFiles w1
         = let w2 := snd (setPrintName
                            (namePolicy (NoFilename (Flags w1)) n [])
                            (snd (log (EvGlob glob) w1))) in
           let (m, w3) := grepPaths E re [glob] matchFiles w2 in
           grepGlobs E re n rest m w3)
  /\ (forall e n rest matchFiles w1,
         Open E glob = Err e ->
         grepGlobs E re n (glob :: rest) matchFiles w1
         = grepGlobs E re n rest matchFiles
             (write (stderr w1) (diagnostic glob e)
                (snd (log (EvOpen glob)
                   (snd (setPrintName
                           (namePolicy (NoFilename (Flags w1)) n [])
                           (snd (log (EvGlob glob) w1))))))))
  /\ (forall e,
         Open E glob = Err e ->
         Quiet (Flags w) = false ->
         NoErrorMessages (Flags w) = false ->
         stderr w = OsStderr ->
         exists pre post,
           osStderr (snd (Grep E pattern globs w))
           = pre ++ diagnostic glob e ++ post)
  /\ exists evs,
      trace (snd (Grep E pattern globs w)) = (trace w ++ evs)%list
      /\ filter isGlob evs = map EvGlob globs
      /\ In (EvOpen glob) evs.
Proof.
  intros Hc Hin Hglob.
  pose proof (expand_no_match E glob Hglob) as Hx.
  assert (Hsrc : In glob (sources E globs)).
  { apply in_flat_map. exists glob. split; [exact Hin|].
    rewrite Hx. now left. }
  split; [exact Hx|split; [|split; [|split]]].
  - intros n rest matchFiles w1.
    rewrite (grepGlobs_glob_ok E re n glob []) by exact Hglob.
    now rewrite Hx.
  - intros e n rest matchFiles w1 Hopen.
    rewrite (grepGlobs_glob_ok E re n glob []) by exact Hglob.
    rewrite Hx. cbv zeta.
    rewrite (grepPaths_open_fails E re glob e) by exact Hopen.
    reflexivity.
  - intros e Hopen Hq Hs Herr. now apply (Grep_reports E re glob e Hopen).
  - exists (runEvents E (NoFilename (Flags w)) globs).
    assert (Hg : globs <> []) by (intros ->; exact Hin).
    split; [now apply (Grep_trace E pattern re)|].
    unfold runEvents. split; [apply run_globs|].
    assert (Ho : In (EvOpen glob)
                    (filter isOpen
                       (flat_map (globEvents E (NoFilename (Flags w))
                                             (length globs)) globs))).
    { rewrite run_opens. apply in_map, in_flat_map.
      exists glob. split; [exact Hin|]. rewrite Hx. now left. }
    apply filter_In in Ho. exact (proj1 Ho).
Qed.

Lemma any_source_matched (E : Env) (pattern : string) (re : Regexp E)
      (globs : list string) (name : string) (w : World FlagsT) :
  Compile E pattern = Ok re ->
  In name (sources E globs) ->
  sourceMatched E (Flags w) re name = true ->
  Z.of_nat (length (sources E globs)) < 2 ^ 63 ->
  fst (Grep E pattern globs w) = true.
Proof.
  intros Hc Hin Hm Hlen.
  destruct (Grep_spec E pattern re globs w Hc
                      (sources_nonempty E globs name Hin)) as [_ ->].
  set (l := filter (sourceMatched E (Flags w) re) (sources E globs)).
  assert (Hl : In name l) by (apply filter_In; auto).
  pose proof (filter_length_le (sourceMatched E (Flags w) re)
                               (sources E globs)) as Hle.
  fold l in Hle.
  rewrite iter_incr_small by lia.
  destruct l; [contradiction|]. simpl length. apply Z.ltb_lt. lia.
Qed.

(** C4, as the program has it: with Quiet set and FilesWithoutMatch not
    set, whatever CountOnly is, the scan of a source returns true at its
    first selected line, the lines after it being left unread and nothing
    being written; a run that has such a source among its paths, or as
    its standard input, returns true and os.Stdout receives nothing. *)
Theorem quiet_returns_at_first_selected (E : Env) (re : Regexp E)
        (inp : Stream) (pre : list string) (line : string)
        (rest : list string) (w : World FlagsT) :
  Quiet (Flags w) = true ->
  FilesWithoutMatch (Flags w) = false ->
  lines inp = (pre ++ line :: rest)%list ->
  Forall (fun l => selected E re (Invert (Flags w)) l = false) pre ->
  selected E re (Invert (Flags w)) line = true ->
  (forall name w1 lineNumber count,
      Flags w1 = Flags w ->
      scanLoop E name re (lines inp) lineNumber count w1
      = (Return true, rest, w1))
  /\ (forall name w1,
         Flags w1 = Flags w ->
         grepFile E name inp re w1
         = (true, snd (log (EvScan name (printName w1)) w1)))
  /\ (forall pattern globs name,
         Compile E pattern = Ok re ->
         In name (sources E globs) ->
         Open E name = Ok inp ->
         Z.of_nat (length (sources E globs)) < 2 ^ 63 ->
         fst (Grep E pattern globs w) = true
         /\ osStdout (snd (Grep E pattern globs w)) = osStdout w)
  /\ (forall pattern,
         Compile E pattern = Ok re ->
         stdin w = inp ->
         fst (Grep E pattern [] w) = true
         /\ osStdout (snd (Grep E pattern [] w)) = osStdout w).
Proof.
  intros Hq HL Hlines Hpre Hline.
  assert (Hloop : forall name w1 lineNumber count,
             Flags w1 = Flags w ->
             scanLoop E name re (lines inp) lineNumber count w1
             = (Return true, rest, w1)).
  { intros name w1 lineNumber count HF. rewrite Hlines.
    rewrite scanLoop_skip by (rewrite HF; exact Hpre).
    rewrite scanLoop_selected by (rewrite HF; exact Hline).
    now rewrite HF, HL, Hq. }
  assert (Hm : matched E (Flags w) re inp = true).
  { rewrite matched_quiet by assumption.
    apply existsb_exists. exists line. split; [|exact Hline].
    rewrite Hlines. apply in_or_app. right. now left. }
  assert (Hout : forall (w' : World FlagsT) evs,
             steps (snd (suppress w)) w' evs -> osStdout w' = osStdout w).
  { intros w' evs (_ & _ & _ & _ & _ & _ & O & _).
    rewrite O; rewrite suppress_world; simpl; rewrite ?Hq;
      [reflexivity | discriminate | discriminate]. }
  split; [exact Hloop|split; [|split]].
  - intros name w1 HF. rewrite grepFile_unfold. cbv zeta.
    rewrite Hloop by exact HF. reflexivity.
  - intros pattern globs name Hc Hin Hopen Hlen. split.
    + apply (any_source_matched E pattern re globs name); try assumption.
      unfold sourceMatched. now rewrite Hopen.
    + destruct (Grep_spec E pattern re globs w Hc
                          (sources_nonempty E globs name Hin)) as [Hs _].
      exact (Hout _ _ Hs).
  - intros pattern Hc Hin.
    destruct (Grep_stdin_spec E pattern re w Hc) as [Hs Hr].
    split; [now rewrite Hr, Hin | exact (Hout _ _ Hs)].
Qed.

(** ** The revision of [src/grep.go] on the same points *)

(** There [printName] is assigned once, on entry, from the number of
    globs alone: one glob that expands to two paths prints no names. *)
Example GrepErr_one_glob_two_paths :
  GrepErr.Grep Demo.env "hello" ["*.txt"] Demo.startErr
  = (None,
     mkWorld Demo.noFlagsErr false OsStderr OsStdout (mkStream [] None)
             ("hello world" ++ nl ++ "hello again" ++ nl) ""
             [EvSetPrintName false; EvGlob "*.txt";
              EvOpen "a.txt"; EvScan "a.txt" false;
              EvOpen "b.txt"; EvScan "b.txt" false]).
Proof. vm_compute. reflexivity. Qed.

(** There a path that cannot be opened ends the run: the error is
    returned and the remaining paths are not visited. *)
Lemma GrepErr_open_failure_returns (E : Env) (re : Regexp E)
      (name e : string) (rest : list string) (m : Z)
      (w : World GrepErr.FlagsT) :
  Open E name = Err e ->
  GrepErr.grepPaths E re (name :: rest) m w
  = (inl (GrepErr.ErrOther e), snd (log (EvOpen name) w)).
Proof. intros H. simpl. run. rewrite H. reflexivity. Qed.

(** ** The scenarios of the specification, run on the small environment *)

(** Scenario A: one source, default mode. *)
Example scenario_single_source :
  Grep Demo.env "hello" ["a.txt"] (Demo.start Demo.noFlags)
  = (true,
     mkWorld Demo.noFlags false OsStderr OsStdout (mkStream [] None)
             ("hello world" ++ nl) ""
             [EvGlob "a.txt"; EvSetPrintName false;
              EvOpen "a.txt"; EvScan "a.txt" false]).
Proof. vm_compute. reflexivity. Qed.

(** Scenario B: two sources, every line behind the name of its source. *)
Example scenario_two_sources :
  Grep Demo.env "hello" ["a.txt"; "b.txt"] (Demo.start Demo.noFlags)
  = (true,
     mkWorld Demo.noFlags true OsStderr OsStdout (mkStream [] None)
             ("a.txt:hello world" ++ nl ++ "b.txt:hello again" ++ nl) ""
             [EvGlob "a.txt"; EvSetPrintName true;
              EvOpen "a.txt"; EvScan "a.txt" true;
              EvGlob "b.txt"; EvSetPrintName true;
              EvOpen "b.txt"; EvScan "b.txt" true]).
Proof. vm_compute. reflexivity. Qed.

(** Scenario C: [-c -v] counts the lines that do not match. *)
Example scenario_count_inverted :
  Grep Demo.env "open" ["b.txt"] (Demo.start Demo.flagsCV)
  = (true,
     mkWorld Demo.flagsCV false OsStderr OsStdout (mkStream [] None)
             ("2" ++ nl) ""
             [EvGlob "b.txt"; EvSetPrintName false;
              EvOpen "b.txt"; EvScan "b.txt" false]).
Proof. vm_compute. reflexivity. Qed.

(** Scenario D: [-L] prints the names of the sources without a selected
    line, and the run reports no match. *)
Example scenario_files_without_match :
  Grep Demo.env "zzz" ["a.txt"; "b.txt"] (Demo.start Demo.flagsL)
  = (false,
     mkWorld Demo.flagsL true OsStderr OsStdout (mkStream [] None)
             ("a.txt" ++ nl ++ "b.txt" ++ nl) ""
             [EvGlob "a.txt"; EvSetPrintName true;
              EvOpen "a.txt"; EvScan "a.txt" true;
              EvGlob "b.txt"; EvSetPrintName true;
              EvOpen "b.txt"; EvScan "b.txt" true]).
Proof. vm_compute. reflexivity. Qed.

(** Scenario F: [-c -q] reports the match and prints nothing. *)
Example scenario_count_quiet :
  Grep Demo.env "hello" ["a.txt"; "b.txt"] (Demo.start Demo.flagsCQ)
  = (true,
     mkWorld Demo.flagsCQ true Discard Discard (mkStream [] None) "" ""
             [EvGlob "a.txt"; EvSetPrintName true;
              EvOpen "a.txt"; EvScan "a.txt" true;
              EvGlob "b.txt"; EvSetPrintName true;
              EvOpen "b.txt"; EvScan "b.txt" true]).
Proof. vm_compute. reflexivity. Qed.

(** An unmatched glob between two files, without [-s]. *)
Example scenario_unmatched_glob :
  Grep Demo.env "hello" ["a.txt"; "*.bin"; "b.txt"] (Demo.start Demo.noFlags)
  = (true,
     mkWorld Demo.noFlags true OsStderr OsStdout (mkStream [] None)
             ("a.txt:hello world" ++ nl ++ "b.txt:hello again" ++ nl)
             (diagnostic "*.bin" "open *.bin: no such file or directory")
             [EvGlob "a.txt"; EvSetPrintName true;
              EvOpen "a.txt"; EvScan "a.txt" true;
              EvGlob "*.bin"; EvSetPrintName true; EvOpen "*.bin";
              EvGlob "b.txt"; EvSetPrintName true;
              EvOpen "b.txt"; EvScan "b.txt" true]).
Proof. vm_compute. reflexivity. Qed.

(** A missing file with [-s]: no diagnostic, the other file is scanned. *)
Example scenario_suppressed_errors :
  Grep Demo.env "hello" ["nope"; "a.txt"] (Demo.start Demo.flagsS)
  = (true,
     mkWorld Demo.flagsS true Discard OsStdout (mkStream [] None)
             ("a.txt:hello world" ++ nl) ""
             [EvGlob "nope"; EvSetPrintName true; EvOpen "nope";
              EvGlob "a.txt"; EvSetPrintName true;
              EvOpen "a.txt"; EvScan "a.txt" true]).
Proof. vm_compute. reflexivity. Qed.

(** Scenario E: a pattern that does not compile, under [-c -q]. *)
Example scenario_invalid_pattern :
  Grep Demo.env "(" ["a.txt"; "b.txt"] (Demo.start Demo.flagsCQ)
  = (false,
     mkWorld Demo.flagsCQ false OsStderr OsStdout (mkStream [] None)
             "" (Demo.badPattern ++ nl) []).
Proof. vm_compute. reflexivity. Qed.

(** ** Where the program departs from the specification *)

(** Against C2: in [src/unnamed/part_000], with two globs, [printName]
    is assigned twice in one run, once for each glob; in [src/grep.go]
    one glob that expands to two paths, without [-h], leaves [printName]
    false. *)
Lemma printName_assigned_twice :
  filter isSetPrintName
         (trace (snd (Grep Demo.env "hello" ["a.txt"; "b.txt"]
                           (Demo.start Demo.noFlags))))
  = [EvSetPrintName true; EvSetPrintName true]
  /\ length (filter isSetPrintName
               (trace (snd (Grep Demo.env "hello" ["a.txt"; "b.txt"]
                                 (Demo.start Demo.noFlags)))))
     <> 1%nat
  /\ ErrObs.sources Demo.env ["*.txt"] = ["a.txt"; "b.txt"]
  /\ GrepErr.NoFilename (Flags Demo.startErr) = false
  /\ printName (snd (GrepErr.Grep Demo.env "hello" ["*.txt"] Demo.startErr))
     = false.
Proof.
  vm_compute. split; [reflexivity | split; [discriminate|]].
  repeat split; reflexivity.
Qed.


(** Against C4: with [-c -q] the scan of a source whose first line is
    selected returns there and leaves the second line unread; and with
    [-L] added the run reports no match. *)
Lemma count_quiet_leaves_lines_unread :
  lines Demo.fileA = ["hello world"; "goodbye"]
  /\ selected Demo.env "hello" false "hello world" = true
  /\ scanLoop Demo.env "a.txt" "hello" (lines Demo.fileA) 0 0
              (Demo.start Demo.flagsCQ)
     = (Return true, ["goodbye"], Demo.start Demo.flagsCQ)
  /\ fst (Grep Demo.env "hello" ["a.txt"] (Demo.start Demo.flagsCQL)) = false.
Proof. vm_compute. repeat split; reflexivity. Qed.

(** ** The theorems at concrete inputs *)

Lemma scan_dispatch_precedence_witness :
  Forall (fun l => selected Demo.env "hello"
                            (Invert (Flags (Demo.start Demo.flagsC))) l
                   = false)
         ["open sesame"]
  /\ selected Demo.env "hello" (Invert (Flags (Demo.start Demo.flagsC)))
              "hello again" = true
  /\ scanLoop Demo.env "b.txt" "hello"
              ["open sesame"; "hello again"; "the end"] 0 0
              (Demo.start Demo.flagsC)
     = scanLoop Demo.env "b.txt" "hello" ["the end"] 2 1
                (Demo.start Demo.flagsC).
Proof.
  refine ((fun H1 H2 =>
             conj H1 (conj H2
               (proj1 (scan_dispatch_precedence Demo.env "b.txt" "hello"
                         ["open sesame"] "hello again" ["the end"]
                         (Demo.start Demo.flagsC) H1 H2) 0 0))) _ _).
  - repeat constructor.
  - reflexivity.
Defined.

Lemma quiet_returns_at_first_selected_witness :
  lines Demo.fileB = (["open sesame"] ++ "hello again" :: ["the end"])%list
  /\ Forall (fun l => selected Demo.env "hello"
                               (Invert (Flags (Demo.start Demo.flagsCQ))) l
                      = false)
            ["open sesame"]
  /\ scanLoop Demo.env "b.txt" "hello" (lines Demo.fileB) 0 0
              (Demo.start Demo.flagsCQ)
     = (Return true, ["the end"], Demo.start Demo.flagsCQ)
  /\ fst (Grep Demo.env "hello" ["*.txt"] (Demo.start Demo.flagsCQ)) = true
  /\ osStdout (snd (Grep Demo.env "hello" ["*.txt"]
                         (Demo.start Demo.flagsCQ)))
     = osStdout (Demo.start Demo.flagsCQ).
Proof.
  refine ((fun Hlines Hpre Hin Hlen =>
             let T := quiet_returns_at_first_selected Demo.env "hello"
                        Demo.fileB ["open sesame"] "hello again" ["the end"]
                        (Demo.start Demo.flagsCQ)
                        eq_refl eq_refl Hlines Hpre eq_refl in
             conj Hlines (conj Hpre
               (conj (proj1 T "b.txt" (Demo.start Demo.flagsCQ) 0 0 eq_refl)
                     (proj1 (proj2 (proj2 T)) "hello" ["*.txt"] "b.txt"
                            eq_refl Hin eq_refl Hlen)))) _ _ _ _).
  - reflexivity.
  - repeat constructor.
  - right. left. reflexivity.
  - reflexivity.
Defined.

Lemma invalid_pattern_reported_witness :
  Compile Demo.env "(" = Err Demo.badPattern
  /\ Grep Demo.env "(" ["a.txt"; "b.txt"]
          (initWorld Demo.flagsCQ Demo.fileA)
     = (false,
        mkWorld Demo.flagsCQ false OsStderr OsStdout Demo.fileA ""
                (Demo.badPattern ++ nl) []).
Proof.
  refine ((fun H =>
             conj H
               (proj2 (proj2 (invalid_pattern_reported Demo.env "("
                                Demo.badPattern ["a.txt"; "b.txt"] H))
                      Demo.flagsCQ Demo.fileA)) _).
  reflexivity.
Defined.

Lemma count_only_prints_count_witness :
  Z.of_nat (length (lines Demo.fileB)) < 2 ^ 63
  /\ grepFile Demo.env "b.txt" Demo.fileB "open" (Demo.start Demo.flagsCV)
     = (true,
        mkWorld Demo.flagsCV false OsStderr OsStdout (mkStream [] None)
                ("2" ++ nl) "" [EvScan "b.txt" false]).
Proof.
  refine ((fun H =>
             conj H
               (proj2 (count_only_prints_count Demo.env "b.txt" Demo.fileB
                         "open" (Demo.start Demo.flagsCV)
                         eq_refl eq_refl eq_refl eq_refl H))) _).
  reflexivity.
Defined.

Lemma unmatched_glob_is_opened_witness :
  In "*.bin" ["a.txt"; "*.bin"; "b.txt"]
  /\ Glob Demo.env "*.bin" = Ok []
  /\ expand Demo.env "*.bin" = ["*.bin"]
  /\ forall rest matchFiles w1,
      grepGlobs Demo.env "hello" 3 ("*.bin" :: rest) matchFiles w1
      = grepGlobs Demo.env "hello" 3 rest matchFiles
          (write (stderr w1)
             (diagnostic "*.bin" "open *.bin: no such file or directory")
             (snd (log (EvOpen "*.bin")
                (snd (setPrintName
                        (namePolicy (NoFilename (Flags w1)) 3 [])
                        (snd (log (EvGlob "*.bin") w1))))))).
Proof.
  refine ((fun Hin Hglob =>
             conj Hin (conj Hglob
               (conj
                  (proj1 (unmatched_glob_is_opened Demo.env "hello" "hello"
                            ["a.txt"; "*.bin"; "b.txt"] "*.bin"
                            (Demo.start Demo.noFlags) eq_refl Hin Hglob))
                  (fun rest matchFiles w1 =>
                     proj1 (proj2 (proj2
                       (unmatched_glob_is_opened Demo.env "hello" "hello"
                          ["a.txt"; "*.bin"; "b.txt"] "*.bin"
                          (Demo.start Demo.noFlags) eq_refl Hin Hglob)))
                       "open *.bin: no such file or directory" 3%nat rest
                       matchFiles w1 eq_refl)))) _ _).
  - right. left. reflexivity.
  - reflexivity.
Defined.

Lemma files_without_match_never_matched_witness :
  FilesWithoutMatch (Flags (Demo.start Demo.flagsL)) = true
  /\ fst (Grep Demo.env "hello" ["a.txt"; "b.txt"] (Demo.start Demo.flagsL))
     = false
  /\ fst (Grep Demo.env "zzz" ["a.txt"; "b.txt"] (Demo.start Demo.flagsL))
     = false.
Proof.
  refine ((fun H =>
             conj H
               (conj
                  (proj2 (proj2 (proj2
                     (files_without_match_never_matched Demo.env
                        (Demo.start Demo.flagsL) H)))
                     "hello" ["a.txt"; "b.txt"])
                  (proj2 (proj2 (proj2
                     (files_without_match_never_matched Demo.env
                        (Demo.start Demo.flagsL) H)))
                     "zzz" ["a.txt"; "b.txt"]))) _).
  reflexivity.
Defined.

(** * What a run writes: the laws of [after] *)
Section AfterLaws.
Context {F : Type}.
Implicit Types w : World F.

Lemma toStdout_app x a b : toStdout x (a ++ b) = toStdout x a ++ toStdout x b.
Proof. destruct x; reflexivity. Qed.

Lemma toStderr_app x a b : toStderr x (a ++ b) = toStderr x a ++ toStderr x b.
Proof. destruct x; reflexivity. Qed.

Lemma after_after w e1 o1 r1 e2 o2 r2 :
  after (after w e1 o1 r1) e2 o2 r2
  = after w (e1 ++ e2)%list (o1 ++ o2) (r1 ++ r2).
Proof.
  unfold after, lastPrintName. simpl.
  now rewrite fold_left_app, toStdout_app, toStderr_app, !string_app_assoc,
    app_assoc.
Qed.

Lemma after_nil w : after w [] "" "" = w.
Proof.
  destruct w as [fl pn se so si oo oe tr]. unfold after. simpl.
  rewrite app_nil_r.
  assert (Ho : oo ++ toStdout so "" = oo)
    by (destruct so; apply string_app_nil_r).
  assert (He : oe ++ toStderr se "" = oe)
    by (destruct se; apply string_app_nil_r).
  now rewrite Ho, He.
Qed.

Lemma write_stdout_after w s :
  straight w -> write (stdout w) s w = after w [] s "".
Proof.
  intros [Ho He]. destruct w as [fl pn se so si oo oe tr].
  unfold after, write. simpl in *. rewrite app_nil_r.
  assert (Hr : oe ++ toStderr se "" = oe)
    by (destruct se; apply string_app_nil_r).
  destruct so; simpl; rewrite ?Hr, ?string_app_nil_r;
    [reflexivity | contradiction | reflexivity].
Qed.

Lemma write_stderr_after w s :
  straight w -> write (stderr w) s w = after w [] "" s.
Proof.
  intros [Ho He]. destruct w as [fl pn se so si oo oe tr].
  unfold after, write. simpl in *. rewrite app_nil_r.
  assert (Hr : oo ++ toStdout so "" = oo)
    by (destruct so; apply string_app_nil_r).
  destruct se; simpl; rewrite ?Hr, ?string_app_nil_r;
    [contradiction | reflexivity | reflexivity].
Qed.

Lemma log_after w e :
  isSetPrintName e = false -> snd (log e w) = after w [e] "" "".
Proof.
  intros He. destruct w as [fl pn se so si oo oe tr].
  unfold after, log. simpl.
  assert (Ho : oo ++ toStdout so "" = oo)
    by (destruct so; apply string_app_nil_r).
  assert (Hr : oe ++ toStderr se "" = oe)
    by (destruct se; apply string_app_nil_r).
  rewrite Ho, Hr. destruct e; try reflexivity; discriminate.
Qed.

Lemma setPrintName_after w b :
  snd (setPrintName b w) = after w [EvSetPrintName b] "" "".
Proof.
  destruct w as [fl pn se so si oo oe tr].
  unfold after, setPrintName. simpl.
  assert (Ho : oo ++ toStdout so "" = oo)
    by (destruct so; apply string_app_nil_r).
  assert (Hr : oe ++ toStderr se "" = oe)
    by (destruct se; apply string_app_nil_r).
  now rewrite Ho, Hr.
Qed.

Lemma write_stdout_after2 w e o r s :
  straight w -> write (stdout w) s (after w e o r) = after w e (o ++ s) r.
Proof.
  intros H. change (stdout w) with (stdout (after w e o r)).
  rewrite write_stdout_after by exact H.
  now rewrite after_after, app_nil_r, string_app_nil_r.
Qed.

Lemma write_stderr_after2 w e o r s :
  straight w -> write (stderr w) s (after w e o r) = after w e o (r ++ s).
Proof.
  intros H. change (stderr w) with (stderr (after w e o r)).
  rewrite write_stderr_after by exact H.
  now rewrite after_after, app_nil_r, string_app_nil_r.
Qed.

End AfterLaws.

Lemma cat_app (a b : list string) : cat (a ++ b) = cat a ++ cat b.
Proof.
  induction a as [|x a IH]; simpl; [reflexivity|].
  now rewrite IH, string_app_assoc.
Qed.

Import Out.

(** Turns the writes that start from [w] into one [after w]. *)
Ltac settle w Hs :=
  repeat (progress
            (unfold ret; cbv beta iota;
             rewrite ?(write_stdout_after w), ?(write_stderr_after w),
               ?(write_stdout_after2 w), ?(write_stderr_after2 w)
               by exact Hs;
             try (rewrite (write_stdout_after (after w _ _ _)) by exact Hs);
             try (rewrite (write_stderr_after (after w _ _ _)) by exact Hs);
             rewrite ?after_after)).

(** ** The output of one scan *)
Section FileOutput.
Variable E : Env.

Lemma emitLine_after name n line (w : World FlagsT) :
  straight w ->
  emitLine name n line w
  = (tt, after w [] (decorate (Flags w) (printName w) name n line) "").
Proof.
  intros Hs. unfold emitLine, decorate. run.
  destruct (printName w), (LineNumbers (Flags w)); settle w Hs;
    simpl; rewrite ?string_app_assoc; reflexivity.
Qed.

Lemma scanLoop_after name pattern rest :
  forall lineNumber count (w : World FlagsT),
    straight w ->
    scanLoop E name pattern rest lineNumber count w
    = (outcome E (Flags w) pattern rest count,
       after w [] (loopOut E (Flags w) (printName w) name pattern rest
                           lineNumber) "").
Proof.
  induction rest as [|line rest IH]; intros lineNumber count w Hs.
  - simpl. unfold ret. now rewrite after_nil.
  - simpl outcome. simpl loopOut.
    destruct (selected E pattern (Invert (Flags w)) line) eqn:Hsel.
    + rewrite scanLoop_selected by exact Hsel.
      destruct (FilesWithoutMatch (Flags w)); [now rewrite after_nil|].
      destruct (Quiet (Flags w)); [now rewrite after_nil|].
      destruct (FilesWithMatch (Flags w)).
      { destruct (printName w); [|now rewrite after_nil].
        now rewrite write_stdout_after by exact Hs. }
      destruct (CountOnly (Flags w)); [now apply IH|].
      rewrite emitLine_after by exact Hs. simpl snd.
      rewrite IH by exact Hs. rewrite after_after. reflexivity.
    + rewrite scanLoop_unselected by exact Hsel. now apply IH.
Qed.

Lemma epilogue_after name inp count (w : World FlagsT) :
  straight w ->
  epilogue name inp count w
  = (0 <? count,
     after w [] (epilogueOut (Flags w) (printName w) name count)
           (readErrText inp)).
Proof.
  intros [Ho He]. unfold epilogue, epilogueOut, readErrText, after. run.
  destruct w as [fl pn se so si oo oe tr]. simpl in *.
  destruct (readErr inp) as [e|], pn, so, se; try contradiction; simpl;
    repeat match goal with
           | |- context [if ?b then _ else _] => destruct b; simpl
           end;
    rewrite ?string_app_nil_r, ?string_app_assoc, ?app_nil_r; reflexivity.
Qed.

(** One call of [grepFile]: its value, its event, its output. *)
Lemma grepFile_after name inp pattern (w : World FlagsT) :
  straight w ->
  grepFile E name inp pattern w
  = (matched E (Flags w) pattern inp,
     after w [EvScan name (printName w)]
           (fileOut E (Flags w) (printName w) name pattern inp)
           (fileErr E (Flags w) pattern inp)).
Proof.
  intros Hs. rewrite grepFile_unfold. cbv zeta.
  rewrite log_after by reflexivity.
  rewrite scanLoop_after by exact Hs.
  unfold matched, fileOut, fileErr. simpl Flags. simpl printName. simpl fst.
  rewrite after_after.
  destruct (fst (outcome E (Flags w) pattern (lines inp) 0)) as [b|count].
  - simpl. now rewrite string_app_nil_r.
  - rewrite epilogue_after by exact Hs. rewrite after_after. reflexivity.
Qed.

End FileOutput.

(** ** The output of the loops and of [Grep] *)
Section RunOutput.
Variable E : Env.
Variable pattern : Regexp E.

Lemma grepPaths_after paths : forall m (w : World FlagsT),
  straight w ->
  grepPaths E pattern paths m w
  = (Nat.iter (length (filter (sourceMatched E (Flags w) pattern) paths))
              incr m,
     after w (pathEvents E (printName w) paths)
           (cat (map (sourceOut E (Flags w) (printName w) pattern) paths))
           (cat (map (sourceErr E (Flags w) pattern) paths))).
Proof.
  induction paths as [|name rest IH]; intros m w Hs.
  - simpl. unfold ret. now rewrite after_nil.
  - unfold pathEvents. cbn [flat_map map filter cat fold_right].
    unfold sourceMatched at 1, sourceOut at 1, sourceErr at 1, opens at 1.
    destruct (Open E name) as [f|e] eqn:Hopen.
    + rewrite (grepPaths_open_ok E pattern name f) by exact Hopen.
      rewrite log_after by reflexivity.
      rewrite grepFile_after by exact Hs.
      rewrite after_after. simpl Flags. simpl printName.
      rewrite IH by exact Hs. rewrite after_after.
      simpl Flags. simpl printName.
      f_equal.
      destruct (matched E (Flags w) pattern f); simpl;
        [now rewrite iter_incr_shift | reflexivity].
    + rewrite (grepPaths_open_fails E pattern name e) by exact Hopen.
      rewrite log_after by reflexivity.
      rewrite write_stderr_after2 by exact Hs.
      rewrite IH by exact Hs. rewrite after_after.
      simpl Flags. simpl printName. reflexivity.
Qed.

Lemma grepGlobs_after n v globs : forall m (w : World FlagsT),
  straight w ->
  agrees E (NoFilename (Flags w)) n v globs ->
  grepGlobs E pattern n globs m w
  = (Nat.iter (length (filter (sourceMatched E (Flags w) pattern)
                              (sources E globs)))
              incr m,
     after w (flat_map (globEvents E (NoFilename (Flags w)) n) globs)
           (cat (map (sourceOut E (Flags w) v pattern) (sources E globs)))
           (cat (map (globErr E (Flags w) pattern) globs))).
Proof.
  induction globs as [|g rest IH]; intros m w Hs Ha.
  - simpl. unfold ret. now rewrite after_nil.
  - pose proof (agrees_tail E _ _ _ _ _ Ha) as Ha'.
    unfold sources. cbn [flat_map map cat fold_right].
    fold (sources E rest).
    rewrite filter_app, length_app, <- iter_incr_add, map_app, cat_app.
    unfold globEvents at 1, globErr at 1.
    destruct (Glob E g) as [paths|e] eqn:Hg.
    + rewrite (grepGlobs_glob_ok E pattern n g paths) by exact Hg.
      cbv zeta. rewrite (Ha g paths) by (auto; now left).
      rewrite log_after by reflexivity.
      rewrite setPrintName_after, after_after.
      rewrite grepPaths_after by exact Hs.
      simpl Flags. simpl printName. rewrite after_after.
      rewrite IH by (try exact Hs; exact Ha').
      rewrite after_after. simpl Flags. reflexivity.
    + rewrite (grepGlobs_glob_fails E pattern n g e) by exact Hg.
      rewrite (expand_glob_fails E g e) by exact Hg.
      rewrite log_after by reflexivity.
      rewrite write_stderr_after2 by exact Hs.
      rewrite IH by (try exact Hs; exact Ha').
      rewrite after_after. simpl Flags. reflexivity.
Qed.

Lemma suppress_straight (w : World FlagsT) :
  straight w -> straight (snd (suppress w)).
Proof.
  intros [Ho He]. rewrite suppress_world. split; simpl.
  - destruct (Quiet (Flags w)); [discriminate | exact Ho].
  - destruct (Quiet (Flags w) || NoErrorMessages (Flags w));
      [discriminate | exact He].
Qed.

Lemma Grep_after pat globs (w : World FlagsT) :
  straight w ->
  Compile E pat = Ok pattern ->
  globs <> [] ->
  Grep E pat globs w
  = (0 <? Nat.iter (length (filter (sourceMatched E (Flags w) pattern)
                                   (sources E globs)))
                   incr 0,
     after (snd (suppress w)) (runEvents E (NoFilename (Flags w)) globs)
           (runOut E (Flags w) pattern globs)
           (runErr E (Flags w) pattern globs)).
Proof.
  intros Hs Hc Hg. rewrite (Grep_globs E pat pattern) by assumption.
  assert (F : Flags (snd (suppress w)) = Flags w)
    by (rewrite suppress_world; reflexivity).
  rewrite (grepGlobs_after (length globs)
             (runPrintName E (NoFilename (Flags w)) globs))
    by (try (apply suppress_straight; exact Hs); rewrite F; apply agrees_run).
  rewrite F. reflexivity.
Qed.

Lemma Grep_stdin_after pat (w : World FlagsT) :
  straight w ->
  Compile E pat = Ok pattern ->
  Grep E pat [] w
  = (matched E (Flags w) pattern (stdin w),
     after (snd (suppress w)) [EvScan "" (printName w)]
           (fileOut E (Flags w) (printName w) "" pattern (stdin w))
           (fileErr E (Flags w) pattern (stdin w))).
Proof.
  intros Hs Hc. rewrite (Grep_stdin E pat pattern) by assumption.
  rewrite grepFile_after by (apply suppress_straight; exact Hs).
  assert (F : Flags (snd (suppress w)) = Flags w)
    by (rewrite suppress_world; reflexivity).
  assert (P : printName (snd (suppress w)) = printName w)
    by (rewrite suppress_world; reflexivity).
  rewrite F, P. reflexivity.
Qed.

End RunOutput.

(** ** Closed forms of the decision and of the output, mode by mode *)
Section ClosedForms.
Variable E : Env.
Variable pattern : Regexp E.

(** One of the modes that leave the loop at a selected line. *)
Lemma outcome_stops fl rest count :
  FilesWithoutMatch fl || Quiet fl || FilesWithMatch fl = true ->
  fst (outcome E fl pattern rest count)
  = if existsb (selected E pattern (Invert fl)) rest
    then Return (negb (FilesWithoutMatch fl))
    else EndOfStream count.
Proof.
  intros H. induction rest as [|line rest IH]; simpl; [reflexivity|].
  destruct (selected E pattern (Invert fl) line); simpl; [|exact IH].
  destruct (FilesWithoutMatch fl); [reflexivity|].
  destruct (Quiet fl); [reflexivity|].
  destruct (FilesWithMatch fl); [reflexivity | discriminate].
Qed.

(** None of them: the loop reads every line. *)
Lemma outcome_runs fl rest : forall count,
  FilesWithoutMatch fl || Quiet fl || FilesWithMatch fl = false ->
  outcome E fl pattern rest count
  = (EndOfStream
       (Nat.iter (length (filter (selected E pattern (Invert fl)) rest))
                 incr count),
     []).
Proof.
  induction rest as [|line rest IH]; intros count H; simpl; [reflexivity|].
  destruct (selected E pattern (Invert fl) line); simpl.
  - destruct (FilesWithoutMatch fl); [discriminate|].
    destruct (Quiet fl); [discriminate|].
    destruct (FilesWithMatch fl); [discriminate|].
    rewrite IH by reflexivity. now rewrite iter_incr_shift.
  - now apply IH.
Qed.

Lemma existsb_filter {A} (f : A -> bool) (l : list A) :
  existsb f l = (0 <? Z.of_nat (length (filter f l))).
Proof.
  induction l as [|x l IH]; simpl; [reflexivity|].
  destruct (f x); simpl; [|exact IH].
  symmetry. apply Z.ltb_lt. lia.
Qed.

(** Without [-L], and short of 2^63 lines, [grepFile] returns whether a
    line is selected. *)
Lemma matched_any fl inp :
  FilesWithoutMatch fl = false ->
  Z.of_nat (length (lines inp)) < 2 ^ 63 ->
  matched E fl pattern inp = anySelected E fl pattern inp.
Proof.
  intros HL Hlen. unfold matched, anySelected.
  destruct (FilesWithoutMatch fl || Quiet fl || FilesWithMatch fl) eqn:Hm.
  - rewrite outcome_stops by exact Hm. rewrite HL.
    destruct (existsb _ _); reflexivity.
  - rewrite outcome_runs by exact Hm. simpl fst.
    pose proof (filter_length_le (selected E pattern (Invert fl)) (lines inp)).
    rewrite iter_incr_small by lia. symmetry. apply existsb_filter.
Qed.

Lemma loopOut_files_with_match fl pn name rest : forall lineNumber,
  FilesWithoutMatch fl = false ->
  Quiet fl = false ->
  FilesWithMatch fl = true ->
  loopOut E fl pn name pattern rest lineNumber
  = if existsb (selected E pattern (Invert fl)) rest && pn
    then name ++ nl else "".
Proof.
  intros lineNumber HL Hq Hl. revert lineNumber.
  induction rest as [|line rest IH]; intros lineNumber; simpl; [reflexivity|].
  destruct (selected E pattern (Invert fl) line); simpl; [|apply IH].
  rewrite HL, Hq, Hl. reflexivity.
Qed.

Lemma loopOut_silent fl pn name rest : forall lineNumber,
  FilesWithoutMatch fl || Quiet fl || CountOnly fl = true ->
  FilesWithoutMatch fl || Quiet fl || negb (FilesWithMatch fl) = true ->
  loopOut E fl pn name pattern rest lineNumber = "".
Proof.
  intros lineNumber H1 H2. revert lineNumber.
  induction rest as [|line rest IH]; intros lineNumber; simpl; [reflexivity|].
  destruct (selected E pattern (Invert fl) line); simpl; [|apply IH].
  destruct (FilesWithoutMatch fl); [reflexivity|].
  destruct (Quiet fl); [reflexivity|].
  destruct (FilesWithMatch fl); [discriminate|].
  destruct (CountOnly fl); [apply IH | discriminate].
Qed.

(** The default mode: the selected lines, each behind its decoration;
    the line numbers are those the loop has counted. *)
Lemma loopOut_default fl pn name rest : forall lineNumber,
  FilesWithoutMatch fl = false ->
  Quiet fl = false ->
  FilesWithMatch fl = false ->
  CountOnly fl = false ->
  loopOut E fl pn name pattern rest lineNumber
  = cat (map (fun p => decorate fl pn name (fst p) (snd p))
             (filter (fun p => selected E pattern (Invert fl) (snd p))
                     (combine (map (fun k => Nat.iter k incr lineNumber)
                                   (seq 1 (length rest)))
                              rest))).
Proof.
  intros lineNumber HL Hq Hl Hc. revert lineNumber.
  induction rest as [|line rest IH]; intros lineNumber; [reflexivity|].
  assert (Hnum : combine (map (fun k => Nat.iter k incr lineNumber)
                              (seq 1 (length (line :: rest))))
                         (line :: rest)
                 = (incr lineNumber, line)
                     :: combine (map (fun k => Nat.iter k incr
                                                        (incr lineNumber))
                                     (seq 1 (length rest)))
                                rest).
  { cbn [length seq map combine]. f_equal. f_equal.
    rewrite <- seq_shift, map_map. apply map_ext.
    intros k. now rewrite iter_incr_shift. }
  rewrite Hnum. cbn [filter snd loopOut].
  destruct (selected E pattern (Invert fl) line); [|apply IH].
  rewrite HL, Hq, Hl, Hc. cbn [map cat fold_right fst snd].
  now rewrite IH.
Qed.

Lemma numbered_small (ls : list string) :
  Z.of_nat (length ls) < 2 ^ 63 ->
  combine (map (fun k => Nat.iter k incr 0) (seq 1 (length ls))) ls
  = numbered ls.
Proof.
  intros H. unfold numbered. f_equal. apply map_ext_in.
  intros k Hk. apply in_seq in Hk. apply iter_incr_small. lia.
Qed.

(** [stderr] receives the read error unless the loop was left at a
    selected line. *)
Lemma fileErr_closed fl inp :
  fileErr E fl pattern inp
  = if (FilesWithoutMatch fl || Quiet fl || FilesWithMatch fl)
       && anySelected E fl pattern inp
    then "" else readErrText inp.
Proof.
  unfold fileErr, anySelected.
  destruct (FilesWithoutMatch fl || Quiet fl || FilesWithMatch fl) eqn:Hm.
  - rewrite outcome_stops by exact Hm.
    destruct (existsb _ _); reflexivity.
  - rewrite outcome_runs by exact Hm. reflexivity.
Qed.

Lemma fileOut_default fl pn name inp :
  FilesWithoutMatch fl = false ->
  Quiet fl = false ->
  FilesWithMatch fl = false ->
  CountOnly fl = false ->
  Z.of_nat (length (lines inp)) < 2 ^ 63 ->
  fileOut E fl pn name pattern inp
  = cat (map (fun p => decorate fl pn name (fst p) (snd p))
             (filter (fun p => selected E pattern (Invert fl) (snd p))
                     (numbered (lines inp)))).
Proof.
  intros HL Hq Hl Hc Hlen. unfold fileOut.
  rewrite loopOut_default by assumption.
  rewrite numbered_small by exact Hlen.
  rewrite outcome_runs by (now rewrite HL, Hq, Hl).
  simpl fst. unfold epilogueOut. rewrite HL, Hc.
  apply string_app_nil_r.
Qed.

Lemma fileOut_files_with_match fl pn name inp :
  FilesWithoutMatch fl = false ->
  Quiet fl = false ->
  FilesWithMatch fl = true ->
  fileOut E fl pn name pattern inp
  = if anySelected E fl pattern inp && pn then name ++ nl else "".
Proof.
  intros HL Hq Hl. unfold fileOut, anySelected.
  rewrite loopOut_files_with_match by assumption.
  rewrite outcome_stops by (now rewrite HL, Hq, Hl).
  unfold epilogueOut. rewrite HL.
  destruct (existsb _ _); simpl.
  - apply string_app_nil_r.
  - now destruct (CountOnly fl).
Qed.

Lemma fileOut_files_without_match fl pn name inp :
  FilesWithoutMatch fl = true ->
  fileOut E fl pn name pattern inp
  = if anySelected E fl pattern inp then ""
    else if pn then name ++ nl else "".
Proof.
  intros HL. unfold fileOut, anySelected.
  rewrite loopOut_silent by (now rewrite HL).
  rewrite outcome_stops by (now rewrite HL).
  unfold epilogueOut. rewrite HL.
  destruct (existsb _ _); reflexivity.
Qed.

(** The texts of a list, some of them empty. *)
Lemma cat_filter {A} (f : A -> bool) (g : A -> string) (l : list A) :
  cat (map (fun x => if f x then g x else "") l) = cat (map g (filter f l)).
Proof.
  induction l as [|x l IH]; simpl; [reflexivity|].
  destruct (f x); simpl; now rewrite IH.
Qed.

Lemma cat_empty {A} (l : list A) : cat (map (fun _ => "") l) = "".
Proof. induction l as [|x l IH]; simpl; [reflexivity | exact IH]. Qed.

Lemma cat_in {A} (g : A -> string) (x : A) (l : list A) :
  In x l -> exists pre post, cat (map g l) = pre ++ g x ++ post.
Proof.
  intros H. apply in_split in H. destruct H as (l1 & l2 & ->).
  exists (cat (map g l1)), (cat (map g l2)).
  now rewrite map_app, cat_app.
Qed.

End ClosedForms.

(** * Further properties of the revision of [src/unnamed/part_000] *)

(** X1: in the default mode (none of [-c], [-l], [-L], [-q]) [grepFile]
    prints the selected lines in order, each behind the name and a colon
    when [printName] holds and behind its 1-based line number and a colon
    under [-n]; a read error is written to [stderr] after them; the value
    is whether a line was selected. *)
Theorem default_mode_prints_selected_lines (E : Env) (name : string)
        (inp : Stream) (pattern : Regexp E) (w : World FlagsT) :
  straight w ->
  CountOnly (Flags w) = false ->
  FilesWithMatch (Flags w) = false ->
  FilesWithoutMatch (Flags w) = false ->
  Quiet (Flags w) = false ->
  Z.of_nat (length (lines inp)) < 2 ^ 63 ->
  grepFile E name inp pattern w
  = (anySelected E (Flags w) pattern inp,
     after w [EvScan name (printName w)]
           (cat (map (fun p => decorate (Flags w) (printName w) name
                                        (fst p) (snd p))
                     (filter (fun p => selected E pattern (Invert (Flags w))
                                                (snd p))
                             (numbered (lines inp)))))
           (readErrText inp)).
Proof.
  intros Hs Hc Hl HL Hq Hlen.
  rewrite grepFile_after by exact Hs.
  rewrite matched_any, fileOut_default, fileErr_closed by assumption.
  now rewrite HL, Hq, Hl.
Qed.

(** X2: under [-l] (without [-L] and [-q]) [grepFile] returns whether a
    line is selected; it prints the name, once, when one is and
    [printName] holds, and nothing otherwise; a read error is written
    only when no line was selected. *)
Theorem files_with_match_prints_name_once (E : Env) (name : string)
        (inp : Stream) (pattern : Regexp E) (w : World FlagsT) :
  straight w ->
  FilesWithMatch (Flags w) = true ->
  FilesWithoutMatch (Flags w) = false ->
  Quiet (Flags w) = false ->
  grepFile E name inp pattern w
  = (anySelected E (Flags w) pattern inp,
     after w [EvScan name (printName w)]
           (if anySelected E (Flags w) pattern inp && printName w
            then name ++ nl else "")
           (if anySelected E (Flags w) pattern inp
            then "" else readErrText inp)).
Proof.
  intros Hs Hl HL Hq.
  rewrite grepFile_after by exact Hs.
  rewrite fileOut_files_with_match, fileErr_closed by assumption.
  rewrite HL, Hq, Hl. simpl orb. f_equal.
  unfold matched, anySelected.
  rewrite outcome_stops by (now rewrite HL, Hq, Hl).
  rewrite HL. now destruct (existsb _ _).
Qed.

(** X3: under [-L] [grepFile] prints the name when no line is selected
    and [printName] holds, and nothing otherwise, whatever the other
    flags are; a read error is written only when no line was selected. *)
Theorem files_without_match_prints_unmatched_name (E : Env) (name : string)
        (inp : Stream) (pattern : Regexp E) (w : World FlagsT) :
  straight w ->
  FilesWithoutMatch (Flags w) = true ->
  grepFile E name inp pattern w
  = (false,
     after w [EvScan name (printName w)]
           (if anySelected E (Flags w) pattern inp then ""
            else if printName w then name ++ nl else "")
           (if anySelected E (Flags w) pattern inp
            then "" else readErrText inp)).
Proof.
  intros Hs HL.
  rewrite grepFile_after by exact Hs.
  rewrite fileOut_files_without_match, fileErr_closed by assumption.
  rewrite HL, matched_without_match by exact HL. reflexivity.
Qed.

(** X4: in every mode, what [grepFile] sends to [stderr] is the read
    error of the stream, and only when the loop was not left at a
    selected line by [-L], [-q] or [-l]. *)
Theorem read_error_reported_unless_returned (E : Env) (name : string)
        (inp : Stream) (pattern : Regexp E) (w : World FlagsT) :
  straight w ->
  osStderr (snd (grepFile E name inp pattern w))
  = osStderr w
    ++ toStderr (stderr w)
         (if (FilesWithoutMatch (Flags w) || Quiet (Flags w)
              || FilesWithMatch (Flags w))
             && anySelected E (Flags w) pattern inp
          then ""
          else match readErr inp with Some e => e ++ nl | None => "" end).
Proof.
  intros Hs. rewrite grepFile_after by exact Hs.
  rewrite fileErr_closed. reflexivity.
Qed.

(** X5: with at least one glob and a pattern that compiles, the world
    [Grep] leaves is the one after the rebinding of the sinks, with the
    events of the run, the outputs of the scans of all paths in order on
    [stdout], and on [stderr], glob by glob, the diagnostic of a failed
    expansion or, path by path, the diagnostic of a failed open or the
    read error of the scan. *)
Theorem Grep_output_in_source_order (E : Env) (pat : string)
        (pattern : Regexp E) (globs : list string) (w : World FlagsT) :
  straight w ->
  Compile E pat = Ok pattern ->
  globs <> [] ->
  snd (Grep E pat globs w)
  = after (snd (suppress w)) (runEvents E (NoFilename (Flags w)) globs)
          (cat (map (sourceOut E (Flags w)
                               (runPrintName E (NoFilename (Flags w)) globs)
                               pattern)
                    (sources E globs)))
          (cat (map (globErr E (Flags w) pattern) globs)).
Proof.
  intros Hs Hc Hg. rewrite (Grep_after E pattern) by assumption. reflexivity.
Qed.

Section ListingModes.
Variable E : Env.
Variable pattern : Regexp E.

Lemma sourceOut_files_with_match fl (v : bool) name :
  FilesWithoutMatch fl = false ->
  Quiet fl = false ->
  FilesWithMatch fl = true ->
  sourceOut E fl v pattern name
  = if sourceSelected E fl pattern name && v then name ++ nl else "".
Proof.
  intros HL Hq Hl. unfold sourceOut, sourceSelected.
  destruct (Open E name); [|reflexivity].
  now apply fileOut_files_with_match.
Qed.

Lemma sourceOut_files_without_match fl (v : bool) name :
  FilesWithoutMatch fl = true ->
  sourceOut E fl v pattern name
  = if opens E name && negb (sourceSelected E fl pattern name) && v
    then name ++ nl else "".
Proof.
  intros HL. unfold sourceOut, sourceSelected, opens.
  destruct (Open E name); [|reflexivity].
  rewrite fileOut_files_without_match by exact HL.
  destruct (anySelected E fl pattern a), v; reflexivity.
Qed.

Lemma stdout_not_quiet (w : World FlagsT) :
  Quiet (Flags w) = false -> stdout (snd (suppress w)) = stdout w.
Proof. intros Hq. rewrite suppress_world. simpl. now rewrite Hq. Qed.

Lemma osStdout_suppress (w : World FlagsT) :
  osStdout (snd (suppress w)) = osStdout w.
Proof. now rewrite suppress_world. Qed.

End ListingModes.

(** X18: with no glob and a pattern that compiles, [Grep] calls neither
    [filepath.Glob] nor [os.Open] and does not assign [printName]: it
    rebinds the sinks and scans standard input once, under the empty
    name and with the value [printName] had; its value and its output are
    those of that scan. *)
Theorem Grep_without_globs_scans_stdin (E : Env) (pat : string)
        (pattern : Regexp E) (w : World FlagsT) :
  straight w ->
  Compile E pat = Ok pattern ->
  Grep E pat [] w
  = (matched E (Flags w) pattern (stdin w),
     after (snd (suppress w)) [EvScan "" (printName w)]
           (fileOut E (Flags w) (printName w) "" pattern (stdin w))
           (fileErr E (Flags w) pattern (stdin w))).
Proof. intros Hs Hc. now apply Grep_stdin_after. Qed.

(** X6: under [-l] (without [-L] and [-q]) a run over at least one glob
    sends to [stdout] the names of the paths that open and have a
    selected line, in order, one per line, when [printName] holds for the
    run (more than one glob or path, no [-h]); otherwise it sends
    nothing. *)
Theorem files_with_match_lists_sources (E : Env) (pat : string)
        (pattern : Regexp E) (globs : list string) (w : World FlagsT) :
  straight w ->
  Compile E pat = Ok pattern ->
  globs <> [] ->
  FilesWithMatch (Flags w) = true ->
  FilesWithoutMatch (Flags w) = false ->
  Quiet (Flags w) = false ->
  osStdout (snd (Grep E pat globs w))
  = osStdout w
    ++ toStdout (stdout w)
         (if runPrintName E (NoFilename (Flags w)) globs
          then cat (map (fun name => name ++ nl)
                        (filter (sourceSelected E (Flags w) pattern)
                                (sources E globs)))
          else "").
Proof.
  intros Hs Hc Hg Hl HL Hq.
  rewrite (Grep_after E pattern) by assumption.
  simpl. rewrite stdout_not_quiet, osStdout_suppress by exact Hq.
  do 2 f_equal. unfold runOut.
  rewrite (map_ext _ _ (fun name =>
             sourceOut_files_with_match E pattern (Flags w) _ name HL Hq Hl)).
  destruct (runPrintName E (NoFilename (Flags w)) globs).
  - rewrite <- cat_filter. f_equal. apply map_ext.
    intros name. now rewrite andb_true_r.
  - transitivity (cat (map (fun _ : string => "") (sources E globs)));
      [|apply cat_empty].
    f_equal. apply map_ext. intros name. now rewrite andb_false_r.
Qed.

(** X7: under [-L] (without [-q]) a run over at least one glob sends to
    [stdout] the names of the paths that open and have no selected line,
    in order, one per line, when [printName] holds for the run;
    otherwise it sends nothing. *)
Theorem files_without_match_lists_sources (E : Env) (pat : string)
        (pattern : Regexp E) (globs : list string) (w : World FlagsT) :
  straight w ->
  Compile E pat = Ok pattern ->
  globs <> [] ->
  FilesWithoutMatch (Flags w) = true ->
  Quiet (Flags w) = false ->
  osStdout (snd (Grep E pat globs w))
  = osStdout w
    ++ toStdout (stdout w)
         (if runPrintName E (NoFilename (Flags w)) globs
          then cat (map (fun name => name ++ nl)
                        (filter (fun name =>
                                   opens E name
                                   && negb (sourceSelected E (Flags w)
                                                           pattern name))
                                (sources E globs)))
          else "").
Proof.
  intros Hs Hc Hg HL Hq.
  rewrite (Grep_after E pattern) by assumption.
  simpl. rewrite stdout_not_quiet, osStdout_suppress by exact Hq.
  do 2 f_equal. unfold runOut.
  rewrite (map_ext _ _ (fun name =>
             sourceOut_files_without_match E pattern (Flags w) _ name HL)).
  destruct (runPrintName E (NoFilename (Flags w)) globs).
  - rewrite <- cat_filter. f_equal. apply map_ext.
    intros name. now rewrite andb_true_r.
  - transitivity (cat (map (fun _ : string => "") (sources E globs)));
      [|apply cat_empty].
    f_equal. apply map_ext. intros name. now rewrite andb_false_r.
Qed.

(** X8: without [-L], and short of 2^63 paths and of 2^63 lines in a
    file, [Grep] returns true exactly when some path opens and has a
    selected line; with no glob, exactly when standard input has one. *)
Theorem Grep_true_iff_some_line_selected (E : Env) (pat : string)
        (pattern : Regexp E) (globs : list string) (w : World FlagsT) :
  Compile E pat = Ok pattern ->
  FilesWithoutMatch (Flags w) = false ->
  Z.of_nat (length (sources E globs)) < 2 ^ 63 ->
  (forall name f, In name (sources E globs) -> Open E name = Ok f ->
                  Z.of_nat (length (lines f)) < 2 ^ 63) ->
  Z.of_nat (length (lines (stdin w))) < 2 ^ 63 ->
  fst (Grep E pat globs w)
  = match globs with
    | [] => anySelected E (Flags w) pattern (stdin w)
    | _ :: _ => existsb (sourceSelected E (Flags w) pattern) (sources E globs)
    end.
Proof.
  intros Hc HL Hn Hlines Hin. destruct globs as [|g globs].
  - destruct (Grep_stdin_spec E pat pattern w Hc) as [_ ->].
    now apply matched_any.
  - destruct (Grep_spec E pat pattern (g :: globs) w Hc) as [_ ->];
      [discriminate|].
    assert (Hf : filter (sourceMatched E (Flags w) pattern)
                        (sources E (g :: globs))
                 = filter (sourceSelected E (Flags w) pattern)
                          (sources E (g :: globs))).
    { apply filter_ext_in. intros name Hname.
      unfold sourceMatched, sourceSelected.
      destruct (Open E name) as [f|e] eqn:Ho; [|reflexivity].
      apply matched_any; [exact HL | now apply (Hlines name)]. }
    rewrite Hf.
    pose proof (filter_length_le (sourceSelected E (Flags w) pattern)
                                 (sources E (g :: globs))).
    rewrite iter_incr_small by lia. symmetry. apply existsb_filter.
Qed.

(** X9: under [-q], once the pattern has compiled, nothing reaches
    os.Stdout or os.Stderr, whatever the globs, the files and standard
    input are. *)
Theorem quiet_writes_nothing (E : Env) (pat : string) (pattern : Regexp E)
        (globs : list string) (w : World FlagsT) :
  Compile E pat = Ok pattern ->
  Quiet (Flags w) = true ->
  osStdout (snd (Grep E pat globs w)) = osStdout w
  /\ osStderr (snd (Grep E pat globs w)) = osStderr w.
Proof.
  intros Hc Hq.
  assert (H : forall w' evs,
             steps (snd (suppress w)) w' evs ->
             osStdout w' = osStdout w /\ osStderr w' = osStderr w).
  { intros w' evs (_ & _ & _ & _ & _ & _ & O & R & _).
    split.
    - rewrite O; rewrite suppress_world; simpl; rewrite ?Hq;
        [reflexivity | discriminate | discriminate].
    - rewrite R; rewrite suppress_world; simpl; rewrite ?Hq;
        [reflexivity | discriminate | discriminate]. }
  destruct globs as [|g globs].
  - destruct (Grep_stdin_spec E pat pattern w Hc) as [Hs _].
    exact (H _ _ Hs).
  - destruct (Grep_spec E pat pattern (g :: globs) w Hc) as [Hs _];
      [discriminate|].
    exact (H _ _ Hs).
Qed.

(** X10: [Grep] leaves the sink variables rebound: once the pattern has
    compiled, [stderr] is [ioutil.Discard] under [-q] or [-s] and
    [stdout] is [ioutil.Discard] under [-q]; when the pattern does not
    compile they are what they were.  So a call of [Grep] with a pattern
    that does not compile, made in the world a suppressed call has left,
    reports nothing. *)
Theorem sinks_stay_rebound (E : Env) (pat : string) (globs : list string)
        (w : World FlagsT) :
  (forall pattern,
      Compile E pat = Ok pattern ->
      stderr (snd (Grep E pat globs w))
      = (if Quiet (Flags w) || NoErrorMessages (Flags w)
         then Discard else stderr w)
      /\ stdout (snd (Grep E pat globs w))
         = (if Quiet (Flags w) then Discard else stdout w))
  /\ (forall e,
         Compile E pat = Err e ->
         stderr (snd (Grep E pat globs w)) = stderr w
         /\ stdout (snd (Grep E pat globs w)) = stdout w)
  /\ (forall pattern pat2 globs2 e,
         Compile E pat = Ok pattern ->
         Quiet (Flags w) || NoErrorMessages (Flags w) = true ->
         Compile E pat2 = Err e ->
         Grep E pat2 globs2 (snd (Grep E pat globs w))
         = (false, snd (Grep E pat globs w))).
Proof.
  assert (H : forall pattern,
             Compile E pat = Ok pattern ->
             stderr (snd (Grep E pat globs w))
             = (if Quiet (Flags w) || NoErrorMessages (Flags w)
                then Discard else stderr w)
             /\ stdout (snd (Grep E pat globs w))
                = (if Quiet (Flags w) then Discard else stdout w)).
  { intros pattern Hc.
    assert (G : forall w' evs,
               steps (snd (suppress w)) w' evs ->
               stderr w'
               = (if Quiet (Flags w) || NoErrorMessages (Flags w)
                  then Discard else stderr w)
               /\ stdout w' = (if Quiet (Flags w) then Discard else stdout w)).
    { intros w' evs (_ & A & B & _). rewrite A, B, suppress_world.
      split; reflexivity. }
    destruct globs as [|g globs'].
    - destruct (Grep_stdin_spec E pat pattern w Hc) as [Hs _].
      exact (G _ _ Hs).
    - destruct (Grep_spec E pat pattern (g :: globs') w Hc) as [Hs _];
        [discriminate|].
      exact (G _ _ Hs). }
  split; [exact H|split].
  - intros e He. rewrite (Grep_invalid E pat e) by exact He.
    simpl snd.
    destruct (steps_write_stderr w (e ++ nl)) as (_ & A & B & _).
    split; assumption.
  - intros pattern pat2 globs2 e Hc Hsup He.
    rewrite (Grep_invalid E pat2 e) by exact He.
    destruct (H pattern Hc) as [-> _]. now rewrite Hsup.
Qed.

(** X11: a glob that [filepath.Glob] rejects contributes no path: the
    loop writes one diagnostic for it, does not assign [printName], opens
    nothing and goes on with the remaining globs; errors not suppressed,
    the diagnostic is part of what os.Stderr has received when [Grep]
    returns. *)
Theorem glob_failure_is_local (E : Env) (pat : string) (pattern : Regexp E)
        (globs : list string) (glob e : string) (w : World FlagsT) :
  Compile E pat = Ok pattern ->
  In glob globs ->
  Glob E glob = Err e ->
  expand E glob = []
  /\ (forall n rest matchFiles w1,
         grepGlobs E pattern n (glob :: rest) matchFiles w1
         = grepGlobs E pattern n rest matchFiles
             (write (stderr w1) (diagnostic glob e)
                    (snd (log (EvGlob glob) w1))))
  /\ (straight w ->
      Quiet (Flags w) = false ->
      NoErrorMessages (Flags w) = false ->
      stderr w = OsStderr ->
      exists pre post,
        osStderr (snd (Grep E pat globs w))
        = pre ++ diagnostic glob e ++ post)
  /\ exists evs,
      trace (snd (Grep E pat globs w)) = (trace w ++ evs)%list
      /\ filter isGlob evs = map EvGlob globs
      /\ filter isOpen evs = map EvOpen (sources E globs)
      /\ length (filter isSetPrintName evs)
         = length (filter (globOk E) globs).
Proof.
  intros Hc Hin Hglob.
  assert (Hg : globs <> []) by (intros ->; exact Hin).
  split; [now apply (expand_glob_fails E glob e)|split; [|split]].
  - intros n rest matchFiles w1. now apply grepGlobs_glob_fails.
  - intros Hs Hq Hn Herr.
    rewrite (Grep_after E pattern) by assumption.
    simpl. rewrite suppress_world. simpl. rewrite Hq, Hn. simpl.
    rewrite Herr. simpl. unfold runErr.
    destruct (cat_in (globErr E (Flags w) pattern) glob globs Hin)
      as (p & q & Hpq).
    rewrite Hpq. unfold globErr. rewrite Hglob.
    exists (osStderr w ++ p), q. now rewrite string_app_assoc.
  - exists (runEvents E (NoFilename (Flags w)) globs).
    split; [now apply (Grep_trace E pat pattern)|].
    unfold runEvents. split; [apply run_globs|split; [apply run_opens|]].
    rewrite (run_sets E _ _ (runPrintName E (NoFilename (Flags w)) globs))
      by apply agrees_run.
    apply length_map.
Qed.

(** * Properties of the revision of [src/grep.go] *)

Section Keeping.
Context {F : Type}.

Lemma Flags_write (x : Writer) (s : string) (w : World F) :
  Flags (write x s w) = Flags w.
Proof. now destruct x. Qed.

Lemma keeps_ret {A} (a : A) : keepsFlags (F := F) (ret a).
Proof. intros w. reflexivity. Qed.

Lemma keeps_bind {A B} (m : M F A) (k : A -> M F B) :
  keepsFlags m -> (forall a, keepsFlags (k a)) -> keepsFlags (bind m k).
Proof.
  intros Hm Hk w. unfold bind. specialize (Hm w).
  destruct (m w) as [a w1]. simpl in Hm. now rewrite Hk, Hm.
Qed.

Lemma keeps_getFlags : keepsFlags (getFlags (F := F)).
Proof. intros w. reflexivity. Qed.

Lemma keeps_getPrintName : keepsFlags (getPrintName (F := F)).
Proof. intros w. reflexivity. Qed.

Lemma keeps_getStdin : keepsFlags (getStdin (F := F)).
Proof. intros w. reflexivity. Qed.

Lemma keeps_Fprint v s : keepsFlags (Fprint (F := F) v s).
Proof. intros w. apply Flags_write. Qed.

Lemma keeps_Fprintln v s : keepsFlags (Fprintln (F := F) v s).
Proof. apply keeps_Fprint. Qed.

Lemma keeps_log e : keepsFlags (log (F := F) e).
Proof. intros w. reflexivity. Qed.

Lemma keeps_setPrintName b : keepsFlags (setPrintName (F := F) b).
Proof. intros w. reflexivity. Qed.

Lemma keeps_when b (m : M F unit) : keepsFlags m -> keepsFlags (when b m).
Proof. intros H. destruct b; [exact H | apply keeps_ret]. Qed.

Lemma keeps_if {A} (b : bool) (m1 m2 : M F A) :
  keepsFlags m1 -> keepsFlags m2 -> keepsFlags (if b then m1 else m2).
Proof. now destruct b. Qed.

Lemma only_ret {A} (a : A) : stdoutOnly (F := F) (ret a).
Proof. intros w _. exists [], "". simpl. now rewrite after_nil. Qed.

Lemma only_bind {A B} (m : M F A) (k : A -> M F B) :
  stdoutOnly m -> (forall a, stdoutOnly (k a)) -> stdoutOnly (bind m k).
Proof.
  intros Hm Hk w Hs. unfold bind.
  destruct (Hm w Hs) as (e1 & o1 & H1).
  destruct (m w) as [a w1]. simpl in H1. subst w1.
  destruct (Hk a (after w e1 o1 "") Hs) as (e2 & o2 & H2).
  exists (e1 ++ e2)%list, (o1 ++ o2). rewrite H2. apply after_after.
Qed.

Lemma only_getFlags : stdoutOnly (getFlags (F := F)).
Proof. intros w _. exists [], "". simpl. now rewrite after_nil. Qed.

Lemma only_getPrintName : stdoutOnly (getPrintName (F := F)).
Proof. intros w _. exists [], "". simpl. now rewrite after_nil. Qed.

Lemma only_getStdin : stdoutOnly (getStdin (F := F)).
Proof. intros w _. exists [], "". simpl. now rewrite after_nil. Qed.

Lemma only_Fprint s : stdoutOnly (Fprint (F := F) stdout s).
Proof.
  intros w Hs. exists [], s. simpl. now apply write_stdout_after.
Qed.

Lemma only_Fprintln s : stdoutOnly (Fprintln (F := F) stdout s).
Proof. apply only_Fprint. Qed.

Lemma only_log_glob g : stdoutOnly (log (F := F) (EvGlob g)).
Proof. intros w _. exists [EvGlob g], "". now apply log_after. Qed.

Lemma only_log_open n : stdoutOnly (log (F := F) (EvOpen n)).
Proof. intros w _. exists [EvOpen n], "". now apply log_after. Qed.

Lemma only_log_scan n b : stdoutOnly (log (F := F) (EvScan n b)).
Proof. intros w _. exists [EvScan n b], "". now apply log_after. Qed.

Lemma only_setPrintName b : stdoutOnly (setPrintName (F := F) b).
Proof.
  intros w _. exists [EvSetPrintName b], "". apply setPrintName_after.
Qed.

Lemma only_when b (m : M F unit) : stdoutOnly m -> stdoutOnly (when b m).
Proof. intros H. destruct b; [exact H | apply only_ret]. Qed.

Lemma only_if {A} (b : bool) (m1 m2 : M F A) :
  stdoutOnly m1 -> stdoutOnly m2 -> stdoutOnly (if b then m1 else m2).
Proof. now destruct b. Qed.

End Keeping.

Create HintDb keeps.
#[local] Hint Resolve keeps_ret keeps_getFlags keeps_getPrintName
  keeps_getStdin keeps_Fprint keeps_Fprintln keeps_log keeps_setPrintName
  : keeps.
Create HintDb only.
#[local] Hint Resolve only_ret only_getFlags only_getPrintName only_getStdin
  only_Fprint only_Fprintln only_log_glob only_log_open only_log_scan
  only_setPrintName : only.

Ltac keeping :=
  repeat first
    [ solve [auto with keeps]
    | apply keeps_bind; [|intros ?]
    | apply keeps_when
    | apply keeps_if ].

Ltac only_stdout :=
  repeat first
    [ solve [auto with only]
    | apply only_bind; [|intros ?]
    | apply only_when
    | apply only_if ].

Section ErrFiles.
Variable E : Env.
Import GrepErr.

Lemma Err_emitLine_keeps name n line : keepsFlags (GrepErr.emitLine name n line).
Proof. unfold GrepErr.emitLine. keeping. Qed.

Lemma Err_emitLine_only name n line : stdoutOnly (GrepErr.emitLine name n line).
Proof. unfold GrepErr.emitLine. only_stdout. Qed.

Lemma Err_scanLoop_keeps name pattern rest :
  forall lineNumber count,
    keepsFlags (GrepErr.scanLoop E name pattern rest lineNumber count).
Proof.
  induction rest as [|line rest IH]; intros lineNumber count; simpl.
  - apply keeps_ret.
  - keeping; try apply IH; try apply Err_emitLine_keeps.
Qed.

Lemma Err_scanLoop_only name pattern rest :
  forall lineNumber count,
    stdoutOnly (GrepErr.scanLoop E name pattern rest lineNumber count).
Proof.
  induction rest as [|line rest IH]; intros lineNumber count; simpl.
  - apply only_ret.
  - only_stdout; try apply IH; try apply Err_emitLine_only.
Qed.

Lemma Err_grepFile_keeps name inp pattern :
  keepsFlags (GrepErr.grepFile E name inp pattern).
Proof.
  unfold GrepErr.grepFile. keeping; try apply Err_scanLoop_keeps.
  all: match goal with
       | |- context [fst ?x] => destruct (fst x)
       end; keeping.
  all: destruct (readErr inp); keeping.
Qed.

Lemma Err_grepFile_only name inp pattern :
  stdoutOnly (GrepErr.grepFile E name inp pattern).
Proof.
  unfold GrepErr.grepFile. only_stdout; try apply Err_scanLoop_only.
  all: match goal with
       | |- context [fst ?x] => destruct (fst x)
       end; only_stdout.
  all: destruct (readErr inp); only_stdout.
Qed.

End ErrFiles.

#[local] Hint Resolve Err_emitLine_keeps Err_scanLoop_keeps
  Err_grepFile_keeps : keeps.
#[local] Hint Resolve Err_emitLine_only Err_scanLoop_only
  Err_grepFile_only : only.

Section ErrResults.
Variable E : Env.
Import GrepErr.

(** How the loop of the revision with errors is left. *)
Lemma Err_scanLoop_result name pattern rest :
  forall lineNumber count (w : World GrepErr.FlagsT),
    fst (fst (GrepErr.scanLoop E name pattern rest lineNumber count w))
    = if existsb (GrepBool.selected E pattern (Invert (Flags w))) rest
         && FilesWithoutMatch (Flags w)
      then Return (Some ErrNoMatch)
      else if existsb (GrepBool.selected E pattern (Invert (Flags w))) rest
              && FilesWithMatch (Flags w)
           then Return None
           else EndOfStream
                  (Nat.iter
                     (length (filter (GrepBool.selected E pattern
                                        (Invert (Flags w))) rest))
                     incr count).
Proof.
  induction rest as [|line rest IH]; intros lineNumber count w.
  - reflexivity.
  - simpl GrepErr.scanLoop. unfold bind at 1. unfold getFlags at 1.
    cbn [existsb filter]. unfold GrepBool.selected at 1 3 5.
    destruct (Bool.eqb (MatchString E pattern line) (Invert (Flags w))).
    + simpl negb. simpl orb. apply IH.
    + simpl negb. simpl orb. simpl andb.
      destruct (FilesWithoutMatch (Flags w)) eqn:HL; [reflexivity|].
      destruct (FilesWithMatch (Flags w)) eqn:Hl.
      { unfold bind, getPrintName. destruct (when _ _ w). reflexivity. }
      assert (Hk : forall w1 : World GrepErr.FlagsT,
                 Flags w1 = Flags w ->
                 fst (fst (GrepErr.scanLoop E name pattern rest
                             (incr lineNumber) (incr count) w1))
                 = EndOfStream
                     (Nat.iter
                        (length (GrepBool.selected E pattern (Invert (Flags w))
                                 :: nil) +
                         length (filter (GrepBool.selected E pattern
                                           (Invert (Flags w))) rest))
                        incr count)).
      { intros w1 HF. rewrite IH, HF, HL, Hl. rewrite !andb_false_r.
        simpl. now rewrite iter_incr_shift. }
      simpl length in Hk. simpl length.
      destruct (CountOnly (Flags w)); [now apply Hk|].
      unfold bind.
      pose proof (Err_emitLine_keeps name (incr lineNumber) line w) as He.
      destruct (GrepErr.emitLine name (incr lineNumber) line w) as [[] w1].
      now apply Hk.
Qed.

End ErrResults.

Section ErrRun.
Variable E : Env.
Import GrepErr.

Lemma Err_grepFile_result name inp pattern (w : World GrepErr.FlagsT) :
  fst (GrepErr.grepFile E name inp pattern w)
  = if ErrObs.anySelected E (Flags w) pattern inp
       && FilesWithoutMatch (Flags w)
    then Some ErrNoMatch
    else if ErrObs.anySelected E (Flags w) pattern inp
            && FilesWithMatch (Flags w)
         then None
         else match readErr inp with
              | Some e => Some (ErrOther e)
              | None => None
              end.
Proof.
  unfold GrepErr.grepFile, ErrObs.anySelected.
  unfold bind at 1 2 3. unfold getPrintName at 1. unfold log at 1.
  set (w0 := mkWorld _ _ _ _ _ _ _ _).
  pose proof (Err_scanLoop_result E name pattern (lines inp) 0 0 w0) as Hr.
  change (Flags w0) with (Flags w) in Hr.
  destruct (GrepErr.scanLoop E name pattern (lines inp) 0 0 w0) as [x w1].
  simpl fst in Hr. rewrite Hr.
  destruct (existsb _ _ && FilesWithoutMatch (Flags w)); [reflexivity|].
  destruct (existsb _ _ && FilesWithMatch (Flags w)); [reflexivity|].
  destruct (readErr inp); [reflexivity|].
  unfold bind, getFlags, getPrintName, ret.
  match goal with
  | |- fst (let (_, _) := ?m w1 in _) = _ => destruct (m w1)
  end.
  reflexivity.
Qed.

Lemma Err_grepPaths_keeps pattern paths :
  forall m, keepsFlags (GrepErr.grepPaths E pattern paths m).
Proof.
  induction paths as [|name rest IH]; intros m; simpl.
  - apply keeps_ret.
  - keeping. destruct (Open E name); keeping.
    match goal with
    | |- keepsFlags (match ?r with _ => _ end) => destruct r as [err|]
    end; [|apply IH].
    destruct (isErrNoMatch err); [apply IH | apply keeps_ret].
Qed.

Lemma Err_grepPaths_only pattern paths :
  forall m, stdoutOnly (GrepErr.grepPaths E pattern paths m).
Proof.
  induction paths as [|name rest IH]; intros m; simpl.
  - apply only_ret.
  - only_stdout. destruct (Open E name); only_stdout.
    match goal with
    | |- stdoutOnly (match ?r with _ => _ end) => destruct r as [err|]
    end; [|apply IH].
    destruct (isErrNoMatch err); [apply IH | apply only_ret].
Qed.

Lemma Err_grepGlobs_keeps pattern globs :
  forall m, keepsFlags (GrepErr.grepGlobs E pattern globs m).
Proof.
  induction globs as [|g rest IH]; intros m; simpl.
  - apply keeps_ret.
  - keeping. destruct (Glob E g); keeping.
    + apply Err_grepPaths_keeps.
    + match goal with
      | |- keepsFlags (match ?r with _ => _ end) => destruct r
      end; [apply keeps_ret | apply IH].
Qed.

Lemma Err_grepGlobs_only pattern globs :
  forall m, stdoutOnly (GrepErr.grepGlobs E pattern globs m).
Proof.
  induction globs as [|g rest IH]; intros m; simpl.
  - apply only_ret.
  - only_stdout. destruct (Glob E g); only_stdout.
    + apply Err_grepPaths_only.
    + match goal with
      | |- stdoutOnly (match ?r with _ => _ end) => destruct r
      end; [apply only_ret | apply IH].
Qed.

Lemma Err_Grep_only pat globs : stdoutOnly (GrepErr.Grep E pat globs).
Proof.
  unfold GrepErr.Grep. only_stdout.
  destruct (Compile E pat); only_stdout.
  destruct (length globs =? 0)%nat; only_stdout.
  all: try apply Err_grepGlobs_only.
  match goal with
  | |- stdoutOnly (match ?r with _ => _ end) => destruct r
  end; only_stdout.
Qed.

(** The paths of a list that all open and read without error. *)
Lemma Err_grepPaths_readable pattern paths :
  forall m (w : World GrepErr.FlagsT),
    ErrObs.allReadable E paths ->
    fst (GrepErr.grepPaths E pattern paths m w)
    = inr (Nat.iter (length (filter (ErrObs.counted E (Flags w) pattern)
                                    paths))
                    incr m).
Proof.
  induction paths as [|name rest IH]; intros m w Hall; [reflexivity|].
  assert (Hrest : ErrObs.allReadable E rest)
    by (intros n Hn; apply Hall; now right).
  destruct (Hall name (or_introl eq_refl)) as (f & Hopen & Hread).
  simpl GrepErr.grepPaths. unfold bind at 1. unfold log at 1.
  set (w0 := mkWorld _ _ _ _ _ _ _ _).
  rewrite Hopen. unfold bind at 1.
  pose proof (Err_grepFile_result name f pattern w0) as Hr.
  pose proof (Err_grepFile_keeps E name f pattern w0) as Hk.
  change (Flags w0) with (Flags w) in Hr, Hk.
  destruct (GrepErr.grepFile E name f pattern w0) as [r w1].
  simpl fst in Hr. simpl snd in Hk. rewrite Hread in Hr.
  cbn [filter]. unfold ErrObs.counted at 1. rewrite Hopen.
  destruct (ErrObs.anySelected E (Flags w) pattern f);
    destruct (FilesWithoutMatch (Flags w)); simpl in Hr; subst r; simpl;
      try (destruct (FilesWithMatch (Flags w)));
      rewrite IH by exact Hrest; rewrite Hk;
      rewrite ?iter_incr_shift; reflexivity.
Qed.

Lemma Err_grepGlobs_readable pattern globs :
  forall m (w : World GrepErr.FlagsT),
    (forall g, In g globs -> exists paths, Glob E g = Ok paths) ->
    ErrObs.allReadable E (ErrObs.sources E globs) ->
    fst (GrepErr.grepGlobs E pattern globs m w)
    = inr (Nat.iter (length (filter (ErrObs.counted E (Flags w) pattern)
                                    (ErrObs.sources E globs)))
                    incr m).
Proof.
  induction globs as [|g rest IH]; intros m w Hglobs Hall; [reflexivity|].
  destruct (Hglobs g (or_introl eq_refl)) as (paths & Hg).
  assert (Hx : ErrObs.expand E g = paths)
    by (unfold ErrObs.expand; now rewrite Hg).
  unfold ErrObs.sources in *. cbn [flat_map] in *. rewrite Hx in *.
  assert (H1 : ErrObs.allReadable E paths)
    by (intros n Hn; apply Hall, in_or_app; now left).
  assert (H2 : ErrObs.allReadable E (flat_map (ErrObs.expand E) rest))
    by (intros n Hn; apply Hall, in_or_app; now right).
  simpl GrepErr.grepGlobs. unfold bind at 1. unfold log at 1.
  set (w0 := mkWorld _ _ _ _ _ _ _ _).
  rewrite Hg. unfold bind at 1.
  pose proof (Err_grepPaths_readable pattern paths m w0 H1) as Hr.
  pose proof (Err_grepPaths_keeps pattern paths m w0) as Hk.
  change (Flags w0) with (Flags w) in Hr, Hk.
  destruct (GrepErr.grepPaths E pattern paths m w0) as [r w1].
  simpl fst in Hr. simpl snd in Hk. subst r.
  rewrite IH by (try exact H2; intros g' Hg'; apply Hglobs; now right).
  rewrite Hk, filter_app, length_app, iter_incr_add. reflexivity.
Qed.

(** The loop over the globs, split in two: an error of the first part is
    the result, and the second part is not visited. *)
Lemma Err_grepGlobs_app pattern a b :
  forall m (w : World GrepErr.FlagsT),
    GrepErr.grepGlobs E pattern (a ++ b) m w
    = match GrepErr.grepGlobs E pattern a m w with
      | (inl err, w1) => (inl err, w1)
      | (inr m1, w1) => GrepErr.grepGlobs E pattern b m1 w1
      end.
Proof.
  induction a as [|g a IH]; intros m w; [reflexivity|].
  rewrite <- app_comm_cons. simpl GrepErr.grepGlobs.
  unfold bind at 1 3. destruct (log (EvGlob g) w) as [[] w0].
  destruct (Glob E g); [|reflexivity].
  unfold bind at 1 2.
  destruct (GrepErr.grepPaths E pattern a0 m w0) as [[err|m1] w1];
    [reflexivity | apply IH].
Qed.

End ErrRun.

(** X12: in the revision with errors [grepFile] returns [ErrNoMatch]
    exactly when [-L] is set and a line is selected; otherwise it returns
    [nil] under [-l] with a selected line, and else the read error of the
    stream if there is one and [nil] if there is none, whether or not a
    line was selected. *)
Theorem GrepErr_grepFile_result (E : Env) (name : string) (inp : Stream)
        (pattern : Regexp E) (w : World GrepErr.FlagsT) :
  fst (GrepErr.grepFile E name inp pattern w)
  = if ErrObs.anySelected E (Flags w) pattern inp
       && GrepErr.FilesWithoutMatch (Flags w)
    then Some GrepErr.ErrNoMatch
    else if ErrObs.anySelected E (Flags w) pattern inp
            && GrepErr.FilesWithMatch (Flags w)
         then None
         else match readErr inp with
              | Some e => Some (GrepErr.ErrOther e)
              | None => None
              end.
Proof. apply Err_grepFile_result. Qed.

(** X13: in the revision with errors [Grep] never writes to [stderr]:
    it returns its errors.  [cmdMain] then writes the error and a newline
    to [stderr], unless it is [ErrNoMatch], and nothing else. *)
Theorem GrepErr_errors_are_returned (E : Env) (pat : string)
        (globs : list string) (w : World GrepErr.FlagsT) :
  straight w ->
  exists evs out,
    snd (GrepErr.Grep E pat globs w) = after w evs out ""
    /\ GrepErr.cmdMain E "" (pat :: globs) w
       = (match fst (GrepErr.Grep E pat globs w) with
          | None => 0
          | Some _ => 2
          end,
          after w evs out
                match fst (GrepErr.Grep E pat globs w) with
                | Some err =>
                  if GrepErr.isErrNoMatch err then ""
                  else GrepErr.Error err ++ nl
                | None => ""
                end).
Proof.
  intros Hs. destruct (Err_Grep_only E pat globs w Hs) as (evs & out & H).
  exists evs, out. split; [exact H|].
  unfold GrepErr.cmdMain. simpl. unfold bind at 1.
  destruct (GrepErr.Grep E pat globs w) as [r w1]. simpl in H. subst w1.
  simpl fst. destruct r as [err|]; [|reflexivity].
  unfold bind, ret, when, Fprintln, Fprint.
  destruct (GrepErr.isErrNoMatch err); simpl; [reflexivity|].
  rewrite write_stderr_after2 by exact Hs. reflexivity.
Qed.

(** X14: in the revision with errors, when every glob expands, every
    path opens and no stream has a read error, [Grep] returns [nil] if
    some path counts and [ErrNoMatch] if none does, where a path counts
    unless [-L] is set and one of its lines is selected: without [-L]
    every path counts, whether the pattern matches in it or not. *)
Theorem GrepErr_result_without_errors (E : Env) (pat : string)
        (pattern : Regexp E) (globs : list string)
        (w : World GrepErr.FlagsT) :
  Compile E pat = Ok pattern ->
  globs <> [] ->
  (forall g, In g globs -> exists paths, Glob E g = Ok paths) ->
  ErrObs.allReadable E (ErrObs.sources E globs) ->
  Z.of_nat (length (ErrObs.sources E globs)) < 2 ^ 63 ->
  fst (GrepErr.Grep E pat globs w)
  = (if existsb (ErrObs.counted E (Flags w) pattern) (ErrObs.sources E globs)
     then None else Some GrepErr.ErrNoMatch)
  /\ (GrepErr.FilesWithoutMatch (Flags w) = false ->
      fst (GrepErr.Grep E pat globs w)
      = match ErrObs.sources E globs with
        | [] => Some GrepErr.ErrNoMatch
        | _ :: _ => None
        end).
Proof.
  intros Hc Hg Hglobs Hall Hlen.
  assert (H : fst (GrepErr.Grep E pat globs w)
              = (if existsb (ErrObs.counted E (Flags w) pattern)
                            (ErrObs.sources E globs)
                 then None else Some GrepErr.ErrNoMatch)).
  { unfold GrepErr.Grep. unfold bind at 1 2. unfold getFlags, setPrintName.
    set (w0 := mkWorld _ _ _ _ _ _ _ _).
    rewrite Hc. destruct globs as [|g globs']; [contradiction|].
    cbn [length Nat.eqb]. unfold bind at 1.
    pose proof (Err_grepGlobs_readable E pattern (g :: globs') 0 w0
                                       Hglobs Hall) as Hr.
    change (Flags w0) with (Flags w) in Hr.
    destruct (GrepErr.grepGlobs E pattern (g :: globs') 0 w0) as [r w1].
    simpl fst in Hr. subst r.
    pose proof (filter_length_le (ErrObs.counted E (Flags w) pattern)
                                 (ErrObs.sources E (g :: globs'))) as Hle.
    rewrite iter_incr_small by lia.
    rewrite existsb_filter.
    destruct (filter _ _) as [|x l]; [reflexivity|].
    simpl length.
    replace (Z.of_nat (S (length l)) =? 0) with false
      by (symmetry; apply Z.eqb_neq; lia).
    replace (0 <? Z.of_nat (S (length l))) with true
      by (symmetry; apply Z.ltb_lt; lia).
    reflexivity. }
  split; [exact H|].
  intros HL. rewrite H.
  destruct (ErrObs.sources E globs) as [|name rest] eqn:Hsrc; [reflexivity|].
  cbn [existsb]. unfold ErrObs.counted at 1.
  destruct (Hall name (or_introl eq_refl)) as (f & Hopen & _).
  rewrite Hopen, HL. now rewrite andb_false_l.
Qed.

(** X15: in the revision with errors the first error ends the run: when
    the visit of the globs [a] ends with an error, the run over [a ++ b]
    returns that error, having done nothing for [b]; in particular a glob
    that [filepath.Glob] rejects is returned at once. *)
Theorem GrepErr_error_ends_the_run (E : Env) (pat : string)
        (pattern : Regexp E) (a b : list string)
        (w : World GrepErr.FlagsT) :
  Compile E pat = Ok pattern ->
  a <> [] ->
  (forall err,
      fst (GrepErr.grepGlobs E pattern a 0
             (snd (setPrintName
                     (negb (GrepErr.NoFilename (Flags w))
                      && (1 <? length (a ++ b))%nat) w)))
      = inl err ->
      GrepErr.Grep E pat (a ++ b) w
      = (Some err,
         snd (GrepErr.grepGlobs E pattern a 0
                (snd (setPrintName
                        (negb (GrepErr.NoFilename (Flags w))
                         && (1 <? length (a ++ b))%nat) w)))))
  /\ (forall g rest e,
         a = g :: rest ->
         Glob E g = Err e ->
         GrepErr.Grep E pat (a ++ b) w
         = (Some (GrepErr.ErrOther e),
            after w [EvSetPrintName
                       (negb (GrepErr.NoFilename (Flags w))
                        && (1 <? length (a ++ b))%nat);
                     EvGlob g] "" "")).
Proof.
  intros Hc Ha.
  assert (Hne : (length (a ++ b) =? 0)%nat = false).
  { destruct a; [contradiction | reflexivity]. }
  split.
  - intros err Herr. unfold GrepErr.Grep.
    unfold bind at 1 2. unfold getFlags.
    set (w1 := snd (setPrintName
                      (negb (GrepErr.NoFilename (Flags w))
                       && (1 <? length (a ++ b))%nat) w)) in *.
    change (setPrintName
              (negb (GrepErr.NoFilename (Flags w))
               && (1 <? length (a ++ b))%nat) w) with (tt, w1).
    cbv beta iota. rewrite Hc, Hne. unfold bind at 1.
    rewrite Err_grepGlobs_app.
    destruct (GrepErr.grepGlobs E pattern a 0 w1) as [r w2].
    simpl in Herr. subst r. reflexivity.
  - intros g rest e -> Hglob. unfold GrepErr.Grep.
    unfold bind at 1 2. unfold getFlags.
    destruct (setPrintName _ w) as [[] w1] eqn:Hw1.
    assert (Hw : w1 = after w [EvSetPrintName
                                 (negb (GrepErr.NoFilename (Flags w))
                                  && (1 <? length ((g :: rest) ++ b))%nat)]
                            "" "")
      by (rewrite <- setPrintName_after; now rewrite Hw1).
    rewrite Hc, Hne. unfold bind at 1.
    rewrite <- app_comm_cons. simpl GrepErr.grepGlobs.
    unfold bind at 1. rewrite Hglob.
    destruct (log (EvGlob g) w1) as [[] w2] eqn:Hw2.
    assert (Hw' : w2 = after w1 [EvGlob g] "" "")
      by (rewrite <- log_after by reflexivity; now rewrite Hw2).
    unfold ret. rewrite Hw', Hw, after_after. reflexivity.
Qed.

(** X16: the revision with errors has no fallback for a glob that
    matches nothing: when every glob expands to no path, [Grep] opens
    nothing, prints nothing and returns [ErrNoMatch]. *)
Theorem GrepErr_unmatched_globs_are_skipped (E : Env) (pat : string)
        (pattern : Regexp E) (globs : list string)
        (w : World GrepErr.FlagsT) :
  Compile E pat = Ok pattern ->
  globs <> [] ->
  (forall g, In g globs -> Glob E g = Ok []) ->
  GrepErr.Grep E pat globs w
  = (Some GrepErr.ErrNoMatch,
     after w (EvSetPrintName (negb (GrepErr.NoFilename (Flags w))
                              && (1 <? length globs)%nat)
              :: map EvGlob globs) "" "").
Proof.
  intros Hc Hg Hall.
  assert (Hloop : forall l m (w1 : World GrepErr.FlagsT),
             (forall g, In g l -> Glob E g = Ok []) ->
             GrepErr.grepGlobs E pattern l m w1
             = (inr m, after w1 (map EvGlob l) "" "")).
  { induction l as [|g l IH]; intros m w1 Hl.
    - simpl. unfold ret. now rewrite after_nil.
    - simpl GrepErr.grepGlobs. unfold bind at 1.
      destruct (log (EvGlob g) w1) as [[] w2] eqn:Hw2.
      assert (Hw' : w2 = after w1 [EvGlob g] "" "")
        by (rewrite <- log_after by reflexivity; now rewrite Hw2).
      rewrite (Hl g (or_introl eq_refl)). simpl. unfold bind, ret.
      rewrite IH by (intros g' Hg'; apply Hl; now right).
      rewrite Hw', after_after. reflexivity. }
  unfold GrepErr.Grep. unfold bind at 1 2. unfold getFlags.
  destruct (setPrintName _ w) as [[] w1] eqn:Hw1.
  assert (Hw : w1 = after w [EvSetPrintName
                               (negb (GrepErr.NoFilename (Flags w))
                                && (1 <? length globs)%nat)] "" "")
    by (rewrite <- setPrintName_after; now rewrite Hw1).
  rewrite Hc.
  destruct globs as [|g globs'] eqn:Hgl; [contradiction|].
  rewrite <- Hgl in *. 
  assert (Hne : (length globs =? 0)%nat = false) by now rewrite Hgl.
  rewrite Hne. unfold bind at 1. rewrite Hloop by exact Hall.
  simpl. unfold ret. rewrite Hw, after_after. reflexivity.
Qed.

(** * The flags of a test case *)
Section TestFlags.
Import Harness.

Lemma setFlag_fields (fl : FlagsT) (f : string) :
  CountOnly (setFlag fl f) = CountOnly fl || String.eqb f "-c"
  /\ FilesWithMatch (setFlag fl f) = FilesWithMatch fl || String.eqb f "-l"
  /\ FilesWithoutMatch (setFlag fl f)
     = FilesWithoutMatch fl || String.eqb f "-L"
  /\ Invert (setFlag fl f) = Invert fl || String.eqb f "-v"
  /\ LineNumbers (setFlag fl f) = LineNumbers fl || String.eqb f "-n"
  /\ NoErrorMessages (setFlag fl f)
     = NoErrorMessages fl || String.eqb f "-s"
  /\ NoFilename (setFlag fl f) = NoFilename fl || String.eqb f "-h"
  /\ Quiet (setFlag fl f) = Quiet fl || String.eqb f "-q".
Proof.
  unfold setFlag.
  destruct (String.eqb_spec f "-c") as [->|N1];
    [simpl; rewrite ?orb_true_r, ?orb_false_r; repeat split|].
  destruct (String.eqb_spec f "-l") as [->|N2];
    [simpl; rewrite ?orb_true_r, ?orb_false_r; repeat split|].
  destruct (String.eqb_spec f "-L") as [->|N3];
    [simpl; rewrite ?orb_true_r, ?orb_false_r; repeat split|].
  destruct (String.eqb_spec f "-v") as [->|N4];
    [simpl; rewrite ?orb_true_r, ?orb_false_r; repeat split|].
  destruct (String.eqb_spec f "-n") as [->|N5];
    [simpl; rewrite ?orb_true_r, ?orb_false_r; repeat split|].
  destruct (String.eqb_spec f "-s") as [->|N6];
    [simpl; rewrite ?orb_true_r, ?orb_false_r; repeat split|].
  destruct (String.eqb_spec f "-h") as [->|N7];
    [simpl; rewrite ?orb_true_r, ?orb_false_r; repeat split|].
  destruct (String.eqb_spec f "-q") as [->|N8];
    [simpl; rewrite ?orb_true_r, ?orb_false_r; repeat split|].
  rewrite ?orb_false_r. repeat split.
Qed.

Lemma fold_setFlag_fields (l : list string) : forall fl : FlagsT,
  CountOnly (fold_left setFlag l fl)
  = CountOnly fl || existsb (fun f => String.eqb f "-c") l
  /\ FilesWithMatch (fold_left setFlag l fl)
     = FilesWithMatch fl || existsb (fun f => String.eqb f "-l") l
  /\ FilesWithoutMatch (fold_left setFlag l fl)
     = FilesWithoutMatch fl || existsb (fun f => String.eqb f "-L") l
  /\ Invert (fold_left setFlag l fl)
     = Invert fl || existsb (fun f => String.eqb f "-v") l
  /\ LineNumbers (fold_left setFlag l fl)
     = LineNumbers fl || existsb (fun f => String.eqb f "-n") l
  /\ NoErrorMessages (fold_left setFlag l fl)
     = NoErrorMessages fl || existsb (fun f => String.eqb f "-s") l
  /\ NoFilename (fold_left setFlag l fl)
     = NoFilename fl || existsb (fun f => String.eqb f "-h") l
  /\ Quiet (fold_left setFlag l fl)
     = Quiet fl || existsb (fun f => String.eqb f "-q") l.
Proof.
  induction l as [|f l IH]; intros fl.
  - simpl. rewrite ?orb_false_r. repeat split.
  - cbn [fold_left existsb].
    destruct (IH (setFlag fl f))
      as (H1 & H2 & H3 & H4 & H5 & H6 & H7 & H8).
    destruct (setFlag_fields fl f)
      as (S1 & S2 & S3 & S4 & S5 & S6 & S7 & S8).
    rewrite H1, H2, H3, H4, H5, H6, H7, H8.
    rewrite S1, S2, S3, S4, S5, S6, S7, S8.
    rewrite !orb_assoc. repeat split.
Qed.

Lemma splitSpace_nonempty (s : string) : splitSpace s <> [].
Proof.
  destruct s as [|c s]; simpl; [discriminate|].
  destruct (Ascii.eqb c space); [discriminate|].
  destruct (splitSpace s); discriminate.
Qed.

(** The pieces of a string split at its spaces, joined by spaces, are the
    string. *)
Lemma splitSpace_join (s : string) :
  String.concat (String space "") (splitSpace s) = s.
Proof.
  induction s as [|c s IH]; [reflexivity|].
  simpl splitSpace.
  destruct (splitSpace s) as [|x xs] eqn:Hx;
    [exfalso; exact (splitSpace_nonempty s Hx)|].
  destruct (Ascii.eqb_spec c space) as [->|Hc].
  - change (String.concat (String space "") ("" :: x :: xs))
      with (String space (String.concat (String space "") (x :: xs))).
    now rewrite IH.
  - destruct xs as [|y ys].
    + simpl in *. now rewrite IH.
    + change (String.concat (String space "") (String c x :: y :: ys))
        with (String c (String.concat (String space "") (x :: y :: ys))).
      now rewrite IH.
Qed.

End TestFlags.

(** X17: the flags [TestGrep] runs a case with: each field of [Flags] is
    set exactly when its token occurs among the pieces of the string of
    flags split at its spaces; other pieces, repetitions and the order of
    the tokens change nothing. *)
Theorem test_flags_decoded (flags : string) :
  CountOnly (Harness.testFlags flags) = Harness.has "-c" flags
  /\ FilesWithMatch (Harness.testFlags flags) = Harness.has "-l" flags
  /\ FilesWithoutMatch (Harness.testFlags flags) = Harness.has "-L" flags
  /\ Invert (Harness.testFlags flags) = Harness.has "-v" flags
  /\ LineNumbers (Harness.testFlags flags) = Harness.has "-n" flags
  /\ NoErrorMessages (Harness.testFlags flags) = Harness.has "-s" flags
  /\ NoFilename (Harness.testFlags flags) = Harness.has "-h" flags
  /\ Quiet (Harness.testFlags flags) = Harness.has "-q" flags.
Proof.
  unfold Harness.testFlags, Harness.has.
  exact (fold_setFlag_fields (Harness.splitSpace flags)
           (mkFlags false false false false false false false false)).
Qed.

(** ** The further properties at concrete inputs *)

Lemma default_mode_prints_selected_lines_witness :
  straight (Demo.start Demo.flagsN)
  /\ Z.of_nat (length (lines Demo.fileB)) < 2 ^ 63
  /\ grepFile Demo.env "b.txt" Demo.fileB "en" (Demo.start Demo.flagsN)
     = (true,
        after (Demo.start Demo.flagsN) [EvScan "b.txt" false]
              ("1:open sesame" ++ nl ++ "3:the end" ++ nl) "").
Proof.
  refine ((fun Hs Hlen =>
             conj Hs (conj Hlen
               (default_mode_prints_selected_lines Demo.env "b.txt"
                  Demo.fileB "en" (Demo.start Demo.flagsN)
                  Hs eq_refl eq_refl eq_refl eq_refl Hlen))) _ _).
  - split; discriminate.
  - reflexivity.
Defined.

Lemma files_with_match_prints_name_once_witness :
  straight (Demo.start Demo.flagsLower)
  /\ grepFile Demo.env "b.txt" Demo.fileB "en" (Demo.start Demo.flagsLower)
     = (true,
        after (Demo.start Demo.flagsLower) [EvScan "b.txt" false] "" "").
Proof.
  refine ((fun Hs =>
             conj Hs
               (files_with_match_prints_name_once Demo.env "b.txt"
                  Demo.fileB "en" (Demo.start Demo.flagsLower)
                  Hs eq_refl eq_refl eq_refl)) _).
  split; discriminate.
Defined.

Lemma files_without_match_prints_unmatched_name_witness :
  straight (Demo.start Demo.flagsL)
  /\ grepFile Demo.env "b.txt" Demo.fileB "zzz" (Demo.start Demo.flagsL)
     = (false, after (Demo.start Demo.flagsL) [EvScan "b.txt" false] "" "").
Proof.
  refine ((fun Hs =>
             conj Hs
               (files_without_match_prints_unmatched_name Demo.env "b.txt"
                  Demo.fileB "zzz" (Demo.start Demo.flagsL) Hs eq_refl)) _).
  split; discriminate.
Defined.

Lemma read_error_reported_unless_returned_witness :
  straight (Demo.start Demo.noFlags)
  /\ osStderr (snd (grepFile Demo.env "x" Demo.broken "hello"
                             (Demo.start Demo.noFlags)))
     = "read error" ++ nl
  /\ osStderr (snd (grepFile Demo.env "x" Demo.broken "hello"
                             (Demo.start Demo.flagsLower)))
     = "".
Proof.
  refine ((fun Hs =>
             conj Hs
               (conj
                  (read_error_reported_unless_returned Demo.env "x"
                     Demo.broken "hello" (Demo.start Demo.noFlags) Hs)
                  (read_error_reported_unless_returned Demo.env "x"
                     Demo.broken "hello" (Demo.start Demo.flagsLower) Hs)))
            _).
  split; discriminate.
Defined.

Lemma Grep_output_in_source_order_witness :
  straight (Demo.start Demo.noFlags)
  /\ ["a.txt"; "*.bin"; "b.txt"] <> []
  /\ osStdout (snd (Grep Demo.env "hello" ["a.txt"; "*.bin"; "b.txt"]
                         (Demo.start Demo.noFlags)))
     = "a.txt:hello world" ++ nl ++ "b.txt:hello again" ++ nl
  /\ osStderr (snd (Grep Demo.env "hello" ["a.txt"; "*.bin"; "b.txt"]
                         (Demo.start Demo.noFlags)))
     = diagnostic "*.bin" "open *.bin: no such file or directory".
Proof.
  refine ((fun Hs Hg =>
             let T := Grep_output_in_source_order Demo.env "hello" "hello"
                        ["a.txt"; "*.bin"; "b.txt"]
                        (Demo.start Demo.noFlags) Hs eq_refl Hg in
             conj Hs (conj Hg
               (conj (f_equal osStdout T) (f_equal osStderr T)))) _ _).
  - split; discriminate.
  - discriminate.
Defined.

Lemma files_with_match_lists_sources_witness :
  straight (Demo.start Demo.flagsLower)
  /\ ["*.txt"; "nope"] <> []
  /\ osStdout (snd (Grep Demo.env "open" ["*.txt"; "nope"]
                         (Demo.start Demo.flagsLower)))
     = "b.txt" ++ nl.
Proof.
  refine ((fun Hs Hg =>
             conj Hs (conj Hg
               (files_with_match_lists_sources Demo.env "open" "open"
                  ["*.txt"; "nope"] (Demo.start Demo.flagsLower)
                  Hs eq_refl Hg eq_refl eq_refl eq_refl))) _ _).
  - split; discriminate.
  - discriminate.
Defined.

Lemma files_without_match_lists_sources_witness :
  straight (Demo.start Demo.flagsL)
  /\ ["*.txt"; "nope"] <> []
  /\ osStdout (snd (Grep Demo.env "open" ["*.txt"; "nope"]
                         (Demo.start Demo.flagsL)))
     = "a.txt" ++ nl.
Proof.
  refine ((fun Hs Hg =>
             conj Hs (conj Hg
               (files_without_match_lists_sources Demo.env "open" "open"
                  ["*.txt"; "nope"] (Demo.start Demo.flagsL)
                  Hs eq_refl Hg eq_refl eq_refl))) _ _).
  - split; discriminate.
  - discriminate.
Defined.

Lemma Grep_true_iff_some_line_selected_witness :
  Z.of_nat (length (sources Demo.env ["*.txt"])) < 2 ^ 63
  /\ (forall name f, In name (sources Demo.env ["*.txt"]) ->
                     Open Demo.env name = Ok f ->
                     Z.of_nat (length (lines f)) < 2 ^ 63)
  /\ fst (Grep Demo.env "zzz" ["*.txt"] (Demo.start Demo.flagsC)) = false
  /\ fst (Grep Demo.env "open" ["*.txt"] (Demo.start Demo.flagsC)) = true.
Proof.
  refine ((fun Hn Hl =>
             conj Hn (conj Hl
               (conj
                  (Grep_true_iff_some_line_selected Demo.env "zzz" "zzz"
                     ["*.txt"] (Demo.start Demo.flagsC)
                     eq_refl eq_refl Hn Hl eq_refl)
                  (Grep_true_iff_some_line_selected Demo.env "open" "open"
                     ["*.txt"] (Demo.start Demo.flagsC)
                     eq_refl eq_refl Hn Hl eq_refl)))) _ _).
  - reflexivity.
  - intros name f [<-|[<-|[]]] Hf; inversion Hf; reflexivity.
Defined.

Lemma quiet_writes_nothing_witness :
  Quiet (Flags (Demo.start Demo.flagsCQ)) = true
  /\ osStdout (snd (Grep Demo.env "hello" ["a.txt"; "nope"]
                         (Demo.start Demo.flagsCQ))) = ""
  /\ osStderr (snd (Grep Demo.env "hello" ["a.txt"; "nope"]
                         (Demo.start Demo.flagsCQ))) = "".
Proof.
  refine ((fun Hq =>
             conj Hq
               (quiet_writes_nothing Demo.env "hello" "hello"
                  ["a.txt"; "nope"] (Demo.start Demo.flagsCQ) eq_refl Hq))
            _).
  reflexivity.
Defined.

Lemma sinks_stay_rebound_witness :
  Compile Demo.env "hello" = Ok "hello"
  /\ Compile Demo.env "(" = Err Demo.badPattern
  /\ Grep Demo.env "(" ["a.txt"]
          (snd (Grep Demo.env "hello" ["a.txt"] (Demo.start Demo.flagsS)))
     = (false, snd (Grep Demo.env "hello" ["a.txt"] (Demo.start Demo.flagsS))).
Proof.
  refine ((fun H1 H2 =>
             conj H1 (conj H2
               (proj2 (proj2 (sinks_stay_rebound Demo.env "hello" ["a.txt"]
                                (Demo.start Demo.flagsS)))
                      "hello" "(" ["a.txt"] Demo.badPattern
                      H1 eq_refl H2))) _ _).
  - reflexivity.
  - reflexivity.
Defined.

Lemma glob_failure_is_local_witness :
  In "[" ["["; "a.txt"]
  /\ Glob Demo.env "[" = Err "syntax error in pattern"
  /\ exists evs,
      trace (snd (Grep Demo.env "hello" ["["; "a.txt"]
                       (Demo.start Demo.noFlags)))
      = ([] ++ evs)%list
      /\ filter isGlob evs = [EvGlob "["; EvGlob "a.txt"]
      /\ filter isOpen evs = [EvOpen "a.txt"]
      /\ length (filter isSetPrintName evs) = 1%nat.
Proof.
  refine ((fun Hin Hg =>
             conj Hin (conj Hg
               (proj2 (proj2 (proj2
                  (glob_failure_is_local Demo.env "hello" "hello"
                     ["["; "a.txt"] "[" "syntax error in pattern"
                     (Demo.start Demo.noFlags) eq_refl Hin Hg)))))) _ _).
  - left. reflexivity.
  - reflexivity.
Defined.

Lemma GrepErr_errors_are_returned_witness :
  straight Demo.startErr
  /\ exists evs out,
      snd (GrepErr.Grep Demo.env "(" ["a.txt"] Demo.startErr)
      = after Demo.startErr evs out ""
      /\ GrepErr.cmdMain Demo.env "" ["("; "a.txt"] Demo.startErr
         = (2, after Demo.startErr evs out (Demo.badPattern ++ nl)).
Proof.
  refine ((fun Hs =>
             conj Hs
               (GrepErr_errors_are_returned Demo.env "(" ["a.txt"]
                  Demo.startErr Hs)) _).
  split; discriminate.
Defined.

Lemma GrepErr_result_without_errors_witness :
  ["*.txt"] <> []
  /\ ErrObs.allReadable Demo.env (ErrObs.sources Demo.env ["*.txt"])
  /\ fst (GrepErr.Grep Demo.env "zzz" ["*.txt"] Demo.startErr) = None.
Proof.
  refine ((fun Hg Hglobs Hall Hlen =>
             conj Hg (conj Hall
               (proj1 (GrepErr_result_without_errors Demo.env "zzz" "zzz"
                         ["*.txt"] Demo.startErr eq_refl Hg Hglobs Hall
                         Hlen)))) _ _ _ _).
  - discriminate.
  - intros g [<-|[]]. eexists. reflexivity.
  - intros name [<-|[<-|[]]]; eexists; split; reflexivity.
  - reflexivity.
Defined.

Lemma GrepErr_error_ends_the_run_witness :
  ["["] <> []
  /\ Glob Demo.env "[" = Err "syntax error in pattern"
  /\ GrepErr.Grep Demo.env "hello" (["["] ++ ["a.txt"; "b.txt"])
                  Demo.startErr
     = (Some (GrepErr.ErrOther "syntax error in pattern"),
        after Demo.startErr [EvSetPrintName true; EvGlob "["] "" "").
Proof.
  refine ((fun Ha Hg =>
             conj Ha (conj Hg
               (proj2 (GrepErr_error_ends_the_run Demo.env "hello" "hello"
                         ["["] ["a.txt"; "b.txt"] Demo.startErr eq_refl Ha)
                      "[" [] "syntax error in pattern" eq_refl Hg))) _ _).
  - discriminate.
  - reflexivity.
Defined.

Lemma GrepErr_unmatched_globs_are_skipped_witness :
  ["nope"; "*.bin"] <> []
  /\ (forall g, In g ["nope"; "*.bin"] -> Glob Demo.env g = Ok [])
  /\ GrepErr.Grep Demo.env "hello" ["nope"; "*.bin"] Demo.startErr
     = (Some GrepErr.ErrNoMatch,
        after Demo.startErr
              [EvSetPrintName true; EvGlob "nope"; EvGlob "*.bin"] "" "").
Proof.
  refine ((fun Hg Hall =>
             conj Hg (conj Hall
               (GrepErr_unmatched_globs_are_skipped Demo.env "hello" "hello"
                  ["nope"; "*.bin"] Demo.startErr eq_refl Hg Hall))) _ _).
  - discriminate.
  - intros g [<-|[<-|[]]]; reflexivity.
Defined.

Lemma Grep_without_globs_scans_stdin_witness :
  straight (initWorld Demo.flagsN Demo.fileB)
  /\ Grep Demo.env "en" [] (initWorld Demo.flagsN Demo.fileB)
     = (true,
        after (initWorld Demo.flagsN Demo.fileB) [EvScan "" false]
              ("1:open sesame" ++ nl ++ "3:the end" ++ nl) "").
Proof.
  refine ((fun Hs =>
             conj Hs
               (Grep_without_globs_scans_stdin Demo.env "en" "en"
                  (initWorld Demo.flagsN Demo.fileB) Hs eq_refl)) _).
  split; discriminate.
Defined.

(** * The two revisions side by side

    The points on which [src/unnamed/part_000] and [src/grep.go] differ:
    when [printName] is assigned, what the exit status says, and what a
    path that cannot be opened does to the run. *)

(** ** A computation that does not assign [printName] *)
Section UsesPrintName.
Context {F : Type}.

Lemma uses_ret {A} (a : A) (w : World F) : usesPrintName (ret a) w.
Proof.
  exists []. simpl. rewrite app_nil_r. repeat split. constructor.
Qed.

Lemma uses_bind {A B} (m : M F A) (k : A -> M F B) (w : World F) :
  usesPrintName m w ->
  (forall a, usesPrintName (k a) (snd (m w))) ->
  usesPrintName (bind m k) w.
Proof.
  intros (e1 & T1 & P1 & F1) Hk. unfold usesPrintName in *. unfold bind.
  destruct (m w) as [a w1]. simpl in *.
  destruct (Hk a) as (e2 & T2 & P2 & F2).
  exists (e1 ++ e2)%list. rewrite T2, T1, P2, P1, app_assoc.
  repeat split. apply Forall_app. split; [exact F1|].
  now rewrite <- P1.
Qed.

Lemma uses_getFlags (w : World F) : usesPrintName getFlags w.
Proof. exists []. simpl. rewrite app_nil_r. repeat split. constructor. Qed.

Lemma uses_getPrintName (w : World F) : usesPrintName getPrintName w.
Proof. exists []. simpl. rewrite app_nil_r. repeat split. constructor. Qed.

Lemma uses_getStdin (w : World F) : usesPrintName getStdin w.
Proof. exists []. simpl. rewrite app_nil_r. repeat split. constructor. Qed.

Lemma uses_Fprint v s (w : World F) : usesPrintName (Fprint v s) w.
Proof.
  exists []. unfold Fprint. simpl. rewrite app_nil_r.
  destruct (v w); repeat split; constructor.
Qed.

Lemma uses_Fprintln v s (w : World F) : usesPrintName (Fprintln v s) w.
Proof. apply uses_Fprint. Qed.

Lemma uses_log_glob g (w : World F) : usesPrintName (log (EvGlob g)) w.
Proof. exists [EvGlob g]. repeat split. repeat constructor. Qed.

Lemma uses_log_open n (w : World F) : usesPrintName (log (EvOpen n)) w.
Proof. exists [EvOpen n]. repeat split. repeat constructor. Qed.

(** A scan is logged with the value [printName] has. *)
Lemma uses_scan {A} name (k : M F A) (w : World F) :
  (forall w1, printName w1 = printName w -> usesPrintName k w1) ->
  usesPrintName (pn <- getPrintName ;; log (EvScan name pn) ;; k) w.
Proof.
  intros Hk. unfold usesPrintName, bind, getPrintName, log. simpl.
  destruct (Hk (mkWorld (Flags w) (printName w) (stderr w) (stdout w)
                        (stdin w) (osStdout w) (osStderr w)
                        (trace w ++ [EvScan name (printName w)])%list)
               eq_refl)
    as (e & T & P & Fe).
  simpl in T, P, Fe.
  exists (EvScan name (printName w) :: e).
  rewrite T, P, <- app_assoc. repeat split.
  constructor; [reflexivity | exact Fe].
Qed.

Lemma uses_when b (m : M F unit) (w : World F) :
  usesPrintName m w -> usesPrintName (when b m) w.
Proof. intros H. destruct b; [exact H | apply uses_ret]. Qed.

Lemma uses_if {A} (b : bool) (m1 m2 : M F A) (w : World F) :
  usesPrintName m1 w -> usesPrintName m2 w ->
  usesPrintName (if b then m1 else m2) w.
Proof. now destruct b. Qed.

(** No assignment among events that work with one value. *)
Lemma scansWith_no_assignment (pn : bool) (evs : list Event) :
  Forall (scansWith pn) evs -> filter isSetPrintName evs = [].
Proof.
  induction 1 as [|e l He _ IH]; [reflexivity|].
  destruct e; simpl in *; solve [exact IH | contradiction].
Qed.

End UsesPrintName.

Create HintDb uses.
#[local] Hint Resolve uses_ret uses_getFlags uses_getPrintName uses_getStdin
  uses_Fprint uses_Fprintln uses_log_glob uses_log_open : uses.

Ltac using_printName :=
  repeat first
    [ solve [auto with uses]
    | apply uses_bind; [|intros ?]
    | apply uses_when
    | apply uses_if ].

Section ErrPrintName.
Variable E : Env.
Import GrepErr.

Lemma Err_emitLine_uses name n line (w : World GrepErr.FlagsT) :
  usesPrintName (GrepErr.emitLine name n line) w.
Proof. unfold GrepErr.emitLine. using_printName. Qed.

Lemma Err_scanLoop_uses name pattern rest :
  forall lineNumber count (w : World GrepErr.FlagsT),
    usesPrintName (GrepErr.scanLoop E name pattern rest lineNumber count) w.
Proof.
  induction rest as [|line rest IH]; intros lineNumber count w; simpl.
  - apply uses_ret.
  - using_printName; try apply IH; try apply Err_emitLine_uses.
Qed.

Lemma Err_grepFile_uses name inp pattern (w : World GrepErr.FlagsT) :
  usesPrintName (GrepErr.grepFile E name inp pattern) w.
Proof.
  unfold GrepErr.grepFile. apply uses_scan. intros w1 _.
  apply uses_bind; [apply Err_scanLoop_uses | intros x].
  destruct (fst x); [apply uses_ret|].
  destruct (readErr inp); using_printName.
Qed.

Lemma Err_grepPaths_uses pattern paths :
  forall m (w : World GrepErr.FlagsT),
    usesPrintName (GrepErr.grepPaths E pattern paths m) w.
Proof.
  induction paths as [|name rest IH]; intros m w; simpl.
  - apply uses_ret.
  - apply uses_bind; [apply uses_log_open | intros []].
    destruct (Open E name); [|apply uses_ret].
    apply uses_bind; [apply Err_grepFile_uses | intros [err|]];
      [|apply IH].
    destruct (isErrNoMatch err); [apply IH | apply uses_ret].
Qed.

Lemma Err_grepGlobs_uses pattern globs :
  forall m (w : World GrepErr.FlagsT),
    usesPrintName (GrepErr.grepGlobs E pattern globs m) w.
Proof.
  induction globs as [|g rest IH]; intros m w; simpl.
  - apply uses_ret.
  - apply uses_bind; [apply uses_log_glob | intros []].
    destruct (Glob E g); [|apply uses_ret].
    apply uses_bind; [apply Err_grepPaths_uses | intros [err|m1]];
      [apply uses_ret | apply IH].
Qed.

(** [Grep] of [src/grep.go] assigns [printName] on entry, once, and all
    that follows works with that value. *)
Lemma Err_Grep_printName pat globs (w : World GrepErr.FlagsT) :
  let v := negb (NoFilename (Flags w)) && (1 <? length globs)%nat in
  exists evs,
    trace (snd (GrepErr.Grep E pat globs w))
    = (trace w ++ EvSetPrintName v :: evs)%list
    /\ Forall (scansWith v) evs
    /\ printName (snd (GrepErr.Grep E pat globs w)) = v.
Proof.
  intros v. set (w1 := snd (setPrintName v w)).
  remember (GrepErr.Grep E pat globs w) as r eqn:Hr.
  unfold GrepErr.Grep in Hr. unfold bind at 1 2 in Hr. unfold getFlags in Hr.
  fold v in Hr. change (setPrintName v w) with (tt, w1) in Hr.
  cbv beta iota in Hr.
  match type of Hr with
  | _ = ?m w1 => assert (H : usesPrintName m w1)
  end.
  { destruct (Compile E pat); [|apply uses_ret].
    destruct (length globs =? 0)%nat.
    - apply uses_bind; [apply uses_getStdin | intros sin].
      apply Err_grepFile_uses.
    - apply uses_bind; [apply Err_grepGlobs_uses | intros [err|m]];
        [apply uses_ret|].
      destruct (m =? 0); apply uses_ret. }
  destruct H as (evs & T & P & Fe). exists evs.
  rewrite Hr, T, P. simpl. rewrite <- app_assoc. repeat split. exact Fe.
Qed.

End ErrPrintName.

(** ** When [printName] is assigned *)

(** One glob that expands to several paths: [src/unnamed/part_000]
    prints names unless [-h] is given, [src/grep.go] does not. *)
Lemma runPrintName_one_glob (E : Env) (nf : bool) (g p1 p2 : string)
      (paths : list string) :
  Glob E g = Ok (p1 :: p2 :: paths) ->
  runPrintName E nf [g] = negb nf.
Proof.
  intros H. unfold runPrintName, sources, expand. cbn [flat_map].
  rewrite H. cbn [length app]. destruct nf; reflexivity.
Qed.

(** C2, as the program has it.  In [src/unnamed/part_000], when the
    pattern compiles and there is at least one glob, [printName] is
    assigned once for every glob that [filepath.Glob] accepts, each time
    the same value, [runPrintName]: no [-h], and more than one glob or
    more than one path to open; every scan of the run sees that value.
    With no glob [printName] is not assigned, and standard input is
    scanned with the value it had before the call.  In [src/grep.go],
    whatever the pattern is, [printName] is assigned exactly once, on
    entry, to: no [-h], and more than one glob; no assignment follows,
    every scan of the run sees that value and it is the value [Grep]
    leaves.  For one glob that expands to two paths or more the first
    revision assigns [negb NoFilename] and the second assigns false.
    When the pattern does not compile the first revision assigns
    nothing. *)
Theorem printName_assigned_per_glob (E : Env) (pattern : string)
        (re : Regexp E) (globs : list string) (w : World FlagsT)
        (w' : World GrepErr.FlagsT) :
  Compile E pattern = Ok re ->
  (exists evs,
      trace (snd (Grep E pattern globs w)) = (trace w ++ evs)%list
      /\ match globs with
         | [] => evs = [EvScan "" (printName w)]
         | _ :: _ =>
           let v := runPrintName E (NoFilename (Flags w)) globs in
           filter isSetPrintName evs
           = map (fun _ => EvSetPrintName v) (filter (globOk E) globs)
           /\ filter isScan evs
              = map (fun name => EvScan name v)
                    (filter (opens E) (sources E globs))
         end)
  /\ (forall pat,
         let v := negb (GrepErr.NoFilename (Flags w'))
                  && (1 <? length globs)%nat in
         exists evs,
           trace (snd (GrepErr.Grep E pat globs w'))
           = (trace w' ++ EvSetPrintName v :: evs)%list
           /\ filter isSetPrintName evs = []
           /\ Forall (scansWith v) evs
           /\ printName (snd (GrepErr.Grep E pat globs w')) = v)
  /\ (forall g p1 p2 paths,
         globs = [g] ->
         Glob E g = Ok (p1 :: p2 :: paths) ->
         runPrintName E (NoFilename (Flags w)) globs
         = negb (NoFilename (Flags w))
         /\ negb (GrepErr.NoFilename (Flags w')) && (1 <? length globs)%nat
            = false)
  /\ (forall pat e,
         Compile E pat = Err e ->
         trace (snd (Grep E pat globs w)) = trace w
         /\ printName (snd (Grep E pat globs w)) = printName w).
Proof.
  intros Hc. split; [|split; [|split]].
  - destruct globs as [|g globs].
    + exists [EvScan "" (printName w)]. split; [|reflexivity].
      destruct (Grep_stdin_spec E pattern re w Hc)
        as [(_ & _ & _ & _ & T & _) _].
      rewrite T, suppress_world. reflexivity.
    + exists (runEvents E (NoFilename (Flags w)) (g :: globs)).
      split; [apply (Grep_trace E pattern re); [exact Hc | discriminate]|].
      unfold runEvents. split.
      * apply run_sets, agrees_run.
      * apply run_scans, agrees_run.
  - intros pat v.
    destruct (Err_Grep_printName E pat globs w') as (evs & T & Fe & P).
    exists evs. repeat split; try assumption.
    now apply (scansWith_no_assignment v).
  - intros g p1 p2 paths -> Hg. split.
    + now apply (runPrintName_one_glob E _ g p1 p2 paths).
    + apply andb_false_r.
  - intros pat e He. rewrite (Grep_invalid E pat e) by exact He.
    simpl snd. destruct (stderr w); split; reflexivity.
Qed.

Lemma printName_assigned_per_glob_witness :
  Compile Demo.env "hello" = Ok "hello"
  /\ (exists evs,
         trace (snd (Grep Demo.env "hello" ["*.txt"]
                          (Demo.start Demo.noFlags)))
         = ([] ++ evs)%list
         /\ filter isSetPrintName evs = [EvSetPrintName true]
         /\ filter isScan evs = [EvScan "a.txt" true; EvScan "b.txt" true])
  /\ (exists evs,
         trace (snd (GrepErr.Grep Demo.env "hello" ["*.txt"] Demo.startErr))
         = ([] ++ EvSetPrintName false :: evs)%list
         /\ filter isSetPrintName evs = []
         /\ Forall (scansWith false) evs
         /\ printName (snd (GrepErr.Grep Demo.env "hello" ["*.txt"]
                                         Demo.startErr)) = false).
Proof.
  refine ((fun H =>
             let T := printName_assigned_per_glob Demo.env "hello" "hello"
                        ["*.txt"] (Demo.start Demo.noFlags) Demo.startErr H in
             conj H (conj (proj1 T) (proj1 (proj2 T) "hello"))) _).
  reflexivity.
Defined.

(** ** What the exit status says *)
Section Status.
Variable E : Env.









End Status.

Section StatusStdin.
Variable E : Env.


End StatusStdin.



(** ** What a path that cannot be opened does to the run *)
Section OpenFailure.
Variable E : Env.

(** The loop over the paths of [src/grep.go], split in two: an error of
    the first part is the result, and the second part is not visited. *)
Lemma Err_grepPaths_app pattern a b :
  forall m (w : World GrepErr.FlagsT),
    GrepErr.grepPaths E pattern (a ++ b) m w
    = match GrepErr.grepPaths E pattern a m w with
      | (inl err, w1) => (inl err, w1)
      | (inr m1, w1) => GrepErr.grepPaths E pattern b m1 w1
      end.
Proof.
  induction a as [|name a IH]; intros m w; [reflexivity|].
  rewrite <- app_comm_cons. simpl GrepErr.grepPaths.
  unfold bind at 1 3. destruct (log (EvOpen name) w) as [[] w0].
  destruct (Open E name) as [f|e]; [|reflexivity].
  unfold bind at 1 2.
  destruct (GrepErr.grepFile E name f pattern w0) as [[err|] w1];
    [|apply IH].
  destruct (GrepErr.isErrNoMatch err); [apply IH | reflexivity].
Qed.

(** A path that cannot be opened, wherever it stands in the run of
    [src/grep.go]: the globs [pre] and the paths [before] having been
    visited without error, [Grep] returns the error of [os.Open] and the
    run ends with the attempt to open. *)
Lemma Err_Grep_open_failure pat re pre g before behind rest name e m0 m1
      (w : World GrepErr.FlagsT) :
  Compile E pat = Ok re ->
  Open E name = Err e ->
  Glob E g = Ok (before ++ name :: behind)%list ->
  let w0 := snd (setPrintName
                   (negb (GrepErr.NoFilename (Flags w))
                    && (1 <? length (pre ++ g :: rest))%nat) w) in
  let w2 := snd (log (EvGlob g) (snd (GrepErr.grepGlobs E re pre 0 w0))) in
  fst (GrepErr.grepGlobs E re pre 0 w0) = inr m0 ->
  fst (GrepErr.grepPaths E re before m0 w2) = inr m1 ->
  GrepErr.Grep E pat (pre ++ g :: rest) w
  = (Some (GrepErr.ErrOther e),
     snd (log (EvOpen name) (snd (GrepErr.grepPaths E re before m0 w2)))).
Proof.
  intros Hc Hopen Hglob w0 w2 Hpre Hbefore.
  assert (Hne : (length (pre ++ g :: rest) =? 0)%nat = false).
  { rewrite length_app. simpl. rewrite Nat.add_succ_r. reflexivity. }
  unfold GrepErr.Grep. unfold bind at 1 2. unfold getFlags.
  change (setPrintName
            (negb (GrepErr.NoFilename (Flags w))
             && (1 <? length (pre ++ g :: rest))%nat) w) with (tt, w0).
  cbv beta iota. rewrite Hc, Hne. unfold bind at 1.
  rewrite Err_grepGlobs_app. subst w2.
  destruct (GrepErr.grepGlobs E re pre 0 w0) as [r wA].
  cbn [fst snd] in *. subst r.
  simpl GrepErr.grepGlobs. unfold bind at 1.
  change (log (EvGlob g) wA) with (tt, snd (log (EvGlob g) wA)).
  set (w2 := snd (log (EvGlob g) wA)) in *. cbv beta iota. cbn [fst snd].
  rewrite Hglob. unfold bind at 1. rewrite Err_grepPaths_app.
  destruct (GrepErr.grepPaths E re before m0 w2) as [r wB].
  cbn [fst snd] in *. subst r.
  rewrite (GrepErr_open_failure_returns E re name e) by exact Hopen.
  reflexivity.
Qed.

(** An error that [Grep] of [src/grep.go] returns is written by
    [cmdMain], with a newline, to [stderr]; the status is 2. *)
Lemma Err_cmdMain_error pat globs e (w : World GrepErr.FlagsT) :
  straight w ->
  fst (GrepErr.Grep E pat globs w) = Some (GrepErr.ErrOther e) ->
  exists evs out,
    snd (GrepErr.Grep E pat globs w) = after w evs out ""
    /\ GrepErr.cmdMain E "" (pat :: globs) w
       = (2, after w evs out (e ++ nl)).
Proof.
  intros Hs Hr. destruct (Err_Grep_only E pat globs w Hs) as (evs & out & H).
  exists evs, out. split; [exact H|].
  unfold GrepErr.cmdMain. simpl. unfold bind at 1.
  destruct (GrepErr.Grep E pat globs w) as [r w1]. simpl in H, Hr.
  subst w1 r. unfold bind, ret, when, Fprintln, Fprint. simpl.
  rewrite write_stderr_after2 by exact Hs. reflexivity.
Qed.

End OpenFailure.

(** Against C9: in [src/grep.go] a path that cannot be opened ends the
    run.  [locked] is listed and cannot be opened, [a.txt] opens and has
    a line with [hello]; [Grep] returns the error of [os.Open], [a.txt]
    is never opened and nothing is printed, and [cmdMain] exits with 2,
    the error on os.Stderr. *)
Lemma open_failure_ends_the_run_in_grep_go :
  Glob Demo.envLocked "locked" = Ok ["locked"]
  /\ Open Demo.envLocked "locked" = Err "open locked: permission denied"
  /\ Open Demo.envLocked "a.txt" = Ok Demo.fileA
  /\ GrepErr.Grep Demo.envLocked "hello" ["locked"; "a.txt"] Demo.startErr
     = (Some (GrepErr.ErrOther "open locked: permission denied"),
        mkWorld Demo.noFlagsErr true OsStderr OsStdout (mkStream [] None)
                "" ""
                [EvSetPrintName true; EvGlob "locked"; EvOpen "locked"])
  /\ ~ In (EvOpen "a.txt")
          (trace (snd (GrepErr.Grep Demo.envLocked "hello"
                                    ["locked"; "a.txt"] Demo.startErr)))
  /\ GrepErr.cmdMain Demo.envLocked "" ["hello"; "locked"; "a.txt"]
                     Demo.startErr
     = (2,
        mkWorld Demo.noFlagsErr true OsStderr OsStdout (mkStream [] None)
                "" ("open locked: permission denied" ++ nl)
                [EvSetPrintName true; EvGlob "locked"; EvOpen "locked"]).
Proof.
  vm_compute. repeat split; try reflexivity.
  intros [H|[H|[H|[]]]]; discriminate H.
Qed.

(** C9, as the program has it.  In [src/unnamed/part_000] a path that
    cannot be opened costs one diagnostic on the writer [stderr] is
    bound to, and the loop goes on with the remaining paths, the count
    of matching files unchanged.  That writer is [ioutil.Discard]
    exactly when Quiet or NoErrorMessages is set: then os.Stderr
    receives nothing, otherwise the diagnostic is part of what it has
    received when [Grep] returns.  In the run as a whole every path of
    every glob is opened, in order, and every path that opens is
    scanned.  In [src/grep.go] the loop over the paths returns the error
    of [os.Open] at such a path, whatever follows it; [Grep] returns
    that error, the run ending with the attempt to open, once the globs
    and the paths before it have been visited without error; and
    [cmdMain] writes the error to [stderr] and exits with 2. *)
Theorem open_failure_is_local (E : Env) (pattern : string) (re : Regexp E)
        (globs : list string) (name e : string) (w : World FlagsT) :
  Compile E pattern = Ok re ->
  In name (sources E globs) ->
  Open E name = Err e ->
  ((forall rest matchFiles w1,
       grepPaths E re (name :: rest) matchFiles w1
       = grepPaths E re rest matchFiles
           (write (stderr w1) (diagnostic name e)
                  (snd (log (EvOpen name) w1))))
   /\ Grep E pattern globs w
      = (let (m, w') :=
             grepGlobs E re (length globs) globs 0 (snd (suppress w)) in
         (0 <? m, w'))
   /\ stderr (snd (suppress w))
      = (if Quiet (Flags w) || NoErrorMessages (Flags w)
         then Discard else stderr w)
   /\ (Quiet (Flags w) = false ->
       NoErrorMessages (Flags w) = false ->
       stderr w = OsStderr ->
       exists pre post,
         osStderr (snd (Grep E pattern globs w))
         = pre ++ diagnostic name e ++ post)
   /\ (Quiet (Flags w) || NoErrorMessages (Flags w) = true ->
       stdout w <> OsStderr ->
       osStderr (snd (Grep E pattern globs w)) = osStderr w)
   /\ exists evs,
       trace (snd (Grep E pattern globs w)) = (trace w ++ evs)%list
       /\ filter isOpen evs = map EvOpen (sources E globs)
       /\ filter isScan evs
          = map (fun n => EvScan n (runPrintName E (NoFilename (Flags w))
                                                 globs))
                (filter (opens E) (sources E globs)))
  /\ ((forall rest matchFiles (w1 : World GrepErr.FlagsT),
          GrepErr.grepPaths E re (name :: rest) matchFiles w1
          = (inl (GrepErr.ErrOther e), snd (log (EvOpen name) w1)))
      /\ (forall pre g before behind rest m0 m1 (w' : World GrepErr.FlagsT),
             Glob E g = Ok (before ++ name :: behind)%list ->
             let w0 := snd (setPrintName
                              (negb (GrepErr.NoFilename (Flags w'))
                               && (1 <? length (pre ++ g :: rest))%nat) w') in
             let w2 := snd (log (EvGlob g)
                                (snd (GrepErr.grepGlobs E re pre 0 w0))) in
             fst (GrepErr.grepGlobs E re pre 0 w0) = inr m0 ->
             fst (GrepErr.grepPaths E re before m0 w2) = inr m1 ->
             GrepErr.Grep E pattern (pre ++ g :: rest)%list w'
             = (Some (GrepErr.ErrOther e),
                snd (log (EvOpen name)
                         (snd (GrepErr.grepPaths E re before m0 w2)))))
      /\ (forall globs' (w' : World GrepErr.FlagsT),
             straight w' ->
             fst (GrepErr.Grep E pattern globs' w')
             = Some (GrepErr.ErrOther e) ->
             exists evs out,
               snd (GrepErr.Grep E pattern globs' w') = after w' evs out ""
               /\ GrepErr.cmdMain E "" (pattern :: globs') w'
                  = (2, after w' evs out (e ++ nl)))).
Proof.
  intros Hc Hin Hopen.
  pose proof (sources_nonempty E globs name Hin) as Hg.
  split; [split; [|split; [|split; [|split; [|split]]]] | split; [|split]].
  - intros rest matchFiles w1. now apply grepPaths_open_fails.
  - now apply Grep_globs.
  - rewrite suppress_world. reflexivity.
  - intros Hq Hs Herr. now apply (Grep_reports E re name e Hopen).
  - intros Hs Ho. now apply (Grep_suppressed E pattern re).
  - exists (runEvents E (NoFilename (Flags w)) globs).
    split; [now apply (Grep_trace E pattern re)|].
    unfold runEvents. split.
    + apply run_opens.
    + apply run_scans, agrees_run.
  - intros rest matchFiles w1.
    now apply GrepErr_open_failure_returns.
  - intros pre g before behind rest m0 m1 w' Hglob w0 w2 Hpre Hbefore.
    now apply (Err_Grep_open_failure E pattern re pre g before behind rest
                                     name e m0 m1 w').
  - intros globs' w' Hs Hr. now apply Err_cmdMain_error.
Qed.

Lemma open_failure_is_local_witness :
  In "locked" (sources Demo.envLocked ["locked"; "b.txt"])
  /\ Open Demo.envLocked "locked" = Err "open locked: permission denied"
  /\ (exists evs,
         trace (snd (Grep Demo.envLocked "hello" ["locked"; "b.txt"]
                          (Demo.start Demo.noFlags)))
         = ([] ++ evs)%list
         /\ filter isOpen evs = [EvOpen "locked"; EvOpen "b.txt"]
         /\ filter isScan evs = [EvScan "b.txt" true])
  /\ GrepErr.Grep Demo.envLocked "hello" ["a.txt"; "locked"; "b.txt"]
                  Demo.startErr
     = (Some (GrepErr.ErrOther "open locked: permission denied"),
        mkWorld Demo.noFlagsErr true OsStderr OsStdout (mkStream [] None)
                ("a.txt:hello world" ++ nl) ""
                [EvSetPrintName true; EvGlob "a.txt"; EvOpen "a.txt";
                 EvScan "a.txt" true; EvGlob "locked"; EvOpen "locked"]).
Proof.
  refine ((fun Hin Hopen =>
             let T := open_failure_is_local Demo.envLocked "hello" "hello"
                        ["locked"; "b.txt"] "locked"
                        "open locked: permission denied"
                        (Demo.start Demo.noFlags) eq_refl Hin Hopen in
             conj Hin (conj Hopen
               (conj (proj2 (proj2 (proj2 (proj2 (proj2 (proj1 T))))))
                     (proj1 (proj2 (proj2 T))
                            ["a.txt"] "locked" [] [] ["b.txt"] 1 1
                            Demo.startErr eq_refl eq_refl eq_refl)))) _ _).
  - left. reflexivity.
  - reflexivity.
Defined.
